(** * Validation schemas of the e-book platform (schemas.py)

    [schemas.py] declares five pydantic models: [User], [Ebook], [Purchase],
    [LibraryItem] and [SchemaInfo].  The file has no control flow of its own:
    what it does is decided by the field declarations (type, bounds, default)
    and by the way [pydantic.BaseModel] interprets them.  The development
    therefore has two layers.

    - The declarations are embedded as data ([ftype], [field], [model]); the
      definitions [User], [Ebook], [Purchase], [LibraryItem], [SchemaInfo]
      follow the source line by line.
    - [BaseModel] is embedded as an interpreter of that data
      ([validate_value], [validate_fields], [model_validate], [model_dump]).
      The semantics is pydantic 2 (a field called [schema], as in
      [SchemaInfo], is refused at class creation by pydantic 1): default
      configuration, python-mode input, lax conversions, unknown keys
      ignored, defaults not validated, errors collected over all fields.

    Python values are [pyval]; a float is an IEEE binary64 datum
    ([spec_float] at precision 53), a str a [string] whose [ascii] stand for
    its characters.  The interpreter is written twice.  On values
    ([validate_value]), where a list or a dict is its contents.  On a store
    ([hvalidate_value]), where a list or a dict is an object at an address,
    which two values can share and which can be changed in place; the
    second is proved to refine the first, and is what a statement about
    shared objects is made of.

    What the e-mail validator and the URL parser do with a text that has an
    at-sign, or a scheme, and the lax conversions of texts to float and to
    datetime, are not in the repository: they are the fields of the class
    [Library].  What is taken from pydantic and from the parsers is written
    where it is embedded: [validate_email] (no address without an at-sign),
    [http_url] (the length, the scheme of the text and the scheme of the
    URL), [as_float] (an int given for a float is converted, and refused
    when it is out of range), [check_bounds] (the two comparisons, which a
    NaN fails), [validate_value] (the lax conversions to bool, the kinds of
    the errors), [validate_field] (a default is not validated), [model_dump]
    (python mode: the values are handed out as they are held),
    [hvalidate_value] (a list or a dict is validated into a new object). *)

From Stdlib Require Import ZArith List String Ascii Bool Lia.
From Stdlib Require Import Floats.SpecFloat.
Import ListNotations.
Local Open Scope string_scope.
Local Open Scope list_scope.
Local Open Scope Z_scope.

Set Implicit Arguments.
Set Warnings "-register-all".

(** ** Binary64 *)

Module Float64.

Definition prec : Z := 53.
Definition emax : Z := 1024.

(** A Python float is a canonical binary64 datum. *)
Definition valid (x : spec_float) : bool := valid_binary prec emax x.

(** [float(n)] for a Python int, rounding to nearest even. *)
Definition Z2SF (n : Z) : spec_float := binary_normalize prec emax n 0 false.

(** The conversion raises OverflowError when the int is out of range. *)
Definition int_as_float (n : Z) : option spec_float :=
  match Z2SF n with
  | S754_infinity _ => None
  | f => Some f
  end.

Definition is_nan (x : spec_float) : bool :=
  match x with S754_nan => true | _ => false end.

(** The mathematical order between the value of a float and an integer,
    computed on the integers: [m * 2^e] against [k], cross-multiplied when
    [e] is negative.  A NaN compares with nothing. *)
Definition cmpZ (x : spec_float) (k : Z) : option comparison :=
  match x with
  | S754_nan => None
  | S754_zero _ => Some (0 ?= k)
  | S754_infinity s => Some (if s then Lt else Gt)
  | S754_finite s m e =>
      let sm := cond_Zopp s (Zpos m) in
      Some (if 0 <=? e then (sm * 2 ^ e ?= k) else (sm ?= k * 2 ^ (- e)))
  end.

(** The int a float stands for, when it has no fractional part and lies
    strictly between [-2^63] and [2^63]. *)
Definition float_as_int (x : spec_float) : option Z :=
  match x with
  | S754_zero _ => Some 0
  | S754_finite s m e =>
      let n := if 0 <=? e then Some (Zpos m * 2 ^ e)
               else if Zpos m mod 2 ^ (- e) =? 0 then Some (Zpos m / 2 ^ (- e))
               else None in
      match n with
      | Some n => if n <? 2 ^ 63 then Some (cond_Zopp s n) else None
      | None => None
      end
  | S754_infinity _ | S754_nan => None
  end.

End Float64.

(** ** Python values *)

(** The fields of a [datetime.datetime] object. *)
Record datetime := mk_datetime {
  dt_year : Z; dt_month : Z; dt_day : Z;
  dt_hour : Z; dt_minute : Z; dt_second : Z; dt_microsecond : Z;
  dt_utcoffset : option Z
}.

(** The values a document or a model instance holds.  [PUrl u] is a
    [pydantic.HttpUrl] object whose text is [u]. *)
Inductive pyval :=
| PNone
| PBool (b : bool)
| PInt (z : Z)
| PFloat (f : spec_float)
| PStr (s : string)
| PDatetime (d : datetime)
| PUrl (u : string)
| PList (l : list pyval)
| PDict (kvs : list (string * pyval)).

(** A dict with str keys, in insertion order; a lookup finds the first
    binding of the key. *)
Definition pydict := list (string * pyval).

Fixpoint dict_get (k : string) (d : pydict) : option pyval :=
  match d with
  | [] => None
  | (k', v) :: d' => if String.eqb k k' then Some v else dict_get k d'
  end.

(** [{**d, k: v}] *)
Definition dict_set (k : string) (v : pyval) (d : pydict) : pydict := (k, v) :: d.

(** [{k': v' for k', v' in d.items() if k' != k}] *)
Definition dict_del (k : string) (d : pydict) : pydict :=
  filter (fun kv => negb (String.eqb k (fst kv))) d.

(** *** Python equality [==] *)

Definition datetime_eqb (a b : datetime) : bool :=
  (dt_year a =? dt_year b) && (dt_month a =? dt_month b) && (dt_day a =? dt_day b)
  && (dt_hour a =? dt_hour b) && (dt_minute a =? dt_minute b)
  && (dt_second a =? dt_second b) && (dt_microsecond a =? dt_microsecond b)
  && match dt_utcoffset a, dt_utcoffset b with
     | None, None => true
     | Some x, Some y => x =? y
     | _, _ => false
     end.

(** Numbers compare by value across bool, int and float; an int and a float
    are compared exactly. *)
Inductive number := NInt (z : Z) | NFloat (f : spec_float).

Definition as_number (v : pyval) : option number :=
  match v with
  | PBool b => Some (NInt (if b then 1 else 0))
  | PInt z => Some (NInt z)
  | PFloat f => Some (NFloat f)
  | _ => None
  end.

Definition number_eqb (a b : number) : bool :=
  match a, b with
  | NInt x, NInt y => x =? y
  | NFloat x, NFloat y => SFeqb x y
  | NInt x, NFloat y | NFloat y, NInt x =>
      match Float64.cmpZ y x with Some Eq => true | _ => false end
  end.

(** [a == b].  Dicts are compared in order, which is finer than Python's
    comparison of dicts; two datetimes are equal here when their fields are. *)
Fixpoint py_eq (a b : pyval) : bool :=
  match a with
  | PNone => match b with PNone => true | _ => false end
  | PStr s => match b with PStr t => String.eqb s t | _ => false end
  | PDatetime d => match b with PDatetime d' => datetime_eqb d d' | _ => false end
  | PUrl u => match b with PUrl u' => String.eqb u u' | _ => false end
  | PList l =>
      match b with
      | PList m =>
          (fix go (l m : list pyval) {struct l} : bool :=
             match l, m with
             | [], [] => true
             | x :: l', y :: m' => py_eq x y && go l' m'
             | _, _ => false
             end) l m
      | _ => false
      end
  | PDict l =>
      match b with
      | PDict m =>
          (fix go (l m : list (string * pyval)) {struct l} : bool :=
             match l, m with
             | [], [] => true
             | (k, x) :: l', (k', y) :: m' => String.eqb k k' && py_eq x y && go l' m'
             | _, _ => false
             end) l m
      | _ => false
      end
  | PBool _ | PInt _ | PFloat _ =>
      match as_number a, as_number b with
      | Some x, Some y => number_eqb x y
      | _, _ => false
      end
  end.

(** Two dicts are equal field for field. *)
Fixpoint fields_eq (r r' : pydict) : bool :=
  match r, r' with
  | [], [] => true
  | (k, x) :: l, (k', y) :: l' => String.eqb k k' && py_eq x y && fields_eq l l'
  | _, _ => false
  end.

(** ** Texts *)

Fixpoint contains (c : ascii) (s : string) : bool :=
  match s with
  | EmptyString => false
  | String c' s' => Ascii.eqb c c' || contains c s'
  end.

Definition is_alpha (c : ascii) : bool :=
  let n := nat_of_ascii c in
  ((65 <=? n) && (n <=? 90) || (97 <=? n) && (n <=? 122))%nat.

Definition is_digit (c : ascii) : bool :=
  let n := nat_of_ascii c in ((48 <=? n) && (n <=? 57))%nat.

(** C0 controls and the space, which a URL parser strips. *)
Definition is_c0_or_space (c : ascii) : bool := (nat_of_ascii c <=? 32)%nat.

Fixpoint lstrip (s : string) : string :=
  match s with
  | String c s' => if is_c0_or_space c then lstrip s' else s
  | EmptyString => EmptyString
  end.

Fixpoint scheme_rest (s : string) : bool :=
  match s with
  | EmptyString => false
  | String c s' =>
      if Ascii.eqb c ":" then true
      else if is_alpha c || is_digit c || Ascii.eqb c "+" || Ascii.eqb c "-"
              || Ascii.eqb c "."
           then scheme_rest s'
           else false
  end.

(** Tabs and line breaks, which a URL parser drops wherever they are. *)
Definition is_tab_or_newline (c : ascii) : bool :=
  let n := nat_of_ascii c in ((n =? 9) || (n =? 10) || (n =? 13))%nat.

Fixpoint drop_tab_newline (s : string) : string :=
  match s with
  | String c s' =>
      if is_tab_or_newline c then drop_tab_newline s'
      else String c (drop_tab_newline s')
  | EmptyString => EmptyString
  end.

(** The text starts with a URL scheme: once tabs, line breaks and the leading
    controls and spaces are dropped, a letter, then letters, digits, [+], [-]
    or [.], then a colon. *)
Definition has_scheme (s : string) : bool :=
  match lstrip (drop_tab_newline s) with
  | String c s' => is_alpha c && scheme_rest s'
  | EmptyString => false
  end.

(** The scheme of a URL in serialized form: what stands before the colon. *)
Fixpoint scheme_of (u : string) : string :=
  match u with
  | EmptyString => EmptyString
  | String c u' => if Ascii.eqb c ":" then EmptyString else String c (scheme_of u')
  end.

(** The number of bytes of a str in UTF-8: a character above 127 takes two. *)
Fixpoint utf8_length (s : string) : nat :=
  match s with
  | EmptyString => 0%nat
  | String c s' => ((if (nat_of_ascii c <? 128)%nat then 1 else 2) + utf8_length s')%nat
  end.

(** [c.lower()] on ASCII *)
Definition ascii_lower (c : ascii) : ascii :=
  let n := nat_of_ascii c in
  if ((65 <=? n) && (n <=? 90))%nat then ascii_of_nat (n + 32) else c.

Fixpoint lower (s : string) : string :=
  match s with
  | EmptyString => EmptyString
  | String c s' => String (ascii_lower c) (lower s')
  end.

(** ** The third-party parsers *)

Class Library := {
  (** [email_validator.validate_email(s).normalized] for a text with an
      at-sign, [None] when it raises *)
  email_validator : string -> option string;
  (** the URL parser on a text that starts with a scheme: the URL in
      serialized form, [None] when the text is no URL *)
  url_parser : string -> option string;
  (** lax conversion to float of a value that is neither a float nor an int *)
  lax_float : pyval -> option spec_float;
  (** lax conversion to datetime of a str or a number *)
  lax_datetime : pyval -> option datetime
}.

(** ** Validation errors *)

Inductive loc_item := LKey (k : string) | LIndex (i : nat).

Inductive error_kind :=
| missing
| string_type | string_too_short (min_length : nat) | string_too_long (max_length : nat)
| value_error (* EmailStr *)
| url_type | url_too_long (max_length : nat) | url_parsing | url_scheme
| literal_error (expected : list string)
| float_type | float_parsing
| greater_than_equal (ge : Z) | less_than_equal (le : Z)
| bool_type | bool_parsing
| datetime_type | datetime_parsing | datetime_from_date_parsing
| list_type | dict_type.

(** One line of a [ValidationError]: where, and what was violated. *)
Record error := mk_error { loc : list loc_item; kind : error_kind }.

Inductive result (A : Type) :=
| Ok (a : A)
| ValidationError (errors : list error).
Arguments Ok {A} a.
Arguments ValidationError {A} errors.

Definition fail {A} (k : error_kind) : result A :=
  ValidationError [mk_error [] k].

Definition at_loc (i : loc_item) (e : error) : error :=
  mk_error (i :: loc e) (kind e).

(** ** Field declarations *)

Inductive ftype :=
| TStr (min_length max_length : option nat)   (* str, Field(min_length=, max_length=) *)
| TEmailStr                                    (* EmailStr *)
| THttpUrl                                     (* HttpUrl *)
| TLiteral (choices : list string)             (* Literal[...] *)
| TFloat (ge le : option Z)                    (* float, Field(ge=, le=) *)
| TBool                                        (* bool *)
| TDatetime                                    (* datetime *)
| TOptional (t : ftype)                        (* Optional[t] *)
| TList (t : ftype)                            (* List[t] *)
| TDict (t : ftype)                            (* Dict[str, t] *)
| TAnyDict.                                    (* dict *)

Inductive factory := factory_dict | factory_list.

Definition call (f : factory) : pyval :=
  match f with
  | factory_dict => PDict []
  | factory_list => PList []
  end.

Inductive default :=
| Required                          (* no default, or Field(...) *)
| Default (v : pyval)               (* = v, or Field(v) *)
| DefaultFactory (f : factory).     (* Field(default_factory=f) *)

Record field := mk_field { fname : string; ftyp : ftype; fdefault : default }.

Record model := mk_model { mname : string; fields : list field }.

(** A model instance: its class and its [__dict__], in declaration order. *)
Record instance := mk_instance { cls : string; attrs : pydict }.

(** ** BaseModel: validation *)

(** Two outcomes are combined as pydantic combines those of two fields: the
    errors of both are reported. *)
Definition both {A B C} (f : A -> B -> C) (a : result A) (b : result B) : result C :=
  match a, b with
  | Ok x, Ok y => Ok (f x y)
  | Ok _, ValidationError es => ValidationError es
  | ValidationError es, Ok _ => ValidationError es
  | ValidationError es, ValidationError es' => ValidationError (es ++ es')
  end.

Definition under {A} (i : loc_item) (a : result A) : result A :=
  match a with
  | Ok x => Ok x
  | ValidationError es => ValidationError (map (at_loc i) es)
  end.

Definition rmap {A B} (f : A -> B) (a : result A) : result B :=
  match a with
  | Ok x => Ok (f x)
  | ValidationError es => ValidationError es
  end.

Section Validation.
Context {L : Library}.

(** str with [min_length] and [max_length]: the length is counted in
    characters, the lower bound is checked first. *)
Definition check_length (min_length max_length : option nat) (s : string)
  : result pyval :=
  let n := String.length s in
  match min_length with
  | Some a => if (n <? a)%nat then fail (string_too_short a) else
      match max_length with
      | Some b => if (b <? n)%nat then fail (string_too_long b) else Ok (PStr s)
      | None => Ok (PStr s)
      end
  | None =>
      match max_length with
      | Some b => if (b <? n)%nat then fail (string_too_long b) else Ok (PStr s)
      | None => Ok (PStr s)
      end
  end.

(** The float a value stands for: a float is taken as it is, an int is
    converted, anything else goes through the lax conversion. *)
Definition as_float (v : pyval) : result spec_float :=
  match v with
  | PFloat f => Ok f
  | PInt z =>
      match Float64.int_as_float z with
      | Some f => Ok f
      | None => fail float_type
      end
  | PStr _ =>
      match lax_float v with
      | Some f => Ok f
      | None => fail float_parsing
      end
  | _ =>
      match lax_float v with
      | Some f => Ok f
      | None => fail float_type
      end
  end.

(** The bounds of a float are checked as pydantic-core writes them, [le]
    before [ge], each by a comparison that must hold: [x <= le], then
    [ge <= x], on binary64 values.  No comparison holds of a NaN, so a NaN
    fails the first bound there is. *)
Definition check_bounds (ge le : option Z) (x : spec_float) : result pyval :=
  match le with
  | Some b =>
      if SFleb x (Float64.Z2SF b) then
        match ge with
        | Some a => if SFleb (Float64.Z2SF a) x then Ok (PFloat x)
                    else fail (greater_than_equal a)
        | None => Ok (PFloat x)
        end
      else fail (less_than_equal b)
  | None =>
      match ge with
      | Some a => if SFleb (Float64.Z2SF a) x then Ok (PFloat x)
                  else fail (greater_than_equal a)
      | None => Ok (PFloat x)
      end
  end.

(** [pydantic.networks.validate_email], which [EmailStr] calls.  The e-mail
    validator splits a text at its at-sign and raises EmailSyntaxError when
    there is none, whatever else the text holds; what it does with a text
    that has one is the [email_validator] of the library. *)
Definition validate_email (s : string) : option string :=
  if contains "@" s then email_validator s else None.

(** The URL a text stands for.  The parser follows the URL standard: it
    reads a scheme first, and a text that does not start with one can only
    be a relative reference; an [HttpUrl] is parsed without a base URL, so
    such a text is no URL.  What the parser does with a text that starts
    with a scheme is the [url_parser] of the library. *)
Definition parse_url (s : string) : option string :=
  if has_scheme s then url_parser s else None.

(** An [HttpUrl] from a str: the length is checked first, on the text as
    given and against 2083; the text is parsed; the scheme of the URL must be
    [http] or [https]. *)
Definition http_url (s : string) : result string :=
  if (2083 <? utf8_length s)%nat then fail (url_too_long 2083)
  else match parse_url s with
       | Some u =>
           if existsb (String.eqb (scheme_of u)) ["http"; "https"] then Ok u
           else fail url_scheme
       | None => fail url_parsing
       end.

(** The URL of a text that is accepted. *)
Definition parse_http_url (s : string) : option string :=
  match http_url s with
  | Ok u => Some u
  | ValidationError _ => None
  end.

(** Lax conversions to bool, as pydantic-core makes them: of a str, compared
    without case with the twelve words it knows; of an int, which must be 0
    or 1. *)
Definition str_as_bool (s : string) : option bool :=
  let t := lower s in
  if existsb (String.eqb t) ["0"; "off"; "f"; "false"; "n"; "no"] then Some false
  else if existsb (String.eqb t) ["1"; "on"; "t"; "true"; "y"; "yes"] then Some true
  else None.

Definition int_as_bool (z : Z) : result pyval :=
  if z =? 0 then Ok (PBool false)
  else if z =? 1 then Ok (PBool true)
  else fail bool_parsing.

(** The items of a list, each under its index. *)
Fixpoint validate_items (vt : pyval -> result pyval) (i : nat) (l : list pyval)
  : result (list pyval) :=
  match l with
  | [] => Ok []
  | x :: l' => both cons (under (LIndex i) (vt x)) (validate_items vt (S i) l')
  end.

(** The values of a dict, each under its key. *)
Fixpoint validate_entries (vt : pyval -> result pyval) (kvs : list (string * pyval))
  : result (list (string * pyval)) :=
  match kvs with
  | [] => Ok []
  | (k, x) :: kvs' =>
      both cons (rmap (pair k) (under (LKey k) (vt x))) (validate_entries vt kvs')
  end.

(** The validator pydantic builds for an annotation. *)
Fixpoint validate_value (t : ftype) (v : pyval) : result pyval :=
  match t with
  | TStr min_length max_length =>
      match v with
      | PStr s => check_length min_length max_length s
      | _ => fail string_type
      end
  | TEmailStr =>
      match v with
      | PStr s =>
          match validate_email s with
          | Some s' => Ok (PStr s')
          | None => fail value_error
          end
      | _ => fail string_type
      end
  | THttpUrl =>
      match v with
      | PStr s => rmap PUrl (http_url s)
      | PUrl u => Ok (PUrl u)
      | _ => fail url_type
      end
  | TLiteral choices =>
      match v with
      | PStr s =>
          if existsb (String.eqb s) choices then Ok (PStr s)
          else fail (literal_error choices)
      | _ => fail (literal_error choices)
      end
  | TFloat ge le =>
      match as_float v with
      | Ok x => check_bounds ge le x
      | ValidationError es => ValidationError es
      end
  | TBool =>
      match v with
      | PBool b => Ok (PBool b)
      | PStr s =>
          match str_as_bool s with
          | Some b => Ok (PBool b)
          | None => fail bool_parsing
          end
      | PInt z =>
          if (- 2 ^ 63 <=? z) && (z <? 2 ^ 63) then int_as_bool z
          else fail bool_type
      | PFloat x =>
          match Float64.float_as_int x with
          | Some z => int_as_bool z
          | None => fail bool_type
          end
      | _ => fail bool_type
      end
  | TDatetime =>
      match v with
      | PDatetime d => Ok (PDatetime d)
      | PStr _ =>
          match lax_datetime v with
          | Some d => Ok (PDatetime d)
          | None => fail datetime_from_date_parsing
          end
      | PInt _ | PFloat _ =>
          match lax_datetime v with
          | Some d => Ok (PDatetime d)
          | None => fail datetime_parsing
          end
      | _ => fail datetime_type
      end
  | TOptional t' =>
      match v with
      | PNone => Ok PNone
      | _ => validate_value t' v
      end
  | TList t' =>
      match v with
      | PList l => rmap PList (validate_items (validate_value t') 0 l)
      | _ => fail list_type
      end
  | TDict t' =>
      match v with
      | PDict kvs => rmap PDict (validate_entries (validate_value t') kvs)
      | _ => fail dict_type
      end
  | TAnyDict =>
      match v with
      | PDict kvs => Ok (PDict kvs)
      | _ => fail dict_type
      end
  end.

(** One field of a model: the value given under its name is validated; when
    the key is absent the default is taken as it is, and a field without
    default is reported missing. *)
Definition validate_field (d : pydict) (f : field) : result pyval :=
  match dict_get (fname f) d with
  | Some v => under (LKey (fname f)) (validate_value (ftyp f) v)
  | None =>
      match fdefault f with
      | Required => ValidationError [mk_error [LKey (fname f)] missing]
      | Default v => Ok v
      | DefaultFactory g => Ok (call g)
      end
  end.

(** All fields, in declaration order; keys that name no field are ignored. *)
Fixpoint validate_fields (fs : list field) (d : pydict) : result pydict :=
  match fs with
  | [] => Ok []
  | f :: fs' =>
      both cons (rmap (pair (fname f)) (validate_field d f)) (validate_fields fs' d)
  end.

(** [M.model_validate(d)], the constructor of [M] called on the keys of [d] *)
Definition model_validate (m : model) (d : pydict) : result instance :=
  rmap (mk_instance (mname m)) (validate_fields (fields m) d).

End Validation.

(** ** BaseModel: serialization and equality *)

(** [x.model_dump()]: the fields of the instance as a dict.  In python mode
    the values are handed out as the instance holds them. *)
Definition model_dump (x : instance) : pydict := attrs x.

(** [x == y] on instances of BaseModel: same class, equal fields. *)
Definition instance_eq (x y : instance) : bool :=
  String.eqb (cls x) (cls y) && fields_eq (attrs x) (attrs y).

(** [x.f] *)
Definition getattr (x : instance) (f : string) : option pyval := dict_get f (attrs x).

(** ** The models of schemas.py *)

Definition User : model := mk_model "User" [
  mk_field "name" (TStr (Some 2%nat) (Some 120%nat)) Required;
  mk_field "email" TEmailStr Required;
  mk_field "hashed_password" (TStr (Some 60%nat) (Some 200%nat)) Required;
  mk_field "role" (TLiteral ["user"; "admin"]) (Default (PStr "user"));
  mk_field "avatar_url" (TOptional THttpUrl) (Default PNone);
  mk_field "is_active" TBool (Default (PBool true))
].

Definition Ebook : model := mk_model "Ebook" [
  mk_field "title" (TStr (Some 1%nat) (Some 200%nat)) Required;
  mk_field "author" (TStr (Some 1%nat) (Some 120%nat)) Required;
  mk_field "description" (TOptional (TStr None (Some 5000%nat))) (Default PNone);
  mk_field "price" (TFloat (Some 0) None) Required;
  mk_field "currency" (TLiteral ["INR"; "USD"]) (Default (PStr "INR"));
  mk_field "cover_url" (TOptional THttpUrl) (Default PNone);
  mk_field "file_urls" (TDict THttpUrl) (DefaultFactory factory_dict);
  mk_field "categories" (TList (TStr None None)) (DefaultFactory factory_list);
  mk_field "published" TBool (Default (PBool true));
  mk_field "created_by" (TOptional (TStr None None)) (Default PNone)
].

Definition Purchase : model := mk_model "Purchase" [
  mk_field "user_id" (TStr None None) Required;
  mk_field "ebook_id" (TStr None None) Required;
  mk_field "amount" (TFloat (Some 0) None) Required;
  mk_field "currency" (TLiteral ["INR"; "USD"]) (Default (PStr "INR"));
  mk_field "status" (TLiteral ["created"; "paid"; "failed"; "refunded"])
           (Default (PStr "created"));
  mk_field "razorpay_order_id" (TOptional (TStr None None)) (Default PNone);
  mk_field "razorpay_payment_id" (TOptional (TStr None None)) (Default PNone);
  mk_field "razorpay_signature" (TOptional (TStr None None)) (Default PNone)
].

Definition LibraryItem : model := mk_model "LibraryItem" [
  mk_field "user_id" (TStr None None) Required;
  mk_field "ebook_id" (TStr None None) Required;
  mk_field "last_read_at" (TOptional TDatetime) (Default PNone);
  mk_field "progress" (TFloat (Some 0) (Some 100)) (Default (PInt 0))
].

Definition SchemaInfo : model := mk_model "SchemaInfo" [
  mk_field "name" (TStr None None) Required;
  mk_field "schema" TAnyDict Required
].

Definition models : list model := [User; Ebook; Purchase; LibraryItem].

(** ** What is assumed of the e-mail validator *)

Section Laws.
Context (L : Library).

(** The normalized form of an address is an address, already normalized. *)
Definition email_normal : Prop :=
  forall s s', validate_email s = Some s' -> validate_email s' = Some s'.

End Laws.

(** A library that refuses nothing of what it is given: an address and a
    URL are kept as they are written; no text is read as a float or as a
    datetime. *)
Module Plain.

Definition library : Library := {|
  email_validator := fun s => Some s;
  url_parser := fun s => Some s;
  lax_float := fun _ => None;
  lax_datetime := fun _ => None
|}.

End Plain.

(** ** What a declaration asks of a value *)

Section Meaning.
Context {L : Library}.

Definition length_within (min_length max_length : option nat) (s : string) : bool :=
  match min_length with Some a => (a <=? String.length s)%nat | None => true end
  && match max_length with Some b => (String.length s <=? b)%nat | None => true end.

(** The number a value is, as a float: a float that is not a NaN, or an
    int in the range of float. *)
Definition number_of (v : pyval) : option spec_float :=
  match v with
  | PFloat x => if Float64.is_nan x then None else Some x
  | PInt z => Float64.int_as_float z
  | _ => None
  end.

(** [ge <= x <= le], as Python evaluates it on floats. *)
Definition within (ge le : option Z) (x : spec_float) : bool :=
  match ge with Some a => SFleb (Float64.Z2SF a) x | None => true end
  && match le with Some b => SFleb x (Float64.Z2SF b) | None => true end.

(** [satisfies t v]: the value [v] meets the declaration [t]. *)
Fixpoint satisfies (t : ftype) (v : pyval) : bool :=
  match t with
  | TStr min_length max_length =>
      match v with PStr s => length_within min_length max_length s | _ => false end
  | TEmailStr =>
      match v with
      | PStr s => match validate_email s with Some _ => true | None => false end
      | _ => false
      end
  | THttpUrl =>
      match v with
      | PUrl _ => true
      | PStr s => match parse_http_url s with Some _ => true | None => false end
      | _ => false
      end
  | TLiteral choices =>
      match v with PStr s => existsb (String.eqb s) choices | _ => false end
  | TFloat ge le =>
      match number_of v with
      | Some x => within ge le x
      | None => false
      end
  | TBool => match v with PBool _ => true | _ => false end
  | TDatetime => match v with PDatetime _ => true | _ => false end
  | TOptional t' => match v with PNone => true | _ => satisfies t' v end
  | TList t' => match v with PList l => forallb (satisfies t') l | _ => false end
  | TDict t' =>
      match v with
      | PDict kvs => forallb (fun kv => satisfies t' (snd kv)) kvs
      | _ => false
      end
  | TAnyDict => match v with PDict _ => true | _ => false end
  end.

(** Every float of the declaration has a bound. *)
Fixpoint floats_bounded (t : ftype) : bool :=
  match t with
  | TFloat None None => false
  | TOptional t' | TList t' | TDict t' => floats_bounded t'
  | _ => true
  end.

(** A document meets a model: every key that names a field has a value the
    field accepts, and no field without default is left out. *)
Definition field_given (d : pydict) (f : field) : bool :=
  match dict_get (fname f) d with
  | Some v => satisfies (ftyp f) v
  | None => match fdefault f with Required => false | _ => true end
  end.

Definition document_ok (m : model) (d : pydict) : bool :=
  forallb (field_given d) (fields m).

(** An instance meets its model: it has the fields of the model, in order,
    each with a value the field accepts. *)
Fixpoint attrs_ok (fs : list field) (r : pydict) : bool :=
  match fs, r with
  | [], [] => true
  | f :: fs', (k, v) :: r' =>
      String.eqb k (fname f) && satisfies (ftyp f) v && attrs_ok fs' r'
  | _, _ => false
  end.

Definition instance_ok (m : model) (x : instance) : bool :=
  String.eqb (cls x) (mname m) && attrs_ok (fields m) (attrs x).

(** An error names a field of the model. *)
Definition names_field (m : model) (e : error) : bool :=
  match loc e with
  | LKey k :: _ => existsb (fun f => String.eqb k (fname f)) (fields m)
  | _ => false
  end.

(** The fields other than [k] are valid in [d]. *)
Definition others_valid (m : model) (k : string) (d : pydict) : Prop :=
  forall f, In f (fields m) -> fname f <> k ->
            exists v, validate_field d f = Ok v.

End Meaning.

(** The declaration of the field [k] of a model. *)
Definition field_of (m : model) (k : string) : option field :=
  find (fun f => String.eqb k (fname f)) (fields m).

(** The declaration has no bare [dict] in it. *)
Fixpoint plain (t : ftype) : bool :=
  match t with
  | TAnyDict => false
  | TOptional t' | TList t' | TDict t' => plain t'
  | _ => true
  end.

(** No object that can be changed in place is shared as a default. *)
Definition immutable (v : pyval) : bool :=
  match v with
  | PNone | PBool _ | PInt _ | PFloat _ | PStr _ => true
  | _ => false
  end.

Definition default_unshared (f : field) : bool :=
  match fdefault f with
  | Default v => immutable v
  | Required | DefaultFactory _ => true
  end.

Section Outcomes.
Context {L : Library}.

Definition is_ok {A} (a : result A) : bool :=
  match a with Ok _ => true | ValidationError _ => false end.

(** [others_valid], decided. *)
Definition others_validb (m : model) (k : string) (d : pydict) : bool :=
  forallb (fun f => String.eqb (fname f) k || is_ok (validate_field d f)) (fields m).

(** The document is accepted, and the instance has [v] as its field [k]. *)
Definition accepted_with (m : model) (d : pydict) (k : string) (v : pyval) : Prop :=
  exists x, model_validate m d = Ok x /\ getattr x k = Some v.

(** The document is rejected, with the error [e] among those reported. *)
Definition rejected_with (m : model) (d : pydict) (e : error) : Prop :=
  exists es, model_validate m d = ValidationError es /\ In e es.

(** The document is rejected, with an error located at the field [k]. *)
Definition rejected_at (m : model) (d : pydict) (k : string) : Prop :=
  exists es, model_validate m d = ValidationError es
             /\ exists e, In e es /\ loc e = [LKey k].

(** The value a field takes when it is left out. *)
Definition default_value (f : field) : option pyval :=
  match fdefault f with
  | Required => None
  | Default v => Some v
  | DefaultFactory g => Some (call g)
  end.

(** The defaults of a model meet its declarations. *)
Definition default_ok (f : field) : bool :=
  match default_value f with
  | Some v => satisfies (ftyp f) v
  | None => true
  end.

(** A default, validated, is equal to itself. *)
Definition default_stable (f : field) : bool :=
  match default_value f with
  | Some v =>
      match validate_value (ftyp f) v with
      | Ok v' => py_eq v' v
      | ValidationError _ => false
      end
  | None => true
  end.

(** *** What an error says *)

(** [at_path t v p t' v']: in a value [v] declared [t], the path [p] leads to
    the value [v'], declared [t']. *)
Inductive at_path : ftype -> pyval -> list loc_item -> ftype -> pyval -> Prop :=
| at_here t v : at_path t v [] t v
| at_some t v p t' v' :
    v <> PNone -> at_path t v p t' v' -> at_path (TOptional t) v p t' v'
| at_item t l i x p t' v' :
    nth_error l i = Some x -> at_path t x p t' v' ->
    at_path (TList t) (PList l) (LIndex i :: p) t' v'
| at_entry t kvs k x p t' v' :
    In (k, x) kvs -> at_path t x p t' v' ->
    at_path (TDict t) (PDict kvs) (LKey k :: p) t' v'.

(** [violated k t v]: the constraint an error of kind [k] names is one the
    declaration [t] makes, and the value [v] does not meet it. *)
Definition violated (k : error_kind) (t : ftype) (v : pyval) : Prop :=
  match k with
  | missing => False
  | string_type =>
      ((exists a b, t = TStr a b) \/ t = TEmailStr)
      /\ match v with PStr _ => False | _ => True end
  | string_too_short n =>
      exists b s, t = TStr (Some n) b /\ v = PStr s /\ (String.length s < n)%nat
  | string_too_long n =>
      exists a s, t = TStr a (Some n) /\ v = PStr s /\ (n < String.length s)%nat
  | value_error =>
      t = TEmailStr /\ exists s, v = PStr s /\ validate_email s = None
  | url_type =>
      t = THttpUrl /\ match v with PStr _ | PUrl _ => False | _ => True end
  | url_too_long n =>
      t = THttpUrl /\ n = 2083%nat /\ exists s, v = PStr s /\ (n < utf8_length s)%nat
  | url_parsing =>
      t = THttpUrl /\ exists s, v = PStr s /\ parse_url s = None
  | url_scheme =>
      t = THttpUrl
      /\ exists s u, v = PStr s /\ parse_url s = Some u
                     /\ scheme_of u <> "http" /\ scheme_of u <> "https"
  | literal_error l =>
      t = TLiteral l /\ forall s, v = PStr s -> ~ In s l
  | float_type =>
      (exists ge le, t = TFloat ge le)
      /\ number_of v = None
      /\ match v with PFloat _ | PStr _ => False | _ => True end
  | float_parsing =>
      (exists ge le, t = TFloat ge le) /\ exists s, v = PStr s /\ lax_float v = None
  | greater_than_equal a =>
      exists le x, t = TFloat (Some a) le /\ as_float v = Ok x
                   /\ SFleb (Float64.Z2SF a) x = false
  | less_than_equal b =>
      exists ge x, t = TFloat ge (Some b) /\ as_float v = Ok x
                   /\ SFleb x (Float64.Z2SF b) = false
  | bool_type | bool_parsing =>
      t = TBool /\ match v with PBool _ => False | _ => True end
  | datetime_type | datetime_parsing | datetime_from_date_parsing =>
      t = TDatetime /\ match v with PDatetime _ => False | _ => True end
  | list_type =>
      (exists t', t = TList t') /\ match v with PList _ => False | _ => True end
  | dict_type =>
      ((exists t', t = TDict t') \/ t = TAnyDict)
      /\ match v with PDict _ => False | _ => True end
  end.

(** The error [e] identifies an offending field of the document and the
    constraint violated: a field without default that is left out, reported
    missing; or a field that is given, with a path into its value to a value
    that does not meet the constraint the kind of the error names. *)
Definition reports (m : model) (d : pydict) (e : error) : Prop :=
  exists f, In f (fields m)
    /\ match dict_get (fname f) d with
       | None => fdefault f = Required /\ e = mk_error [LKey (fname f)] missing
       | Some v =>
           exists p t' v', loc e = LKey (fname f) :: p
                           /\ at_path (ftyp f) v p t' v'
                           /\ violated (kind e) t' v'
       end.

(** All or nothing: an instance that meets the model; or a ValidationError
    with at least one error, each identifying an offending field and the
    constraint violated, and no instance. *)
Definition all_or_nothing (m : model) (d : pydict) : Prop :=
  (exists x, model_validate m d = Ok x /\ instance_ok m x = true)
  \/ (exists es, model_validate m d = ValidationError es
                 /\ es <> [] /\ forall e, In e es -> reports m d e).

(** *** Round trips *)

(** The value is given in the form an instance holds it: a URL as a URL
    object, an address in normalized form, an int for a float only when the
    float has the value of the int. *)
Fixpoint held (t : ftype) (v : pyval) : bool :=
  match t with
  | TEmailStr =>
      match v with
      | PStr s =>
          match validate_email s with Some s' => String.eqb s' s | None => false end
      | _ => false
      end
  | THttpUrl => match v with PUrl _ => true | _ => false end
  | TFloat _ _ =>
      match v with
      | PInt z => number_eqb (NFloat (Float64.Z2SF z)) (NInt z)
      | _ => true
      end
  | TOptional t' => match v with PNone => true | _ => held t' v end
  | TList t' => match v with PList l => forallb (held t') l | _ => true end
  | TDict t' =>
      match v with
      | PDict kvs => forallb (fun kv => held t' (snd kv)) kvs
      | _ => true
      end
  | _ => true
  end.

(** [model_dump] gives back, equal under [==], the fields of the document
    that satisfy [keeps]. *)
Definition gives_back (keeps : ftype -> pyval -> bool) (m : model) (d : pydict)
    (x : instance) : Prop :=
  forall f v, In f (fields m) -> dict_get (fname f) d = Some v ->
              keeps (ftyp f) v = true ->
              exists w, dict_get (fname f) (model_dump x) = Some w
                        /\ py_eq w v = true.

(** A round trip: the document is accepted; [model_dump] gives back the
    fields that satisfy [keeps]; what [model_dump] gives is accepted too, and
    the two instances are equal. *)
Definition round_trips_on (keeps : ftype -> pyval -> bool) (m : model) (d : pydict)
    : Prop :=
  exists x, model_validate m d = Ok x
            /\ gives_back keeps m d x
            /\ exists y, model_validate m (model_dump x) = Ok y
                         /\ instance_eq y x = true.

(** The round trip the fields given in the form an instance holds go
    through, and the round trip that is the identity on all the fields
    given. *)
Definition round_trips (m : model) (d : pydict) : Prop := round_trips_on held m d.

Definition round_trips_identically (m : model) (d : pydict) : Prop :=
  round_trips_on (fun _ _ => true) m d.

End Outcomes.

(** The order between a Python number and an integer. *)
Definition num_cmpZ (v : pyval) (k : Z) : option comparison :=
  match v with
  | PInt z => Some (z ?= k)
  | PFloat x => Float64.cmpZ x k
  | _ => None
  end.

(** The outcome of a comparison with [k] says [k <= v], says [v <= k]. *)
Definition nonneg (c : option comparison) : Prop := c = Some Eq \/ c = Some Gt.
Definition at_most (c : option comparison) : Prop := c = Some Lt \/ c = Some Eq.

(** The floats of a value are binary64 data. *)
Definition well_formed (v : pyval) : bool :=
  match v with
  | PFloat x => Float64.valid x
  | _ => true
  end.

(** ** Sample documents *)

Module Sample.

(** A bcrypt hash has 60 characters. *)
Definition hash : string := "$2b$12$abcdefghijklmnopqrstuvwxyzABCDEFGHIJKLMNOPQRSTUVWXYZ0".

Definition user : pydict :=
  [("name", PStr "Ada"); ("email", PStr "ada@x.com"); ("hashed_password", PStr hash)].

Definition ebook : pydict :=
  [("title", PStr "Notes"); ("author", PStr "Ada"); ("price", PFloat (Float64.Z2SF 199))].

(** [{user_id: "u1", ebook_id: "e1", amount: 199.0}] *)
Definition purchase : pydict :=
  [("user_id", PStr "u1"); ("ebook_id", PStr "e1"); ("amount", PFloat (Float64.Z2SF 199))].

Definition library_item : pydict :=
  [("user_id", PStr "u1"); ("ebook_id", PStr "e1")].

(** An Ebook whose price is [float("nan")]. *)
Definition nan_price : pydict :=
  [("title", PStr "Notes"); ("author", PStr "Ada"); ("price", PFloat S754_nan)].

(** The four documents in one; a model ignores the keys it does not declare. *)
Definition all : pydict := user ++ ebook ++ purchase.

Definition status_tokens : list string := ["created"; "paid"; "failed"; "refunded"].

(** A User whose avatar is given as a text. *)
Definition user_with_avatar : pydict :=
  dict_set "avatar_url" (PStr "https://x.com/a.png") user.

End Sample.

(** ** Further notions *)

(** The fields a document must give. *)
Definition is_required (f : field) : bool :=
  match fdefault f with Required => true | _ => false end.

Definition required_fields (m : model) : list string :=
  map fname (filter is_required (fields m)).

(** All five models. *)
Definition all_models : list model := SchemaInfo :: models.

(** The three fields the payment gateway fills in. *)
Definition gateway_fields : list string :=
  ["razorpay_order_id"; "razorpay_payment_id"; "razorpay_signature"].

(** The fields declared [Optional[str] = None], without a bound. *)
Definition optional_str_fields : list (model * string) :=
  (Ebook, "created_by") :: map (pair Purchase) gateway_fields.

Definition is_str (v : pyval) : bool :=
  match v with PStr _ => true | _ => false end.

Definition is_url (v : pyval) : bool :=
  match v with PUrl _ => true | _ => false end.


(** ** Objects and the store *)

(** A value as Python holds it: immutable data, or a reference to a list or
    a dict, an object that can be changed in place and that two values can
    share. *)
Inductive hval :=
| HNone
| HBool (b : bool)
| HInt (z : Z)
| HFloat (f : spec_float)
| HStr (s : string)
| HDatetime (d : datetime)
| HUrl (u : string)
| HRef (r : nat).

Inductive obj :=
| OList (items : list hval)
| ODict (entries : list (string * hval)).

(** The store: the object at address [r] is the [r]-th one. *)
Definition heap := list obj.

(** A new object, at the first free address. *)
Definition alloc (h : heap) (o : obj) : heap * hval :=
  (h ++ [o], HRef (List.length h)).

(** The keyword arguments of a constructor call. *)
Definition hdoc := list (string * hval).

Fixpoint hdict_get (k : string) (d : hdoc) : option hval :=
  match d with
  | [] => None
  | (k', v) :: d' => if String.eqb k k' then Some v else hdict_get k d'
  end.

Record hinstance := mk_hinstance { hcls : string; hattrs : hdoc }.

(** What the validator of a scalar sees of a value: the datum, or that it is
    a list or a dict. *)
Definition shallow (h : heap) (v : hval) : pyval :=
  match v with
  | HNone => PNone
  | HBool b => PBool b
  | HInt z => PInt z
  | HFloat f => PFloat f
  | HStr s => PStr s
  | HDatetime d => PDatetime d
  | HUrl u => PUrl u
  | HRef r =>
      match nth_error h r with
      | Some (OList _) => PList []
      | Some (ODict _) => PDict []
      | None => PNone
      end
  end.

(** A value put in the store: data as they are, a list or a dict as a new
    object, its items first. *)
Fixpoint store (h : heap) (v : pyval) : heap * hval :=
  match v with
  | PNone => (h, HNone)
  | PBool b => (h, HBool b)
  | PInt z => (h, HInt z)
  | PFloat f => (h, HFloat f)
  | PStr s => (h, HStr s)
  | PDatetime d => (h, HDatetime d)
  | PUrl u => (h, HUrl u)
  | PList l =>
      let '(h1, l') :=
        (fix go (h : heap) (l : list pyval) : heap * list hval :=
           match l with
           | [] => (h, [])
           | x :: l0 =>
               let '(h1, x') := store h x in
               let '(h2, l') := go h1 l0 in
               (h2, x' :: l')
           end) h l in
      alloc h1 (OList l')
  | PDict kvs =>
      let '(h1, l') :=
        (fix go (h : heap) (l : list (string * pyval)) : heap * list (string * hval) :=
           match l with
           | [] => (h, [])
           | (k, x) :: l0 =>
               let '(h1, x') := store h x in
               let '(h2, l') := go h1 l0 in
               (h2, (k, x') :: l')
           end) h kvs in
      alloc h1 (ODict l')
  end.

Section StoreValidation.
Context {L : Library}.

(** The items of a list, one after the other in the store. *)
Fixpoint hvalidate_items (vt : heap -> hval -> heap * result hval) (i : nat)
    (h : heap) (l : list hval) : heap * result (list hval) :=
  match l with
  | [] => (h, Ok [])
  | x :: l' =>
      let '(h1, r1) := vt h x in
      let '(h2, r2) := hvalidate_items vt (S i) h1 l' in
      (h2, both cons (under (LIndex i) r1) r2)
  end.

Fixpoint hvalidate_entries (vt : heap -> hval -> heap * result hval)
    (h : heap) (kvs : list (string * hval)) : heap * result (list (string * hval)) :=
  match kvs with
  | [] => (h, Ok [])
  | (k, x) :: kvs' =>
      let '(h1, r1) := vt h x in
      let '(h2, r2) := hvalidate_entries vt h1 kvs' in
      (h2, both cons (rmap (pair k) (under (LKey k) r1)) r2)
  end.

(** The validator of an annotation, on the store.  A scalar is validated as
    a value.  A list or a dict is read from the store, its items are
    validated, and the outcome is a new object: the validator writes to no
    object it was given. *)
Fixpoint hvalidate_value (t : ftype) (h : heap) (v : hval) : heap * result hval :=
  match t with
  | TOptional t' =>
      match v with
      | HNone => (h, Ok HNone)
      | _ => hvalidate_value t' h v
      end
  | TList t' =>
      match v with
      | HRef r =>
          match nth_error h r with
          | Some (OList l) =>
              let '(h1, r1) := hvalidate_items (hvalidate_value t') 0 h l in
              match r1 with
              | Ok l' => let '(h2, w) := alloc h1 (OList l') in (h2, Ok w)
              | ValidationError es => (h1, ValidationError es)
              end
          | _ => (h, fail list_type)
          end
      | _ => (h, fail list_type)
      end
  | TDict t' =>
      match v with
      | HRef r =>
          match nth_error h r with
          | Some (ODict kvs) =>
              let '(h1, r1) := hvalidate_entries (hvalidate_value t') h kvs in
              match r1 with
              | Ok kvs' => let '(h2, w) := alloc h1 (ODict kvs') in (h2, Ok w)
              | ValidationError es => (h1, ValidationError es)
              end
          | _ => (h, fail dict_type)
          end
      | _ => (h, fail dict_type)
      end
  | TAnyDict =>
      match v with
      | HRef r =>
          match nth_error h r with
          | Some (ODict kvs) => let '(h1, w) := alloc h (ODict kvs) in (h1, Ok w)
          | _ => (h, fail dict_type)
          end
      | _ => (h, fail dict_type)
      end
  | _ =>
      match validate_value t (shallow h v) with
      | Ok w => let '(h1, w') := store h w in (h1, Ok w')
      | ValidationError es => (h, ValidationError es)
      end
  end.

(** One field: the argument given under its name is validated; when there
    is none, the default is copied to the store, or the factory is called. *)
Definition hvalidate_field (h : heap) (d : hdoc) (f : field) : heap * result hval :=
  match hdict_get (fname f) d with
  | Some v =>
      let '(h1, r) := hvalidate_value (ftyp f) h v in
      (h1, under (LKey (fname f)) r)
  | None =>
      match fdefault f with
      | Required => (h, ValidationError [mk_error [LKey (fname f)] missing])
      | Default v => let '(h1, w) := store h v in (h1, Ok w)
      | DefaultFactory g => let '(h1, w) := store h (call g) in (h1, Ok w)
      end
  end.

Fixpoint hvalidate_fields (fs : list field) (h : heap) (d : hdoc)
  : heap * result hdoc :=
  match fs with
  | [] => (h, Ok [])
  | f :: fs' =>
      let '(h1, r1) := hvalidate_field h d f in
      let '(h2, r2) := hvalidate_fields fs' h1 d in
      (h2, both cons (rmap (pair (fname f)) r1) r2)
  end.

Definition hmodel_validate (m : model) (h : heap) (d : hdoc)
  : heap * result hinstance :=
  let '(h1, r) := hvalidate_fields (fields m) h d in
  (h1, rmap (mk_hinstance (mname m)) r).

(** Validations one after the other, in one store. *)
Fixpoint hvalidate_all (h : heap) (reqs : list (model * hdoc))
  : heap * list (result hinstance) :=
  match reqs with
  | [] => (h, [])
  | (m, d) :: reqs' =>
      let '(h1, r) := hmodel_validate m h d in
      let '(h2, rs) := hvalidate_all h1 reqs' in
      (h2, r :: rs)
  end.

End StoreValidation.

(** *** Reading the store *)

(** The value a declaration sees at a reference: a list or a dict with its
    items read as the declaration says; a bare [dict] with its entries as
    they are. *)
Fixpoint read_as (t : ftype) (h : heap) (v : hval) : pyval :=
  match t with
  | TOptional t' => read_as t' h v
  | TList t' =>
      match v with
      | HRef r =>
          match nth_error h r with
          | Some (OList l) => PList (map (read_as t' h) l)
          | _ => shallow h v
          end
      | _ => shallow h v
      end
  | TDict t' =>
      match v with
      | HRef r =>
          match nth_error h r with
          | Some (ODict kvs) => PDict (map (fun kv => (fst kv, read_as t' h (snd kv))) kvs)
          | _ => shallow h v
          end
      | _ => shallow h v
      end
  | TAnyDict =>
      match v with
      | HRef r =>
          match nth_error h r with
          | Some (ODict kvs) => PDict (map (fun kv => (fst kv, shallow h (snd kv))) kvs)
          | _ => shallow h v
          end
      | _ => shallow h v
      end
  | _ => shallow h v
  end.

(** The document a model reads in keyword arguments. *)
Definition read_document (m : model) (h : heap) (d : hdoc) : pydict :=
  map (fun kv =>
         (fst kv,
          match field_of m (fst kv) with
          | Some f => read_as (ftyp f) h (snd kv)
          | None => shallow h (snd kv)
          end)) d.

Fixpoint read_attrs (fs : list field) (h : heap) (r : hdoc) : pydict :=
  match fs, r with
  | f :: fs', (k, w) :: r' => (k, read_as (ftyp f) h w) :: read_attrs fs' h r'
  | _, _ => []
  end.

Definition read_instance (m : model) (h : heap) (x : hinstance) : instance :=
  mk_instance (hcls x) (read_attrs (fields m) h (hattrs x)).

(** *** Well-formed stores *)

(** A reference points into the store. *)
Definition val_closed (n : nat) (v : hval) : Prop :=
  match v with HRef r => (r < n)%nat | _ => True end.

Definition obj_closed (n : nat) (o : obj) : Prop :=
  match o with
  | OList l => Forall (val_closed n) l
  | ODict kvs => Forall (fun kv => val_closed n (snd kv)) kvs
  end.

Definition wf_heap (h : heap) : Prop :=
  forall r o, nth_error h r = Some o -> obj_closed (List.length h) o.

Definition doc_closed (h : heap) (d : hdoc) : Prop :=
  Forall (fun kv => val_closed (List.length h) (snd kv)) d.

(** The lists and dicts an instance holds as fields were made at or after
    address [n]. *)
Definition made_from (n : nat) (x : hinstance) : Prop :=
  forall k r, In (k, HRef r) (hattrs x) -> (n <= r)%nat.

(** *** Notions for the proofs *)

Definition is_ref (v : hval) : bool :=
  match v with HRef _ => true | _ => false end.

Definition is_data (v : pyval) : bool :=
  match v with PList _ | PDict _ => false | _ => true end.

Definition is_scalar (t : ftype) : bool :=
  match t with
  | TOptional _ | TList _ | TDict _ | TAnyDict => false
  | _ => true
  end.

(** What a validator on the store does, against the validator [pvt] on
    values, read by [rd]: it adds objects to the store and changes none; the
    store stays well formed; its outcome is that of [pvt] on the value read;
    a reference it yields is to an object it made. *)
Definition refines (vt : heap -> hval -> heap * result hval)
    (pvt : pyval -> result pyval) (rd : heap -> hval -> pyval)
    (h : heap) (v : hval) : Prop :=
  exists n, fst (vt h v) = h ++ n /\ wf_heap (h ++ n)
    /\ match snd (vt h v) with
       | Ok w => val_closed (List.length (h ++ n)) w
                 /\ (forall r, w = HRef r -> (List.length h <= r)%nat)
                 /\ pvt (rd h v) = Ok (rd (h ++ n) w)
       | ValidationError es => pvt (rd h v) = ValidationError es
       end.

(** The fields of the document, read in the store, are those of [pd]. *)
Definition represents (fs : list field) (h : heap) (d : hdoc) (pd : pydict) : Prop :=
  forall f, In f fs ->
    dict_get (fname f) pd = option_map (read_as (ftyp f) h) (hdict_get (fname f) d).


(** *** A sample store *)

Module StoreSample.

(** Two objects: the list [["maths", "notes"]] and the dict
    [{"pdf": "https://x.com/n.pdf"}]. *)
Definition store : heap :=
  [OList [HStr "maths"; HStr "notes"]; ODict [("pdf", HStr "https://x.com/n.pdf")]].

(** An Ebook document whose [categories] and [file_urls] are these objects. *)
Definition ebook : hdoc :=
  [("title", HStr "Notes"); ("author", HStr "Ada"); ("price", HFloat (Float64.Z2SF 199));
   ("categories", HRef 0); ("file_urls", HRef 1)].

End StoreSample.

(** * Facts *)

(** ** Binary64: conversion of ints and comparison with the bounds *)

Module Float64Facts.

Lemma digits2_pos_bounds (m : positive) :
  2 ^ (Zpos (digits2_pos m) - 1) <= Zpos m < 2 ^ Zpos (digits2_pos m).
Proof.
  induction m as [p IH | p IH |]; cbn [digits2_pos].
  - rewrite Pos2Z.inj_succ, Z.pow_succ_r by lia.
    replace (Z.succ (Zpos (digits2_pos p)) - 1) with (Z.succ (Zpos (digits2_pos p) - 1)) by lia.
    rewrite Z.pow_succ_r by lia. lia.
  - rewrite Pos2Z.inj_succ, Z.pow_succ_r by lia.
    replace (Z.succ (Zpos (digits2_pos p)) - 1) with (Z.succ (Zpos (digits2_pos p) - 1)) by lia.
    rewrite Z.pow_succ_r by lia. lia.
  - cbn. lia.
Qed.

Lemma iter_xO_value (m d : positive) :
  Zpos (Pos.iter xO m d) = Zpos m * 2 ^ Zpos d.
Proof.
  induction d as [|d IHd] using Pos.peano_ind.
  - cbn. lia.
  - rewrite Pos.iter_succ, Pos2Z.inj_succ, Z.pow_succ_r by lia.
    rewrite Pos2Z.inj_xO, IHd. lia.
Qed.

Lemma iter_xO_digits (m d : positive) :
  digits2_pos (Pos.iter xO m d) = (digits2_pos m + d)%positive.
Proof.
  induction d as [|d IHd] using Pos.peano_ind.
  - cbn. lia.
  - rewrite Pos.iter_succ. cbn [digits2_pos]. rewrite IHd. lia.
Qed.

Lemma shr_1_m mrs : 0 <= shr_m mrs -> shr_m (shr_1 mrs) = shr_m mrs / 2.
Proof.
  destruct mrs as [m r s]; cbn [shr_m]. intros H.
  destruct m as [|p|p]; [reflexivity | | lia].
  destruct p as [p|p|]; cbn [shr_1 shr_m].
  - apply Z.div_unique with (r := 1); lia.
  - apply Z.div_unique with (r := 0); lia.
  - reflexivity.
Qed.

Lemma iter_shr_1_m (p : positive) : forall mrs,
  0 <= shr_m mrs -> shr_m (iter_pos shr_1 p mrs) = shr_m mrs / 2 ^ Zpos p.
Proof.
  induction p as [p IH | p IH |]; intros mrs H; cbn [iter_pos].
  - assert (H1 : 0 <= shr_m (shr_1 mrs)) by (rewrite shr_1_m by exact H; apply Z.div_pos; lia).
    assert (H2 : 0 <= shr_m (iter_pos shr_1 p (shr_1 mrs)))
      by (rewrite IH by exact H1; apply Z.div_pos; lia).
    rewrite IH, IH, shr_1_m by assumption.
    rewrite !Z.div_div by lia.
    f_equal. replace (Z.pos p~1) with (1 + Z.pos p + Z.pos p) by lia.
    rewrite !Z.pow_add_r by lia. change (2 ^ 1) with 2. ring.
  - assert (H2 : 0 <= shr_m (iter_pos shr_1 p mrs))
      by (rewrite IH by exact H; apply Z.div_pos; lia).
    rewrite IH, IH by assumption.
    rewrite Z.div_div by lia.
    f_equal. replace (Z.pos p~0) with (Z.pos p + Z.pos p) by lia.
    rewrite !Z.pow_add_r by lia. ring.
  - rewrite shr_1_m by exact H. reflexivity.
Qed.

Lemma fexp64 e : fexp 53 1024 e = Z.max (e - 53) (-1074).
Proof. reflexivity. Qed.

Lemma shr_record_of_loc_m m l : shr_m (shr_record_of_loc m l) = m.
Proof. destruct l as [|[]]; reflexivity. Qed.

Lemma shr_fexp_pos (p : positive) e l mrs e2 :
  -1074 <= e ->
  shr_fexp 53 1024 (Zpos p) e l = (mrs, e2) ->
  0 < shr_m mrs /\ e2 = Z.max e (fexp 53 1024 (Zpos (digits2_pos p) + e)).
Proof.
  intros He. unfold shr_fexp, shr. cbn [Zdigits2]. rewrite fexp64.
  pose proof (digits2_pos_bounds p) as [Hlo _].
  set (d := Zpos (digits2_pos p)) in *.
  destruct (Z.max (d + e - 53) (-1074) - e) as [|q|q] eqn:E; intros [= <- <-].
  - rewrite shr_record_of_loc_m. lia.
  - split; [|lia].
    rewrite iter_shr_1_m by (rewrite shr_record_of_loc_m; lia).
    rewrite shr_record_of_loc_m.
    apply Z.div_str_pos. split; [apply Z.pow_pos_nonneg; lia|].
    apply Z.le_trans with (2 ^ (d - 1)); [|exact Hlo].
    apply Z.pow_le_mono_r; lia.
  - rewrite shr_record_of_loc_m. lia.
Qed.

Lemma round_nearest_even_pos m l : 0 < m -> 0 < round_nearest_even m l.
Proof.
  intros H. destruct l as [|[]]; cbn [round_nearest_even]; try lia.
  destruct (Z.even m); lia.
Qed.

Lemma binary_round_aux_pos s (p : positive) e :
  -1074 <= e ->
  binary_round_aux 53 1024 s (Zpos p) e loc_Exact = S754_infinity s
  \/ exists m' e', binary_round_aux 53 1024 s (Zpos p) e loc_Exact = S754_finite s m' e'
                   /\ Z.max e (fexp 53 1024 (Zpos (digits2_pos p) + e)) <= e'.
Proof.
  intros He. unfold binary_round_aux.
  destruct (shr_fexp 53 1024 (Zpos p) e loc_Exact) as [mrs1 e1] eqn:E1.
  apply shr_fexp_pos in E1 as [Hm1 He1]; [|exact He].
  pose proof (round_nearest_even_pos (loc_of_shr_record mrs1) Hm1) as Hm2.
  destruct (round_nearest_even (shr_m mrs1) (loc_of_shr_record mrs1)) as [|p2|p2]; try lia.
  destruct (shr_fexp 53 1024 (Zpos p2) e1 loc_Exact) as [mrs3 e3] eqn:E3.
  apply shr_fexp_pos in E3 as [Hm3 He3]; [|lia].
  destruct (shr_m mrs3) as [|p3|p3]; try lia.
  destruct (e3 <=? 1024 - 53); [right | left; reflexivity].
  exists p3, e3. split; [reflexivity | lia].
Qed.

Lemma binary_round_aux_exact s (p : positive) e :
  fexp 53 1024 (Zpos (digits2_pos p) + e) = e -> e <= 971 ->
  binary_round_aux 53 1024 s (Zpos p) e loc_Exact = S754_finite s p e.
Proof.
  intros Hf He. unfold binary_round_aux, shr_fexp, shr. cbn [Zdigits2 shr_record_of_loc].
  rewrite Hf, Z.sub_diag. cbn [shr_m loc_of_shr_record round_nearest_even Zdigits2 shr_record_of_loc].
  rewrite Hf, Z.sub_diag. cbn [shr_m].
  replace (e <=? 1024 - 53) with true by (symmetry; apply Z.leb_le; lia).
  reflexivity.
Qed.

Lemma binary_round_small s (p : positive) :
  Zpos (digits2_pos p) <= 53 ->
  exists m', binary_round 53 1024 s p 0 = S754_finite s m' (Zpos (digits2_pos p) - 53)
             /\ Zpos m' = Zpos p * 2 ^ (53 - Zpos (digits2_pos p))
             /\ Zpos (digits2_pos m') = 53.
Proof.
  intros Hd. unfold binary_round, shl_align. rewrite fexp64.
  set (d := Zpos (digits2_pos p)) in *.
  destruct (Z.max (d + 0 - 53) (-1074) - 0) as [|q|q] eqn:E; try lia.
  - assert (d = 53) by lia. exists p. replace (d - 53) with 0 by lia.
    split; [|split].
    + apply binary_round_aux_exact; [rewrite fexp64; fold d; lia | lia].
    + replace (53 - d) with 0 by lia. lia.
    + fold d. lia.
  - assert (Hq : Zpos q = 53 - d) by lia.
    exists (Pos.iter xO p q).
    replace (Z.max (d + 0 - 53) (-1074)) with (d - 53) by lia.
    split; [|split].
    + apply binary_round_aux_exact; [|lia].
      rewrite fexp64, iter_xO_digits, Pos2Z.inj_add. fold d. lia.
    + rewrite iter_xO_value, Hq. reflexivity.
    + rewrite iter_xO_digits, Pos2Z.inj_add. fold d. lia.
Qed.

Lemma binary_round_big s (p : positive) :
  53 < Zpos (digits2_pos p) ->
  binary_round 53 1024 s p 0 = S754_infinity s
  \/ exists m' e', binary_round 53 1024 s p 0 = S754_finite s m' e' /\ 1 <= e'.
Proof.
  intros Hd. unfold binary_round, shl_align. rewrite fexp64.
  set (d := Zpos (digits2_pos p)) in *.
  destruct (Z.max (d + 0 - 53) (-1074) - 0) as [|q|q] eqn:E; try lia.
  destruct (@binary_round_aux_pos s p 0 ltac:(lia)) as [H | (m' & e' & H & He)].
  - left. exact H.
  - right. exists m', e'. split; [exact H|]. rewrite fexp64 in He. fold d in He. lia.
Qed.

Lemma SFcompare_antisym x y :
  SFcompare y x = option_map CompOpp (SFcompare x y).
Proof.
  destruct x as [s|s| |s m e], y as [s'|s'| |s' m' e']; cbn;
    try reflexivity; try (destruct s; reflexivity); try (destruct s'; reflexivity);
    try (destruct s, s'; reflexivity).
  destruct s, s'; cbn; try reflexivity;
    rewrite (Z.compare_antisym e' e); destruct (e' ?= e); cbn; try reflexivity;
    change (Pos.compare_cont Eq m' m) with (Pos.compare m' m);
    change (Pos.compare_cont Eq m m') with (Pos.compare m m');
    rewrite (Pos.compare_antisym m m'); try rewrite CompOpp_involutive; reflexivity.
Qed.

Lemma SFcompare_total x y :
  Float64.is_nan x = false -> Float64.is_nan y = false ->
  exists c, SFcompare x y = Some c.
Proof.
  destruct x, y; cbn; intros; try discriminate; eexists; reflexivity.
Qed.

Lemma SFleb_negb_SFltb x y :
  Float64.is_nan x = false -> Float64.is_nan y = false ->
  SFleb x y = negb (SFltb y x).
Proof.
  intros Hx Hy. unfold SFleb, SFltb. rewrite (SFcompare_antisym x y).
  destruct (SFcompare_total x y Hx Hy) as [c ->]. destruct c; reflexivity.
Qed.

Lemma SFcompare_zero x : SFcompare x (S754_zero false) = Float64.cmpZ x 0.
Proof.
  destruct x as [s|s| |s m e]; cbn [SFcompare Float64.cmpZ]; try reflexivity.
  f_equal. pose proof (Z.pow_pos_nonneg 2 e ltac:(lia)) as Hp.
  destruct (0 <=? e) eqn:E; destruct s; cbn [cond_Zopp]; symmetry.
  - apply Z.leb_le in E. apply Z.compare_lt_iff. specialize (Hp E). nia.
  - apply Z.leb_le in E. apply Z.compare_gt_iff. specialize (Hp E). nia.
  - reflexivity.
  - reflexivity.
Qed.

Lemma valid_finite s m e :
  Float64.valid (S754_finite s m e) = true ->
  Z.max (Zpos (digits2_pos m) + e - 53) (-1074) = e /\ e <= 971.
Proof.
  unfold Float64.valid, valid_binary, bounded, canonical_mantissa. rewrite fexp64.
  intros H. apply andb_true_iff in H as [H1 H2].
  apply Z.eqb_eq in H1. apply Z.leb_le in H2. cbn in H2. split; [exact H1 | lia].
Qed.

Lemma compare_cont_Z (a b : positive) :
  Pos.compare_cont Eq a b = (Zpos a ?= Zpos b).
Proof. reflexivity. Qed.

Lemma Z2SF_100 : Float64.Z2SF 100 = S754_finite false 7036874417766400 (-46).
Proof. reflexivity. Qed.

Lemma SFcompare_100 x :
  Float64.valid x = true -> SFcompare x (Float64.Z2SF 100) = Float64.cmpZ x 100.
Proof.
  rewrite Z2SF_100.
  destruct x as [s|s| |s m e]; cbn [SFcompare Float64.cmpZ]; try reflexivity.
  intros Hv. apply valid_finite in Hv as [Hc He]. f_equal.
  pose proof (digits2_pos_bounds m) as [Hlo Hhi].
  set (d := Zpos (digits2_pos m)) in *.
  destruct s; cbn [cond_Zopp].
  - destruct (0 <=? e) eqn:E; symmetry; apply Z.compare_lt_iff.
    + apply Z.leb_le in E. pose proof (Z.pow_pos_nonneg 2 e ltac:(lia) E). nia.
    + apply Z.leb_gt in E. pose proof (Z.pow_pos_nonneg 2 (- e) ltac:(lia) ltac:(lia)). nia.
  - destruct (Z.compare_spec e (-46)) as [Ee | Ee | Ee].
    + subst e.
      change (0 <=? -46) with false. change (- -46) with 46.
      change (100 * 2 ^ 46) with 7036874417766400. cbv iota. exact eq_refl.
    + replace (0 <=? e) with false by (symmetry; apply Z.leb_gt; lia).
      symmetry. apply Z.compare_lt_iff.
      assert (H1 : 2 ^ d <= 2 ^ 53) by (apply Z.pow_le_mono_r; lia).
      assert (H2 : 2 ^ 47 <= 2 ^ (- e)) by (apply Z.pow_le_mono_r; lia).
      change (2 ^ 53) with 9007199254740992 in H1.
      change (2 ^ 47) with 140737488355328 in H2. lia.
    + assert (Hd : d = 53) by lia.
      rewrite Hd in Hlo. change (2 ^ (53 - 1)) with 4503599627370496 in Hlo.
      destruct (0 <=? e) eqn:E; symmetry; apply Z.compare_gt_iff.
      * apply Z.leb_le in E. pose proof (Z.pow_pos_nonneg 2 e ltac:(lia) E). nia.
      * apply Z.leb_gt in E.
        assert (H2 : 2 ^ (- e) <= 2 ^ 45) by (apply Z.pow_le_mono_r; lia).
        change (2 ^ 45) with 35184372088832 in H2. lia.
Qed.

Lemma Z2SF_int z x :
  Float64.int_as_float z = Some x ->
  SFcompare x (Float64.Z2SF 0) = Some (z ?= 0)
  /\ SFcompare x (Float64.Z2SF 100) = Some (z ?= 100)
  /\ Float64.is_nan x = false.
Proof.
  unfold Float64.int_as_float. rewrite Z2SF_100. change (Float64.Z2SF 0) with (S754_zero false).
  unfold Float64.Z2SF, binary_normalize, Float64.prec, Float64.emax.
  destruct z as [|p|p].
  - intros [= <-]. repeat split.
  - assert (H : (exists m' e', binary_round 53 1024 false p 0 = S754_finite false m' e'
                  /\ ((e' ?= -46) = Eq -> Pos.compare_cont Eq m' 7036874417766400 = (Zpos p ?= 100))
                  /\ ((e' ?= -46) = Lt -> Zpos p < 100)
                  /\ ((e' ?= -46) = Gt -> 100 < Zpos p))
                \/ binary_round 53 1024 false p 0 = S754_infinity false).
    { pose proof (digits2_pos_bounds p) as [Hlo Hhi].
      destruct (Z_le_gt_dec (Zpos (digits2_pos p)) 53) as [Hd | Hd].
      - destruct (binary_round_small false p Hd) as (m' & Hr & Hm & _).
        left. exists m', (Zpos (digits2_pos p) - 53). split; [exact Hr|].
        set (d := Zpos (digits2_pos p)) in *. clearbody d.
        split; [|split]; intros Ee.
        + apply Z.compare_eq in Ee. assert (d = 7) by lia. subst d.
          rewrite compare_cont_Z, Hm. change (2 ^ (53 - 7)) with 70368744177664.
          change (Z.pos 7036874417766400) with (100 * 70368744177664).
          symmetry. apply Zmult_compare_compat_r. lia.
        + rewrite Z.compare_lt_iff in Ee.
          assert (H1 : 2 ^ d <= 2 ^ 6) by (apply Z.pow_le_mono_r; lia).
          change (2 ^ 6) with 64 in H1. lia.
        + rewrite Z.compare_gt_iff in Ee.
          assert (H1 : 2 ^ 7 <= 2 ^ (d - 1)) by (apply Z.pow_le_mono_r; lia).
          change (2 ^ 7) with 128 in H1. lia.
      - destruct (binary_round_big false p ltac:(lia)) as [Hr | (m' & e' & Hr & He)];
          [right; exact Hr|].
        left. exists m', e'. split; [exact Hr|].
        assert (H1 : 2 ^ 7 <= 2 ^ (Zpos (digits2_pos p) - 1)) by (apply Z.pow_le_mono_r; lia).
        change (2 ^ 7) with 128 in H1.
        split; [|split]; intros Ee.
        + apply Z.compare_eq in Ee. lia.
        + rewrite Z.compare_lt_iff in Ee. lia.
        + lia. }
    destruct H as [(m' & e' & -> & HEq & HLt & HGt) | ->]; [|discriminate].
    intros [= <-]. split; [reflexivity|]. split; [|reflexivity].
    cbn [SFcompare]. f_equal.
    destruct (e' ?= -46).
    + apply HEq. reflexivity.
    + symmetry. apply Z.compare_lt_iff. apply HLt. reflexivity.
    + symmetry. apply Z.compare_gt_iff. apply HGt. reflexivity.
  - assert (H : binary_round 53 1024 true p 0 = S754_infinity true
                \/ exists m' e', binary_round 53 1024 true p 0 = S754_finite true m' e').
    { destruct (Z_le_gt_dec (Zpos (digits2_pos p)) 53) as [Hd | Hd].
      - destruct (binary_round_small true p Hd) as (m' & -> & _). right. eauto.
      - destruct (binary_round_big true p ltac:(lia)) as [-> | (m' & e' & -> & _)]; eauto. }
    destruct H as [-> | (m' & e' & ->)]; [discriminate|].
    intros [= <-]. repeat split.
Qed.

Lemma int_as_float_small z :
  - 2 ^ 53 < z < 2 ^ 53 -> exists x, Float64.int_as_float z = Some x.
Proof.
  intros Hz. unfold Float64.int_as_float, Float64.Z2SF, binary_normalize,
    Float64.prec, Float64.emax.
  assert (Hs : forall s p, Zpos p < 2 ^ 53 ->
            exists m' e', binary_round 53 1024 s p 0 = S754_finite s m' e').
  { intros s p Hp. pose proof (digits2_pos_bounds p) as [Hlo _].
    assert (Hd : Zpos (digits2_pos p) <= 53).
    { destruct (Z_le_gt_dec (Zpos (digits2_pos p)) 53) as [H|H]; [exact H|].
      exfalso. assert (2 ^ 53 <= 2 ^ (Zpos (digits2_pos p) - 1))
        by (apply Z.pow_le_mono_r; lia). lia. }
    destruct (binary_round_small s p Hd) as (m' & Hr & _). eauto. }
  destruct z as [|p|p].
  - eexists; reflexivity.
  - destruct (Hs false p) as (m' & e' & ->); [lia | eexists; reflexivity].
  - destruct (Hs true p) as (m' & e' & ->); [lia | eexists; reflexivity].
Qed.

Lemma Z2SF_not_nan z : Float64.is_nan (Float64.Z2SF z) = false.
Proof.
  unfold Float64.Z2SF, binary_normalize, Float64.prec, Float64.emax.
  assert (Hs : forall s p, Float64.is_nan (binary_round 53 1024 s p 0) = false).
  { intros s p. destruct (Z_le_gt_dec (Zpos (digits2_pos p)) 53) as [Hd | Hd].
    - destruct (binary_round_small s p Hd) as (m' & -> & _). reflexivity.
    - destruct (binary_round_big s p ltac:(lia)) as [-> | (m' & e' & -> & _)];
        reflexivity. }
  destruct z; [reflexivity | apply Hs | apply Hs].
Qed.

Lemma int_as_float_not_nan z x :
  Float64.int_as_float z = Some x -> Float64.is_nan x = false.
Proof.
  unfold Float64.int_as_float. pose proof (Z2SF_not_nan z) as H.
  destruct (Float64.Z2SF z); try discriminate; intros [= <-]; reflexivity.
Qed.

Lemma SFeqb_refl x : Float64.is_nan x = false -> SFeqb x x = true.
Proof.
  unfold SFeqb. destruct x as [s|s| |s m e]; cbn; try discriminate; intros _.
  - reflexivity.
  - destruct s; reflexivity.
  - destruct s; rewrite Z.compare_refl;
      change (Pos.compare_cont Eq m m) with (Pos.compare m m);
      rewrite Pos.compare_refl; reflexivity.
Qed.

End Float64Facts.

Unset Implicit Arguments.

(** ** Dicts *)

Lemma dict_get_set_eq k v d : dict_get k (dict_set k v d) = Some v.
Proof. unfold dict_set; cbn. rewrite String.eqb_refl. reflexivity. Qed.

Lemma dict_get_set_neq k k' v d :
  k' <> k -> dict_get k' (dict_set k v d) = dict_get k' d.
Proof.
  intros H. unfold dict_set; cbn.
  destruct (String.eqb_spec k' k); [contradiction | reflexivity].
Qed.

Lemma dict_get_del_eq k d : dict_get k (dict_del k d) = None.
Proof.
  induction d as [|[k' v] d IH]; cbn; [reflexivity|].
  destruct (String.eqb_spec k k') as [E|E]; cbn; [exact IH|].
  destruct (String.eqb_spec k k'); [contradiction | exact IH].
Qed.

Lemma dict_get_del_neq k k' d :
  k' <> k -> dict_get k' (dict_del k d) = dict_get k' d.
Proof.
  intros H. induction d as [|[k0 v] d IH]; cbn; [reflexivity|].
  destruct (String.eqb_spec k k0) as [E|E]; cbn.
  - subst k0. destruct (String.eqb_spec k' k); [contradiction | exact IH].
  - destruct (String.eqb_spec k' k0); [reflexivity | exact IH].
Qed.

(** ** The shape of an outcome *)

Section ValidationFacts.
Context {L : Library}.

Lemma validate_field_agree d d' f :
  dict_get (fname f) d = dict_get (fname f) d' ->
  validate_field d f = validate_field d' f.
Proof. unfold validate_field. intros ->. reflexivity. Qed.

Lemma validate_field_set_other k v d f :
  fname f <> k -> validate_field (dict_set k v d) f = validate_field d f.
Proof. intros H. apply validate_field_agree, dict_get_set_neq, H. Qed.

Lemma validate_field_set_same k v d f :
  fname f = k ->
  validate_field (dict_set k v d) f = under (LKey k) (validate_value (ftyp f) v).
Proof.
  intros <-. unfold validate_field. rewrite dict_get_set_eq. reflexivity.
Qed.

Lemma validate_fields_all_ok fs d :
  (forall f, In f fs -> exists v, validate_field d f = Ok v) ->
  exists r, validate_fields fs d = Ok r.
Proof.
  induction fs as [|f fs IH]; intros H; cbn [validate_fields].
  - eexists; reflexivity.
  - destruct (H f (or_introl eq_refl)) as [v ->].
    destruct IH as [r ->]; [intros g Hg; apply H; right; exact Hg|].
    eexists; reflexivity.
Qed.

Lemma validate_fields_Ok_field fs d r f :
  validate_fields fs d = Ok r -> In f fs -> exists v, validate_field d f = Ok v.
Proof.
  revert r. induction fs as [|g fs IH]; intros r H Hin; [destruct Hin|].
  cbn [validate_fields] in H.
  destruct (validate_field d g) as [v|es] eqn:Eg;
    destruct (validate_fields fs d) as [r'|es'] eqn:Er; cbn in H; try discriminate.
  destruct Hin as [<-|Hin]; [eauto | eapply IH; eauto].
Qed.

(** The attribute [k] of a validated instance is the outcome of the first
    field called [k]. *)
Lemma dict_get_validated fs d r k :
  validate_fields fs d = Ok r ->
  dict_get k r =
    match find (fun f => String.eqb k (fname f)) fs with
    | Some f => match validate_field d f with Ok v => Some v | _ => None end
    | None => None
    end.
Proof.
  revert r. induction fs as [|g fs IH]; intros r H.
  - cbn in H. injection H as <-. reflexivity.
  - cbn [validate_fields] in H.
    destruct (validate_field d g) as [v|es] eqn:Eg;
      destruct (validate_fields fs d) as [r'|es'] eqn:Er; cbn in H; try discriminate.
    injection H as <-. cbn [dict_get find].
    destruct (String.eqb k (fname g)); [rewrite Eg; reflexivity | apply IH; reflexivity].
Qed.

Lemma validate_fields_errors fs d es :
  validate_fields fs d = ValidationError es ->
  forall e, In e es ->
    exists f es', In f fs /\ validate_field d f = ValidationError es' /\ In e es'.
Proof.
  revert es. induction fs as [|g fs IH]; intros es H e He; [discriminate|].
  cbn [validate_fields] in H.
  destruct (validate_field d g) as [v|eg] eqn:Eg;
    destruct (validate_fields fs d) as [r'|es'] eqn:Er; cbn in H;
    try discriminate; injection H as <-.
  - destruct (IH _ eq_refl e He) as (f & es0 & Hf & Hv & Hi).
    exists f, es0. auto with datatypes.
  - exists g, eg. auto with datatypes.
  - apply in_app_or in He as [He|He].
    + exists g, eg. auto with datatypes.
    + destruct (IH _ eq_refl e He) as (f & es0 & Hf & Hv & Hi).
      exists f, es0. auto with datatypes.
Qed.

Lemma validate_fields_has_error fs d f es' :
  In f fs -> validate_field d f = ValidationError es' ->
  exists es, validate_fields fs d = ValidationError es /\ incl es' es.
Proof.
  induction fs as [|g fs IH]; intros Hin Hf; [destruct Hin|].
  cbn [validate_fields].
  destruct Hin as [->|Hin].
  - rewrite Hf. destruct (validate_fields fs d) as [r|es]; cbn.
    + eexists; split; [reflexivity | apply incl_refl].
    + eexists; split; [reflexivity | apply incl_appl, incl_refl].
  - destruct (IH Hin Hf) as (es & -> & Hi).
    destruct (validate_field d g) as [v|eg]; cbn.
    + eexists; split; [reflexivity | exact Hi].
    + eexists; split; [reflexivity | apply incl_appr, Hi].
Qed.

Lemma validate_fields_agree fs d d' :
  (forall f, In f fs -> dict_get (fname f) d = dict_get (fname f) d') ->
  validate_fields fs d = validate_fields fs d'.
Proof.
  induction fs as [|f fs IH]; intros H; [reflexivity|].
  cbn [validate_fields].
  rewrite (validate_field_agree d d' f) by (apply H; left; reflexivity).
  rewrite IH by (intros g Hg; apply H; right; exact Hg). reflexivity.
Qed.

(** *** One field set, the others valid *)

Lemma field_of_In m k f : field_of m k = Some f -> In f (fields m) /\ fname f = k.
Proof.
  unfold field_of. intros H. apply find_some in H as [Hin He].
  split; [exact Hin|]. apply String.eqb_eq in He. symmetry; exact He.
Qed.

Lemma field_of_unique m k f g :
  NoDup (map fname (fields m)) ->
  field_of m k = Some f -> In g (fields m) -> fname g = k -> g = f.
Proof.
  unfold field_of. induction (fields m) as [|h fs IH]; cbn; intros Hnd Hf Hg Hk;
    [destruct Hg|].
  inversion Hnd as [|? ? Hnot Hnd']; subst.
  destruct (String.eqb_spec (fname g) (fname h)) as [E|E].
  - injection Hf as <-. destruct Hg as [->|Hg]; [reflexivity|].
    exfalso. apply Hnot. rewrite <- E. apply in_map, Hg.
  - destruct Hg as [->|Hg]; [contradiction|]. apply IH; auto.
Qed.

Lemma model_validate_set_Ok m k f v v' d :
  NoDup (map fname (fields m)) -> field_of m k = Some f ->
  others_valid m k d ->
  validate_value (ftyp f) v = Ok v' ->
  exists x, model_validate m (dict_set k v d) = Ok x /\ getattr x k = Some v'.
Proof.
  intros Hnd Hf Ho Hv. destruct (field_of_In _ _ _ Hf) as [Hin Hk].
  destruct (@validate_fields_all_ok (fields m) (dict_set k v d)) as [r Hr].
  { intros g Hg. destruct (String.eqb_spec (fname g) k) as [E|E].
    - rewrite (field_of_unique _ _ _ _ Hnd Hf Hg E).
      rewrite validate_field_set_same, Hv by exact Hk. eexists; reflexivity.
    - rewrite validate_field_set_other by exact E. apply Ho; assumption. }
  unfold model_validate. rewrite Hr. eexists; split; [reflexivity|].
  unfold getattr; cbn [attrs]. rewrite (dict_get_validated _ _ _ k Hr).
  fold (field_of m k). rewrite Hf, validate_field_set_same, Hv by exact Hk.
  reflexivity.
Qed.

Lemma model_validate_set_Err m k f v es d :
  field_of m k = Some f ->
  validate_value (ftyp f) v = ValidationError es ->
  exists es', model_validate m (dict_set k v d) = ValidationError es'
              /\ incl (map (at_loc (LKey k)) es) es'.
Proof.
  intros Hf Hv. destruct (field_of_In _ _ _ Hf) as [Hin Hk].
  destruct (@validate_fields_has_error (fields m) (dict_set k v d) f
              (map (at_loc (LKey k)) es) Hin) as (es' & Hr & Hi).
  { rewrite validate_field_set_same, Hv by exact Hk. reflexivity. }
  unfold model_validate. rewrite Hr. eexists; split; [reflexivity | exact Hi].
Qed.

Lemma model_validate_set_inv m k f v d x :
  field_of m k = Some f ->
  model_validate m (dict_set k v d) = Ok x ->
  exists v', validate_value (ftyp f) v = Ok v' /\ getattr x k = Some v'.
Proof.
  intros Hf H. destruct (validate_value (ftyp f) v) as [v'|es] eqn:Hv.
  - exists v'. split; [reflexivity|].
    unfold model_validate in H.
    destruct (validate_fields (fields m) (dict_set k v d)) as [r|] eqn:Hr;
      [|discriminate].
    injection H as <-. unfold getattr; cbn [attrs].
    rewrite (dict_get_validated _ _ _ k Hr). fold (field_of m k).
    destruct (field_of_In _ _ _ Hf) as [_ Hk].
    rewrite Hf, validate_field_set_same, Hv by exact Hk. reflexivity.
  - destruct (model_validate_set_Err _ _ _ _ _ d Hf Hv) as (es' & He & _).
    rewrite He in H. discriminate.
Qed.

(** A field left out takes its default, if it has one. *)
Lemma validate_field_default d f :
  dict_get (fname f) d = None ->
  validate_field d f =
    match fdefault f with
    | Required => ValidationError [mk_error [LKey (fname f)] missing]
    | Default v => Ok v
    | DefaultFactory g => Ok (call g)
    end.
Proof. unfold validate_field. intros ->. reflexivity. Qed.

Lemma getattr_validated m d x k f :
  model_validate m d = Ok x -> field_of m k = Some f ->
  exists v, validate_field d f = Ok v /\ getattr x k = Some v.
Proof.
  unfold model_validate. intros H Hf.
  destruct (validate_fields (fields m) d) as [r|] eqn:Hr; [|discriminate].
  injection H as <-. destruct (field_of_In _ _ _ Hf) as [Hin _].
  destruct (validate_fields_Ok_field _ _ _ _ Hr Hin) as [v Hv].
  exists v. split; [exact Hv|].
  unfold getattr; cbn [attrs]. rewrite (dict_get_validated _ _ _ k Hr).
  fold (field_of m k). rewrite Hf, Hv. reflexivity.
Qed.

End ValidationFacts.

Lemma others_validb_true {L : Library} m k d :
  others_validb m k d = true -> others_valid m k d.
Proof.
  unfold others_validb, others_valid. intros H f Hin Hn.
  rewrite forallb_forall in H. specialize (H f Hin).
  apply orb_true_iff in H as [H|H].
  - apply String.eqb_eq in H. contradiction.
  - destruct (validate_field d f) as [v|]; [eauto | discriminate].
Qed.

Lemma existsb_eqb_In s (l : list string) :
  existsb (String.eqb s) l = true <-> In s l.
Proof.
  rewrite existsb_exists. split.
  - intros (x & Hx & E). apply String.eqb_eq in E. subst. exact Hx.
  - intros H. exists s. split; [exact H | apply String.eqb_refl].
Qed.

Lemma unique_User : NoDup (map fname (fields User)).
Proof. repeat constructor; cbn; intuition discriminate. Qed.
Lemma unique_Ebook : NoDup (map fname (fields Ebook)).
Proof. repeat constructor; cbn; intuition discriminate. Qed.
Lemma unique_Purchase : NoDup (map fname (fields Purchase)).
Proof. repeat constructor; cbn; intuition discriminate. Qed.
Lemma unique_LibraryItem : NoDup (map fname (fields LibraryItem)).
Proof. repeat constructor; cbn; intuition discriminate. Qed.

Create HintDb models.
#[local] Hint Resolve unique_User unique_Ebook unique_Purchase unique_LibraryItem : models.

(** ** Setting one field *)

Section SetField.
Context {L : Library}.

Lemma set_accepted m k f v v' d :
  NoDup (map fname (fields m)) -> field_of m k = Some f ->
  others_valid m k d -> validate_value (ftyp f) v = Ok v' ->
  accepted_with m (dict_set k v d) k v'.
Proof. apply model_validate_set_Ok. Qed.

Lemma set_rejected m k f v e d :
  field_of m k = Some f ->
  validate_value (ftyp f) v = ValidationError [mk_error [] e] ->
  rejected_with m (dict_set k v d) (mk_error [LKey k] e).
Proof.
  intros Hf Hv. destruct (model_validate_set_Err _ _ _ _ _ d Hf Hv) as (es & He & Hi).
  exists es. split; [exact He|]. apply Hi. left. reflexivity.
Qed.

Lemma rejected_with_at m d k e :
  rejected_with m d (mk_error [LKey k] e) -> rejected_at m d k.
Proof. intros (es & H & Hi). exists es. split; [exact H|]. eexists; split; [exact Hi | reflexivity]. Qed.

Lemma accepted_not_rejected m d k v e :
  accepted_with m d k v -> ~ rejected_with m d e.
Proof. intros (x & H & _) (es & H' & _). congruence. Qed.

(** A field left out, with a default. *)
Lemma omitted_accepted m k f v d :
  NoDup (map fname (fields m)) ->
  field_of m k = Some f -> dict_get k d = None ->
  others_valid m k d ->
  match fdefault f with
  | Required => False
  | Default w => v = w
  | DefaultFactory g => v = call g
  end ->
  accepted_with m d k v.
Proof.
  intros Hnd Hf Hd Ho Hdef. destruct (field_of_In _ _ _ Hf) as [Hin Hk].
  assert (Hv : validate_field d f = Ok v).
  { rewrite validate_field_default by (rewrite Hk; exact Hd).
    destruct (fdefault f); [contradiction | subst; reflexivity | subst; reflexivity]. }
  destruct (validate_fields_all_ok (fields m) d) as [r Hr].
  { intros g Hg. destruct (String.eqb_spec (fname g) k) as [E|E].
    - rewrite (field_of_unique _ _ _ _ Hnd Hf Hg E). exists v. exact Hv.
    - apply Ho; assumption. }
  exists (mk_instance (mname m) r). split.
  - unfold model_validate. rewrite Hr. reflexivity.
  - unfold getattr; cbn [attrs]. rewrite (dict_get_validated _ _ _ k Hr).
    fold (field_of m k). rewrite Hf, Hv. reflexivity.
Qed.

End SetField.

(** ** Scalars *)

Section Scalars.
Context {L : Library}.

Lemma validate_literal_in cs s :
  In s cs -> validate_value (TLiteral cs) (PStr s) = Ok (PStr s).
Proof.
  intros H. apply existsb_eqb_In in H. cbn [validate_value]. rewrite H. reflexivity.
Qed.

Lemma validate_literal_notin cs s :
  ~ In s cs -> validate_value (TLiteral cs) (PStr s) = fail (literal_error cs).
Proof.
  intros H. cbn [validate_value].
  destruct (existsb (String.eqb s) cs) eqn:E; [|reflexivity].
  apply existsb_eqb_In in E. contradiction.
Qed.

Lemma check_length_within a b s :
  length_within a b s = true -> check_length a b s = Ok (PStr s).
Proof.
  unfold length_within, check_length. intros H. apply andb_true_iff in H as [H1 H2].
  destruct a as [a|], b as [b|];
    repeat match goal with
    | H : (_ <=? _)%nat = true |- _ => apply Nat.leb_le in H
    | |- context [(?x <? ?y)%nat] => destruct (Nat.ltb_spec x y); [lia|]
    end; reflexivity.
Qed.

Lemma check_length_Ok a b s v :
  check_length a b s = Ok v -> v = PStr s /\ length_within a b s = true.
Proof.
  unfold length_within, check_length. intros H.
  destruct a as [a|], b as [b|];
    repeat match type of H with
    | context [(?x <? ?y)%nat] => destruct (Nat.ltb_spec x y); [discriminate|]
    end; injection H as <-; split; try reflexivity;
    apply andb_true_iff; split; try reflexivity; apply Nat.leb_le; lia.
Qed.

Lemma check_length_short a b s :
  (String.length s < a)%nat -> check_length (Some a) b s = fail (string_too_short a).
Proof.
  intros H. unfold check_length.
  destruct (Nat.ltb_spec (String.length s) a); [reflexivity | lia].
Qed.

Lemma check_length_long a b s :
  (a <= String.length s)%nat -> (b < String.length s)%nat ->
  check_length (Some a) (Some b) s = fail (string_too_long b).
Proof.
  intros Ha Hb. unfold check_length.
  destruct (Nat.ltb_spec (String.length s) a); [lia|].
  destruct (Nat.ltb_spec b (String.length s)); [reflexivity | lia].
Qed.

End Scalars.

(** ** Lists and dicts of values *)

Lemma both_Ok_inv {A B C} (f : A -> B -> C) a b c :
  both f a b = Ok c -> exists x y, a = Ok x /\ b = Ok y /\ c = f x y.
Proof.
  destruct a, b; cbn; try discriminate. intros [= <-]. eauto.
Qed.

Lemma both_nonempty {A B C} (f : A -> B -> C) a b es :
  (forall ea, a = ValidationError ea -> ea <> []) ->
  (forall eb, b = ValidationError eb -> eb <> []) ->
  both f a b = ValidationError es -> es <> [].
Proof.
  intros Ha Hb. destruct a as [x|ea], b as [y|eb]; cbn; try discriminate;
    intros [= <-].
  - apply Hb; reflexivity.
  - apply Ha; reflexivity.
  - intros E. apply app_eq_nil in E as [E _]. revert E. apply Ha; reflexivity.
Qed.

Lemma under_nonempty {A} i (a : result A) es :
  (forall ea, a = ValidationError ea -> ea <> []) ->
  under i a = ValidationError es -> es <> [].
Proof.
  intros Ha. destruct a as [x|ea]; cbn; [discriminate|]. intros [= <-] E.
  apply map_eq_nil in E. revert E. apply Ha; reflexivity.
Qed.

Section Items.
Variable vt : pyval -> result pyval.

Lemma validate_items_Ok i l l' :
  validate_items vt i l = Ok l' -> Forall2 (fun v v' => vt v = Ok v') l l'.
Proof.
  revert i l'. induction l as [|v l IH]; intros i l' H; cbn in H.
  - injection H as <-. constructor.
  - apply both_Ok_inv in H as (x & y & Hx & Hy & ->).
    destruct (vt v) as [w|] eqn:E; [|discriminate]. cbn in Hx. injection Hx as <-.
    constructor; [exact E | eapply IH; exact Hy].
Qed.

Lemma validate_items_of_Forall2 i l l' :
  Forall2 (fun v v' => vt v = Ok v') l l' -> validate_items vt i l = Ok l'.
Proof.
  intros H. revert i. induction H as [|v v' l l' Hv _ IH]; intros i; cbn.
  - reflexivity.
  - rewrite Hv, IH. reflexivity.
Qed.

Lemma validate_items_nonempty i l es :
  (forall v ev, vt v = ValidationError ev -> ev <> []) ->
  validate_items vt i l = ValidationError es -> es <> [].
Proof.
  intros Hvt. revert i es. induction l as [|v l IH]; intros i es H; cbn in H;
    [discriminate|].
  eapply both_nonempty; [| |exact H].
  - intros ea. apply under_nonempty. intros e. apply Hvt.
  - intros eb. apply IH.
Qed.

Lemma validate_entries_Ok kvs kvs' :
  validate_entries vt kvs = Ok kvs' ->
  Forall2 (fun kv kv' => fst kv' = fst kv /\ vt (snd kv) = Ok (snd kv')) kvs kvs'.
Proof.
  revert kvs'. induction kvs as [|[k v] l IH]; intros l' H; cbn in H.
  - injection H as <-. constructor.
  - apply both_Ok_inv in H as (x & y & Hx & Hy & ->).
    destruct (vt v) as [w|] eqn:E; [|discriminate]. cbn in Hx. injection Hx as <-.
    constructor; [split; [reflexivity | exact E] | apply IH; exact Hy].
Qed.

Lemma validate_entries_of_Forall2 kvs kvs' :
  Forall2 (fun kv kv' => fst kv' = fst kv /\ vt (snd kv) = Ok (snd kv')) kvs kvs' ->
  validate_entries vt kvs = Ok kvs'.
Proof.
  intros H. induction H as [|[k v] [k' v'] l l' [Hk Hv] _ IH]; cbn.
  - reflexivity.
  - cbn in Hk, Hv. subst k'. rewrite Hv, IH. reflexivity.
Qed.

Lemma validate_entries_nonempty kvs es :
  (forall v ev, vt v = ValidationError ev -> ev <> []) ->
  validate_entries vt kvs = ValidationError es -> es <> [].
Proof.
  intros Hvt. revert es. induction kvs as [|[k v] l IH]; intros es H; cbn in H;
    [discriminate|].
  eapply both_nonempty; [| |exact H].
  - intros ea Hea. destruct (vt v) as [w|ev] eqn:E; cbn in Hea; [discriminate|].
    injection Hea as <-. intros E'. apply map_eq_nil in E'. revert E'.
    eapply Hvt; exact E.
  - intros eb. apply IH.
Qed.

End Items.

(** ** Float bounds *)

Section Bounds.
Context {L : Library}.

Lemma check_bounds_Ok ge le x v :
  check_bounds ge le x = Ok v -> v = PFloat x /\ within ge le x = true.
Proof.
  unfold check_bounds, within. intros H.
  destruct le as [b|]; [destruct (SFleb x (Float64.Z2SF b)); [|discriminate]|];
    (destruct ge as [a|]; [destruct (SFleb (Float64.Z2SF a) x); [|discriminate]|]);
    injection H as <-; auto.
Qed.

Lemma check_bounds_pass ge le x :
  within ge le x = true -> check_bounds ge le x = Ok (PFloat x).
Proof.
  unfold check_bounds, within. intros H. apply andb_true_iff in H as [Hge Hle].
  destruct le as [b|]; [rewrite Hle|]; (destruct ge as [a|]; [rewrite Hge|]);
    reflexivity.
Qed.

Lemma check_bounds_shape ge le x es :
  check_bounds ge le x = ValidationError es -> es <> [].
Proof.
  unfold check_bounds. intros H.
  destruct le as [b|]; [destruct (SFleb x (Float64.Z2SF b))|];
    try (destruct ge as [a|]; [destruct (SFleb (Float64.Z2SF a) x)|]);
    try discriminate; injection H as <-; discriminate.
Qed.

(** A NaN meets no bound. *)
Lemma within_nan ge le :
  within ge le S754_nan = match ge, le with None, None => true | _, _ => false end.
Proof.
  unfold within. destruct ge as [a|], le as [b|]; try reflexivity.
  - unfold SFleb. destruct (Float64.Z2SF a); reflexivity.
  - unfold SFleb. destruct (Float64.Z2SF a); reflexivity.
Qed.

Lemma number_not_nan v x : number_of v = Some x -> Float64.is_nan x = false.
Proof.
  destruct v; cbn; try discriminate.
  - apply Float64Facts.int_as_float_not_nan.
  - destruct (Float64.is_nan f) eqn:E; [discriminate|]. intros [= <-]. exact E.
Qed.

Lemma as_float_shape v es : as_float v = ValidationError es -> es <> [].
Proof.
  destruct v; cbn;
    repeat match goal with
    | |- context [match ?o with Some _ => _ | None => _ end] => destruct o
    end; try discriminate; intros [= <-]; discriminate.
Qed.

Lemma as_float_number v x : number_of v = Some x -> as_float v = Ok x.
Proof.
  destruct v; cbn; try discriminate.
  - intros ->. reflexivity.
  - destruct (Float64.is_nan f); [discriminate|]. intros [= ->]. reflexivity.
Qed.

End Bounds.

(** ** Values *)

Section Values.
Context {L : Library}.

Lemma fail_shape {A} k es : @fail A k = ValidationError es -> es <> [].
Proof. intros [= <-]. discriminate. Qed.

Lemma check_length_shape a b s es :
  check_length a b s = ValidationError es -> es <> [].
Proof.
  unfold check_length. intros H.
  destruct a as [a|], b as [b|];
    repeat match type of H with
    | context [(?x <? ?y)%nat] => destruct (x <? y)%nat
    end; try discriminate; revert H; apply fail_shape.
Qed.

(** The outcome of a scalar validator: a value, or one error at the value. *)
Lemma http_url_cases s :
  (exists u, http_url s = Ok u /\ parse_http_url s = Some u)
  \/ (exists k, http_url s = fail k /\ parse_http_url s = None).
Proof.
  unfold parse_http_url, http_url.
  destruct (2083 <? utf8_length s)%nat; [right; eexists; split; reflexivity|].
  destruct (parse_url s) as [u|]; [|right; eexists; split; reflexivity].
  destruct (existsb _ _); [left | right]; eexists; split; reflexivity.
Qed.

Lemma parse_http_url_Some s u : parse_http_url s = Some u -> http_url s = Ok u.
Proof.
  destruct (http_url_cases s) as [(u' & H & ->) | (k & _ & ->)]; [|discriminate].
  intros [= <-]. exact H.
Qed.

Lemma int_as_bool_cases z :
  (exists b, int_as_bool z = Ok (PBool b)) \/ int_as_bool z = fail bool_parsing.
Proof.
  unfold int_as_bool. destruct (z =? 0); [left; eexists; reflexivity|].
  destruct (z =? 1); [left; eexists; reflexivity | right; reflexivity].
Qed.

Lemma validate_bool_cases v :
  (exists b, validate_value TBool v = Ok (PBool b))
  \/ (exists k, validate_value TBool v = fail k
                /\ (k = bool_type \/ k = bool_parsing)
                /\ match v with PBool _ => False | _ => True end).
Proof.
  destruct v; cbn [validate_value];
    try (right; exists bool_type; split; [reflexivity | split; [left; reflexivity | exact I]]).
  - left; eexists; reflexivity.
  - destruct ((- 2 ^ 63 <=? z) && (z <? 2 ^ 63));
      [|right; exists bool_type; split; [reflexivity | split; [left; reflexivity | exact I]]].
    destruct (int_as_bool_cases z) as [[b ->] | ->]; [left; eexists; reflexivity|].
    right; exists bool_parsing; split; [reflexivity | split; [right; reflexivity | exact I]].
  - destruct (Float64.float_as_int f) as [z|];
      [|right; exists bool_type; split; [reflexivity | split; [left; reflexivity | exact I]]].
    destruct (int_as_bool_cases z) as [[b ->] | ->]; [left; eexists; reflexivity|].
    right; exists bool_parsing; split; [reflexivity | split; [right; reflexivity | exact I]].
  - destruct (str_as_bool s); [left; eexists; reflexivity|].
    right; exists bool_parsing; split; [reflexivity | split; [right; reflexivity | exact I]].
Qed.

Lemma validate_datetime_cases v :
  (exists d, validate_value TDatetime v = Ok (PDatetime d))
  \/ (exists k, validate_value TDatetime v = fail k
                /\ (k = datetime_type \/ k = datetime_parsing
                    \/ k = datetime_from_date_parsing)
                /\ match v with PDatetime _ => False | _ => True end).
Proof.
  destruct v; cbn [validate_value];
    try (right; exists datetime_type; split; [reflexivity | split; [tauto | exact I]]);
    try (left; eexists; reflexivity);
    (destruct (lax_datetime _); [left; eexists; reflexivity|]);
    right; eexists; (split; [reflexivity | split; [tauto | exact I]]).
Qed.

(** A ValidationError reports at least one error. *)
Lemma validate_value_shape t :
  forall v es, validate_value t v = ValidationError es -> es <> [].
Proof.
  induction t as [a b| | |cs|ge le| | |t IH|t IH|t IH|]; intros v es H.
  - cbn [validate_value] in H.
    destruct v; try (revert H; apply fail_shape). revert H. apply check_length_shape.
  - cbn [validate_value] in H. destruct v; try (revert H; apply fail_shape).
    destruct (validate_email s); [discriminate | revert H; apply fail_shape].
  - cbn [validate_value] in H.
    destruct v; try (revert H; apply fail_shape); try discriminate.
    destruct (http_url_cases s) as [(u & E & _) | (k & E & _)]; rewrite E in H;
      [discriminate | revert H; apply fail_shape].
  - cbn [validate_value] in H. destruct v; try (revert H; apply fail_shape).
    destruct (existsb _ _); [discriminate | revert H; apply fail_shape].
  - cbn [validate_value] in H. destruct (as_float v) as [x|e] eqn:E.
    + revert H. apply check_bounds_shape.
    + injection H as <-. revert E. apply as_float_shape.
  - destruct (validate_bool_cases v) as [[b E] | (k & E & _)]; rewrite E in H;
      [discriminate | revert H; apply fail_shape].
  - destruct (validate_datetime_cases v) as [[b E] | (k & E & _)]; rewrite E in H;
      [discriminate | revert H; apply fail_shape].
  - cbn [validate_value] in H. destruct v; try discriminate; revert H; apply IH.
  - cbn [validate_value] in H. destruct v; try (revert H; apply fail_shape).
    destruct (validate_items (validate_value t) 0 l) eqn:E; [discriminate|].
    injection H as <-. revert E. apply validate_items_nonempty, IH.
  - cbn [validate_value] in H. destruct v; try (revert H; apply fail_shape).
    destruct (validate_entries (validate_value t) kvs) eqn:E; [discriminate|].
    injection H as <-. revert E. apply validate_entries_nonempty, IH.
  - cbn [validate_value] in H. destruct v; try (revert H; apply fail_shape). discriminate.
Qed.

(** What validation yields meets the declaration. *)
Lemma validate_value_satisfies t :
  email_normal L -> floats_bounded t = true ->
  forall v v', validate_value t v = Ok v' -> satisfies t v' = true.
Proof.
  intros Hn.
  induction t as [a b| | |cs|ge le| | |t IH|t IH|t IH|]; intros Hb v v' H.
  - cbn [validate_value] in H. destruct v; try discriminate.
    apply check_length_Ok in H as [-> H]. exact H.
  - cbn [validate_value] in H. destruct v; try discriminate.
    destruct (validate_email s) as [s'|] eqn:E; [|discriminate].
    injection H as <-. cbn. rewrite (Hn _ _ E). reflexivity.
  - cbn [validate_value] in H. destruct v; try discriminate.
    + destruct (http_url s); [|discriminate]. injection H as <-. reflexivity.
    + injection H as <-. reflexivity.
  - cbn [validate_value] in H. destruct v; try discriminate.
    destruct (existsb (String.eqb s) cs) eqn:E; [|discriminate].
    injection H as <-. exact E.
  - cbn [validate_value] in H. destruct (as_float v) as [x|] eqn:E; [|discriminate].
    apply check_bounds_Ok in H as [-> Hw]. cbn.
    destruct x; cbn; try exact Hw.
    rewrite within_nan in Hw. destruct ge, le; discriminate.
  - destruct (validate_bool_cases v) as [[b E] | (k & E & _)]; rewrite E in H;
      [|discriminate]. injection H as <-. reflexivity.
  - destruct (validate_datetime_cases v) as [[b E] | (k & E & _)]; rewrite E in H;
      [|discriminate]. injection H as <-. reflexivity.
  - cbn [validate_value] in H. cbn [satisfies].
    destruct v; try (injection H as <-; reflexivity);
      (destruct v'; [reflexivity | eapply (IH Hb); exact H ..]).
  - cbn [validate_value] in H. destruct v; try discriminate.
    destruct (validate_items (validate_value t) 0 l) as [l'|] eqn:E; [|discriminate].
    injection H as <-. apply validate_items_Ok in E. cbn [satisfies].
    induction E as [|x y l l' Hxy _ IHl]; cbn; [reflexivity|].
    rewrite (IH Hb _ _ Hxy), IHl. reflexivity.
  - cbn [validate_value] in H. destruct v; try discriminate.
    destruct (validate_entries (validate_value t) kvs) as [l'|] eqn:E; [|discriminate].
    injection H as <-. apply validate_entries_Ok in E. cbn [satisfies].
    induction E as [|x y l l' [_ Hxy] _ IHl]; cbn; [reflexivity|].
    rewrite (IH Hb _ _ Hxy), IHl. reflexivity.
  - cbn [validate_value] in H. destruct v; try discriminate. injection H as <-. reflexivity.
Qed.

(** What validation yields is validated to itself. *)
Lemma validate_value_fix t :
  email_normal L ->
  forall v v', validate_value t v = Ok v' -> validate_value t v' = Ok v'.
Proof.
  intros Hn.
  induction t as [a b| | |cs|ge le| | |t IH|t IH|t IH|]; intros v v' H.
  - cbn [validate_value] in H. destruct v; try discriminate.
    pose proof H as H'. apply check_length_Ok in H' as [-> _]. exact H.
  - cbn [validate_value] in H. destruct v; try discriminate.
    destruct (validate_email s) as [s'|] eqn:E; [|discriminate].
    injection H as <-. cbn. rewrite (Hn _ _ E). reflexivity.
  - cbn [validate_value] in H. destruct v; try discriminate.
    + destruct (http_url s); [|discriminate]. injection H as <-. reflexivity.
    + injection H as <-. reflexivity.
  - cbn [validate_value] in H. destruct v; try discriminate.
    destruct (existsb (String.eqb s) cs) eqn:E; [|discriminate].
    injection H as <-. cbn. rewrite E. reflexivity.
  - cbn [validate_value] in H. destruct (as_float v) as [x|] eqn:E; [|discriminate].
    pose proof H as H'. apply check_bounds_Ok in H' as [-> _]. exact H.
  - destruct (validate_bool_cases v) as [[b E] | (k & E & _)]; rewrite E in H;
      [|discriminate]. injection H as <-. reflexivity.
  - destruct (validate_datetime_cases v) as [[b E] | (k & E & _)]; rewrite E in H;
      [|discriminate]. injection H as <-. reflexivity.
  - cbn [validate_value] in H. cbn [validate_value].
    destruct v; try (injection H as <-; reflexivity);
      (destruct v'; [reflexivity | eapply IH; exact H ..]).
  - cbn [validate_value] in H. destruct v; try discriminate.
    destruct (validate_items (validate_value t) 0 l) as [l'|] eqn:E; [|discriminate].
    injection H as <-. apply validate_items_Ok in E. cbn [validate_value].
    rewrite (validate_items_of_Forall2 (validate_value t) 0 l' l'); [reflexivity|].
    induction E as [|x y l l' Hxy _ IHl]; constructor; [eapply IH; exact Hxy | exact IHl].
  - cbn [validate_value] in H. destruct v; try discriminate.
    destruct (validate_entries (validate_value t) kvs) as [l'|] eqn:E; [|discriminate].
    injection H as <-. apply validate_entries_Ok in E. cbn [validate_value].
    rewrite (validate_entries_of_Forall2 (validate_value t) l' l'); [reflexivity|].
    induction E as [|x y l l' [_ Hxy] _ IHl]; constructor;
      [split; [reflexivity | eapply IH; exact Hxy] | exact IHl].
  - cbn [validate_value] in H. destruct v; try discriminate. injection H as <-. reflexivity.
Qed.

(** A value that meets the declaration is accepted, and what it yields
    meets the declaration. *)
Lemma satisfies_validates t :
  email_normal L ->
  forall v, satisfies t v = true ->
  exists v', validate_value t v = Ok v' /\ satisfies t v' = true.
Proof.
  intros Hn.
  induction t as [a b| | |cs|ge le| | |t IH|t IH|t IH|]; intros v H;
    cbn [satisfies] in H; cbn [validate_value].
  - destruct v; try discriminate. exists (PStr s).
    split; [apply check_length_within, H | exact H].
  - destruct v; try discriminate.
    destruct (validate_email s) as [s'|] eqn:E; [|discriminate].
    exists (PStr s'). split; [reflexivity|]. cbn. rewrite (Hn _ _ E). reflexivity.
  - destruct v; try discriminate.
    + destruct (parse_http_url s) as [u|] eqn:E; [|discriminate].
      rewrite (parse_http_url_Some _ _ E). exists (PUrl u). split; reflexivity.
    + exists (PUrl u). split; reflexivity.
  - destruct v; try discriminate. rewrite H. exists (PStr s). split; [reflexivity | exact H].
  - destruct (number_of v) as [x|] eqn:E; [|discriminate].
    pose proof (number_not_nan _ _ E) as Hx.
    rewrite (as_float_number _ _ E).
    exists (PFloat x). split.
    + apply check_bounds_pass. exact H.
    + cbn. rewrite Hx. exact H.
  - destruct v; try discriminate. exists (PBool b). split; reflexivity.
  - destruct v; try discriminate. exists (PDatetime d). split; reflexivity.
  - destruct v; try (exists PNone; split; reflexivity);
      (destruct (IH _ H) as (v' & Hv & Hs); exists v'; split; [exact Hv|];
       cbn [satisfies]; destruct v'; try reflexivity; exact Hs).
  - destruct v; try discriminate.
    assert (Hl : exists l', Forall2 (fun v v' => validate_value t v = Ok v') l l'
                            /\ forallb (satisfies t) l' = true).
    { induction l as [|x l IHl]; [exists []; split; [constructor | reflexivity]|].
      cbn in H. apply andb_true_iff in H as [Hx Hl].
      destruct (IH _ Hx) as (x' & Hx' & Hs). destruct (IHl Hl) as (l' & Hl' & Hs').
      exists (x' :: l'). split; [constructor; assumption|]. cbn. rewrite Hs, Hs'. reflexivity. }
    destruct Hl as (l' & Hl' & Hs).
    rewrite (validate_items_of_Forall2 _ 0 _ _ Hl'). exists (PList l'). split; [reflexivity | exact Hs].
  - destruct v; try discriminate.
    assert (Hl : exists l',
               Forall2 (fun kv kv' => fst kv' = fst kv
                                      /\ validate_value t (snd kv) = Ok (snd kv')) kvs l'
               /\ forallb (fun kv => satisfies t (snd kv)) l' = true).
    { induction kvs as [|[k x] l IHl]; [exists []; split; [constructor | reflexivity]|].
      cbn in H. apply andb_true_iff in H as [Hx Hl].
      destruct (IH _ Hx) as (x' & Hx' & Hs). destruct (IHl Hl) as (l' & Hl' & Hs').
      exists ((k, x') :: l'). split; [constructor; [split; [reflexivity | exact Hx'] | exact Hl']|].
      cbn. rewrite Hs, Hs'. reflexivity. }
    destruct Hl as (l' & Hl' & Hs).
    rewrite (validate_entries_of_Forall2 _ _ _ Hl'). exists (PDict l'). split; [reflexivity | exact Hs].
  - destruct v; try discriminate. exists (PDict kvs). split; reflexivity.
Qed.

Lemma datetime_eqb_refl d : datetime_eqb d d = true.
Proof.
  unfold datetime_eqb. rewrite !Z.eqb_refl. cbn.
  destruct (dt_utcoffset d); [apply Z.eqb_refl | reflexivity].
Qed.

(** A value that meets a declaration is equal to itself. *)
Lemma satisfies_py_eq t :
  plain t = true -> forall v, satisfies t v = true -> py_eq v v = true.
Proof.
  induction t as [a b| | |cs|ge le| | |t IH|t IH|t IH|]; intros Hp v H;
    cbn [satisfies plain] in *; try discriminate.
  - destruct v; try discriminate. apply String.eqb_refl.
  - destruct v; try discriminate. apply String.eqb_refl.
  - destruct v; try discriminate; apply String.eqb_refl.
  - destruct v; try discriminate. apply String.eqb_refl.
  - destruct (number_of v) as [x|] eqn:E.
    + destruct v; try discriminate; cbn.
      * apply Z.eqb_refl.
      * apply Float64Facts.SFeqb_refl. cbn in E.
        destruct (Float64.is_nan f); [discriminate | reflexivity].
    + discriminate.
  - destruct v; try discriminate. cbn. apply Z.eqb_refl.
  - destruct v; try discriminate. apply datetime_eqb_refl.
  - destruct v; try reflexivity; apply (IH Hp); exact H.
  - destruct v; try discriminate. cbn [py_eq].
    induction l as [|x l IHl]; [reflexivity|].
    cbn in H. apply andb_true_iff in H as [Hx Hl].
    rewrite (IH Hp _ Hx). cbn. apply IHl, Hl.
  - destruct v; try discriminate. cbn [py_eq].
    induction kvs as [|[k x] l IHl]; [reflexivity|].
    cbn in H. apply andb_true_iff in H as [Hx Hl].
    rewrite String.eqb_refl, (IH Hp _ Hx). cbn. apply IHl, Hl.
Qed.

End Values.

(** ** Numbers *)

Section Numbers.
Context {L : Library}.

Lemma number_cases v k c :
  num_cmpZ v k = Some c ->
  (exists x, number_of v = Some x)
  \/ (exists z, v = PInt z /\ Float64.int_as_float z = None).
Proof.
  destruct v; cbn; try discriminate.
  - intros _. destruct (Float64.int_as_float z) eqn:E; eauto.
  - destruct f; cbn; try discriminate; eauto.
Qed.

(** On a number, the comparisons the validator makes on binary64 values are
    the comparisons of the values with 0 and with 100. *)
Lemma number_compare v x :
  number_of v = Some x -> well_formed v = true ->
  SFcompare x (Float64.Z2SF 0) = num_cmpZ v 0
  /\ SFcompare x (Float64.Z2SF 100) = num_cmpZ v 100.
Proof.
  destruct v; cbn; try discriminate.
  - intros H _. destruct (@Float64Facts.Z2SF_int z _ H) as (H0 & H100 & _). auto.
  - destruct (Float64.is_nan f) eqn:E; [discriminate|]. intros [= ->] Hv.
    split; [apply Float64Facts.SFcompare_zero | apply (@Float64Facts.SFcompare_100 _ Hv)].
Qed.

Lemma SFleb_of_compare x y c :
  SFcompare x y = Some c ->
  SFleb x y = match c with Gt => false | _ => true end
  /\ SFleb y x = match c with Lt => false | _ => true end.
Proof.
  intros H. unfold SFleb. rewrite (Float64Facts.SFcompare_antisym x y), H.
  destruct c; split; reflexivity.
Qed.

Lemma ge0_accept v x :
  number_of v = Some x -> well_formed v = true -> nonneg (num_cmpZ v 0) ->
  validate_value (TFloat (Some 0) None) v = Ok (PFloat x).
Proof.
  intros Hn Hw Hc. cbn [validate_value]. rewrite (as_float_number _ _ Hn).
  destruct (number_compare _ _ Hn Hw) as [H0 _]. unfold check_bounds.
  destruct Hc as [Hc|Hc]; rewrite Hc in H0;
    destruct (SFleb_of_compare _ _ _ H0) as [_ ->]; reflexivity.
Qed.

Lemma ge0_reject v le :
  well_formed v = true -> num_cmpZ v 0 = Some Lt ->
  exists e, validate_value (TFloat (Some 0) le) v = fail e.
Proof.
  intros Hw Hc. cbn [validate_value].
  destruct (number_cases _ _ _ Hc) as [[x Hn] | (z & -> & Hz)].
  - rewrite (as_float_number _ _ Hn).
    destruct (number_compare _ _ Hn Hw) as [H0 _]. rewrite Hc in H0.
    destruct (SFleb_of_compare _ _ _ H0) as [_ E]. unfold check_bounds.
    destruct le as [b|]; [destruct (SFleb x (Float64.Z2SF b)); [|eexists; reflexivity]|];
      rewrite E; eexists; reflexivity.
  - cbn. rewrite Hz. eexists; reflexivity.
Qed.

Lemma le100_reject v :
  well_formed v = true -> num_cmpZ v 100 = Some Gt ->
  exists e, validate_value (TFloat (Some 0) (Some 100)) v = fail e.
Proof.
  intros Hw Hc. cbn [validate_value].
  destruct (number_cases _ _ _ Hc) as [[x Hn] | (z & -> & Hz)].
  - rewrite (as_float_number _ _ Hn).
    destruct (number_compare _ _ Hn Hw) as [_ H100]. rewrite Hc in H100.
    destruct (SFleb_of_compare _ _ _ H100) as [E _]. unfold check_bounds.
    rewrite E. eexists; reflexivity.
  - cbn. rewrite Hz. eexists; reflexivity.
Qed.

Lemma range_accept v :
  well_formed v = true -> nonneg (num_cmpZ v 0) -> at_most (num_cmpZ v 100) ->
  exists x, number_of v = Some x
            /\ validate_value (TFloat (Some 0) (Some 100)) v = Ok (PFloat x).
Proof.
  intros Hw H0 H100.
  assert (Hn : exists x, number_of v = Some x).
  { assert (Hc : exists c, num_cmpZ v 0 = Some c) by (destruct H0 as [H|H]; eauto).
    destruct Hc as [c Hc].
    destruct (number_cases _ _ _ Hc) as [Hx | (z & -> & Hz)]; [exact Hx|].
    exfalso. cbn in H0, H100.
    assert (Hz0 : 0 <= z).
    { destruct H0 as [H|H]; injection H as H;
        [apply Z.compare_eq in H | rewrite Z.compare_gt_iff in H]; lia. }
    assert (Hz100 : z <= 100).
    { destruct H100 as [H|H]; injection H as H;
        [rewrite Z.compare_lt_iff in H | apply Z.compare_eq in H]; lia. }
    destruct (@Float64Facts.int_as_float_small z) as [x Hx]; [|congruence].
    change (2 ^ 53) with 9007199254740992. lia. }
  destruct Hn as [x Hn]. exists x. split; [exact Hn|].
  cbn [validate_value]. rewrite (as_float_number _ _ Hn).
  destruct (number_compare _ _ Hn Hw) as [E0 E100]. unfold check_bounds.
  assert (Hle : SFleb x (Float64.Z2SF 100) = true).
  { destruct H100 as [H|H]; rewrite H in E100;
      destruct (SFleb_of_compare _ _ _ E100) as [-> _]; reflexivity. }
  assert (Hge : SFleb (Float64.Z2SF 0) x = true).
  { destruct H0 as [H|H]; rewrite H in E0;
      destruct (SFleb_of_compare _ _ _ E0) as [_ ->]; reflexivity. }
  rewrite Hle, Hge. reflexivity.
Qed.

(** An int out of the range of float is no float. *)
Lemma huge_int_reject ge le z :
  Float64.int_as_float z = None ->
  validate_value (TFloat ge le) (PInt z) = fail float_type.
Proof. intros H. cbn. rewrite H. reflexivity. Qed.

End Numbers.

(** ** Models *)

Lemma Forall2_impl_In {A B} (P Q : A -> B -> Prop) l l' :
  Forall2 P l l' -> (forall x y, In x l -> P x y -> Q x y) -> Forall2 Q l l'.
Proof.
  intros H. induction H as [|x y l l' Hxy _ IH]; intros HPQ; constructor.
  - apply HPQ; [left; reflexivity | exact Hxy].
  - apply IH. intros a b Ha. apply HPQ. right; exact Ha.
Qed.

Lemma both_Err_In {A B C} (f : A -> B -> C) a b es e :
  both f a b = ValidationError es -> In e es ->
  (exists ea, a = ValidationError ea /\ In e ea)
  \/ (exists eb, b = ValidationError eb /\ In e eb).
Proof.
  destruct a as [x|ea], b as [y|eb]; cbn; try discriminate; intros [= <-] Hi; eauto.
  apply in_app_or in Hi as [Hi|Hi]; eauto.
Qed.

Section Models.
Context {L : Library}.

Lemma validate_fields_Ok_inv fs d r :
  validate_fields fs d = Ok r ->
  Forall2 (fun f kv => fst kv = fname f /\ validate_field d f = Ok (snd kv)) fs r.
Proof.
  revert r. induction fs as [|g fs IH]; intros r H; cbn [validate_fields] in H.
  - injection H as <-. constructor.
  - apply both_Ok_inv in H as (x & y & Hx & Hy & ->).
    destruct (validate_field d g) as [v|] eqn:E; [|discriminate].
    cbn in Hx. injection Hx as <-.
    constructor; [split; [reflexivity | exact E] | apply IH, Hy].
Qed.

(** *** The instance meets the model *)

Lemma validate_field_satisfies d f v :
  email_normal L -> floats_bounded (ftyp f) = true -> default_ok f = true ->
  validate_field d f = Ok v -> satisfies (ftyp f) v = true.
Proof.
  intros Hn Hb Hd. unfold validate_field, default_ok, default_value in *.
  destruct (dict_get (fname f) d) as [w|].
  - destruct (validate_value (ftyp f) w) as [v'|] eqn:E; cbn; [|discriminate].
    intros [= <-]. eapply validate_value_satisfies; eassumption.
  - destruct (fdefault f); [discriminate | |]; intros [= <-]; exact Hd.
Qed.

Lemma validate_fields_attrs_ok fs d r :
  email_normal L ->
  forallb (fun f => floats_bounded (ftyp f) && default_ok f) fs = true ->
  validate_fields fs d = Ok r -> attrs_ok fs r = true.
Proof.
  intros Hn Hd H. apply validate_fields_Ok_inv in H.
  induction H as [|f [k v] fs r [Hk Hv] _ IH]; [reflexivity|].
  cbn in Hd. apply andb_true_iff in Hd as [Hf Hd]. apply andb_true_iff in Hf as [Hb Hf].
  cbn in Hk, Hv. subst k. cbn [attrs_ok].
  rewrite String.eqb_refl, (validate_field_satisfies _ _ _ Hn Hb Hf Hv). cbn.
  apply IH, Hd.
Qed.

(** *** The errors name fields *)

Lemma validate_field_errors d f es :
  validate_field d f = ValidationError es ->
  es <> [] /\ forall e, In e es -> exists rest, loc e = LKey (fname f) :: rest.
Proof.
  unfold validate_field. destruct (dict_get (fname f) d) as [w|].
  - destruct (validate_value (ftyp f) w) as [v'|es'] eqn:E; cbn; [discriminate|].
    intros [= <-]. split.
    + intros E'. apply map_eq_nil in E'. revert E'.
      eapply validate_value_shape; exact E.
    + intros e He. apply in_map_iff in He as (e' & <- & _). eexists; reflexivity.
  - destruct (fdefault f); try discriminate. intros [= <-]. split; [discriminate|].
    intros e [<-|[]]. eexists; reflexivity.
Qed.

Lemma validate_fields_named m d es :
  validate_fields (fields m) d = ValidationError es ->
  es <> [] /\ forallb (names_field m) es = true.
Proof.
  intros H. split.
  - revert es H. induction (fields m) as [|g fs IH]; intros es H; [discriminate|].
    cbn [validate_fields] in H. eapply both_nonempty; [| |exact H].
    + intros ea Hea. destruct (validate_field d g) as [v|eg] eqn:E; [discriminate|].
      cbn in Hea. injection Hea as <-. eapply validate_field_errors; exact E.
    + intros eb. apply IH.
  - apply forallb_forall. intros e He.
    destruct (validate_fields_errors _ _ _ H e He) as (f & es' & Hf & Hv & Hi).
    apply validate_field_errors in Hv as [_ Hv]. destruct (Hv e Hi) as [rest Hl].
    unfold names_field. rewrite Hl. apply existsb_exists.
    exists f. split; [exact Hf | apply String.eqb_refl].
Qed.

(** *** What the errors say *)

Lemma validate_items_error vt j l es e :
  validate_items vt j l = ValidationError es -> In e es ->
  exists i x ev e0, nth_error l i = Some x /\ vt x = ValidationError ev
                    /\ In e0 ev /\ e = at_loc (LIndex (j + i)) e0.
Proof.
  revert j es. induction l as [|x l IH]; intros j es H Hi; [discriminate|].
  cbn [validate_items] in H.
  destruct (both_Err_In _ _ _ _ _ H Hi) as [(ea & Ha & Hia) | (eb & Hb & Hib)].
  - destruct (vt x) as [y|ev] eqn:Ex; cbn in Ha; [discriminate|].
    injection Ha as <-. apply in_map_iff in Hia as (e0 & <- & Hi0).
    exists 0%nat, x, ev, e0. rewrite Nat.add_0_r. auto.
  - destruct (IH _ _ Hb Hib) as (i & y & ev & e0 & Hn & Hv & Hi0 & ->).
    exists (S i), y, ev, e0. rewrite Nat.add_succ_r. auto.
Qed.

Lemma validate_entries_error vt kvs es e :
  validate_entries vt kvs = ValidationError es -> In e es ->
  exists k x ev e0, In (k, x) kvs /\ vt x = ValidationError ev
                    /\ In e0 ev /\ e = at_loc (LKey k) e0.
Proof.
  revert es. induction kvs as [|[k x] l IH]; intros es H Hi; [discriminate|].
  cbn [validate_entries] in H.
  destruct (both_Err_In _ _ _ _ _ H Hi) as [(ea & Ha & Hia) | (eb & Hb & Hib)].
  - destruct (vt x) as [y|ev] eqn:Ex; cbn in Ha; [discriminate|].
    injection Ha as <-. apply in_map_iff in Hia as (e0 & <- & Hi0).
    exists k, x, ev, e0. cbn. auto.
  - destruct (IH _ Hb Hib) as (k' & y & ev & e0 & Hn & Hv & Hi0 & ->).
    exists k', y, ev, e0. cbn. auto.
Qed.

Lemma fail_In {A} k es e :
  @fail A k = ValidationError es -> In e es -> e = mk_error [] k.
Proof. intros [= <-] [<-|[]]. reflexivity. Qed.

Lemma check_length_error a b s es e :
  check_length a b s = ValidationError es -> In e es ->
  (exists n, a = Some n /\ (String.length s < n)%nat
             /\ e = mk_error [] (string_too_short n))
  \/ (exists n, b = Some n /\ (n < String.length s)%nat
                /\ e = mk_error [] (string_too_long n)).
Proof.
  unfold check_length. intros H Hi.
  destruct a as [a|];
    [destruct (Nat.ltb_spec (String.length s) a) as [Ha|Ha];
     [left; exists a; split; [reflexivity | split; [exact Ha | exact (fail_In _ _ _ H Hi)]]|]|];
    (destruct b as [b|]; [|discriminate];
     destruct (Nat.ltb_spec b (String.length s)) as [Hb|Hb]; [|discriminate];
     right; exists b; split; [reflexivity | split; [exact Hb | exact (fail_In _ _ _ H Hi)]]).
Qed.

Lemma http_url_error s es e :
  http_url s = ValidationError es -> In e es ->
  ((2083 < utf8_length s)%nat /\ e = mk_error [] (url_too_long 2083))
  \/ (parse_url s = None /\ e = mk_error [] url_parsing)
  \/ (exists u, parse_url s = Some u /\ scheme_of u <> "http"
                 /\ scheme_of u <> "https" /\ e = mk_error [] url_scheme).
Proof.
  unfold http_url. intros H Hi.
  destruct (Nat.ltb_spec 2083 (utf8_length s)) as [Hl|Hl];
    [left; split; [exact Hl | exact (fail_In _ _ _ H Hi)]|].
  destruct (parse_url s) as [u|];
    [|right; left; split; [reflexivity | exact (fail_In _ _ _ H Hi)]].
  destruct (existsb (String.eqb (scheme_of u)) ["http"; "https"]) eqn:E; [discriminate|].
  right; right. exists u. split; [reflexivity|].
  cbn in E. apply orb_false_iff in E as [E1 E2]. apply orb_false_iff in E2 as [E2 _].
  apply String.eqb_neq in E1, E2. pose proof (fail_In _ _ _ H Hi). auto.
Qed.

Lemma check_bounds_error ge le x es e :
  check_bounds ge le x = ValidationError es -> In e es ->
  (exists b, le = Some b /\ SFleb x (Float64.Z2SF b) = false
             /\ e = mk_error [] (less_than_equal b))
  \/ (exists a, ge = Some a /\ SFleb (Float64.Z2SF a) x = false
                /\ e = mk_error [] (greater_than_equal a)).
Proof.
  unfold check_bounds. intros H Hi.
  destruct le as [b|];
    [destruct (SFleb x (Float64.Z2SF b)) eqn:Eb;
     [|left; exists b; split; [reflexivity | split; [exact Eb | exact (fail_In _ _ _ H Hi)]]]|];
    (destruct ge as [a|]; [|discriminate];
     destruct (SFleb (Float64.Z2SF a) x) eqn:Ea; [discriminate|];
     right; exists a; split; [reflexivity | split; [exact Ea | exact (fail_In _ _ _ H Hi)]]).
Qed.

Lemma as_float_error v es e :
  as_float v = ValidationError es -> In e es ->
  (e = mk_error [] float_type /\ number_of v = None
   /\ match v with PFloat _ | PStr _ => False | _ => True end)
  \/ (e = mk_error [] float_parsing /\ exists s, v = PStr s /\ lax_float v = None).
Proof.
  intros H Hi. destruct v; cbn in H;
    try (destruct (lax_float _) eqn:El; [discriminate|]);
    try discriminate.
  - left. split; [exact (fail_In _ _ _ H Hi) | split; [reflexivity | exact I]].
  - left. split; [exact (fail_In _ _ _ H Hi) | split; [reflexivity | exact I]].
  - destruct (Float64.int_as_float z) eqn:Ez; [discriminate|].
    left. split; [exact (fail_In _ _ _ H Hi) | split; [exact Ez | exact I]].
  - right. split; [exact (fail_In _ _ _ H Hi) | eauto].
  - left. split; [exact (fail_In _ _ _ H Hi) | split; [reflexivity | exact I]].
  - left. split; [exact (fail_In _ _ _ H Hi) | split; [reflexivity | exact I]].
  - left. split; [exact (fail_In _ _ _ H Hi) | split; [reflexivity | exact I]].
  - left. split; [exact (fail_In _ _ _ H Hi) | split; [reflexivity | exact I]].
Qed.

(** An error leads, by its path, to a value that does not meet the
    constraint its kind names. *)
Lemma validate_value_reports t :
  forall v es e, validate_value t v = ValidationError es -> In e es ->
  exists t' v', at_path t v (loc e) t' v' /\ violated (kind e) t' v'.
Proof.
  induction t as [a b| | |cs|ge le| | |t IH|t IH|t IH|]; intros v es e H Hi.
  - exists (TStr a b), v. cbn [validate_value] in H.
    destruct v; try (rewrite (fail_In _ _ _ H Hi); split; [constructor|];
                     cbn; split; [left; eauto | exact I]).
    destruct (check_length_error _ _ _ _ _ H Hi) as [(n & -> & Hn & ->) | (n & -> & Hn & ->)];
      (split; [constructor | cbn; eauto]).
  - exists TEmailStr, v. cbn [validate_value] in H.
    destruct v; try (rewrite (fail_In _ _ _ H Hi); split; [constructor|];
                     cbn; split; [right; reflexivity | exact I]).
    destruct (validate_email s) eqn:E; [discriminate|].
    rewrite (fail_In _ _ _ H Hi). split; [constructor | cbn; eauto].
  - exists THttpUrl, v. cbn [validate_value] in H.
    destruct v; try (rewrite (fail_In _ _ _ H Hi); split; [constructor|];
                     cbn; split; [reflexivity | exact I]); try discriminate.
    destruct (http_url s) as [u|eu] eqn:E; [discriminate|]. injection H as <-.
    destruct (http_url_error _ _ _ E Hi) as [[Hl ->] | [[Hp ->] | (u & Hp & H1 & H2 & ->)]];
      (split; [constructor | cbn; eauto 8]).
  - exists (TLiteral cs), v. cbn [validate_value] in H.
    destruct v; try (rewrite (fail_In _ _ _ H Hi); split; [constructor|];
                     cbn; split; [reflexivity | intros ? [=]]).
    destruct (existsb (String.eqb s) cs) eqn:E; [discriminate|].
    rewrite (fail_In _ _ _ H Hi). split; [constructor|]. cbn. split; [reflexivity|].
    intros s' [= <-] Hin. apply existsb_eqb_In in Hin. congruence.
  - exists (TFloat ge le), v. cbn [validate_value] in H.
    destruct (as_float v) as [x|ef] eqn:E.
    + destruct (check_bounds_error _ _ _ _ _ H Hi) as [(b & -> & Hb & ->) | (a & -> & Ha & ->)];
        (split; [constructor | cbn; eauto 8]).
    + injection H as <-.
      destruct (as_float_error _ _ _ E Hi) as [(-> & Hn & Hv) | (-> & Hs)];
        (split; [constructor | cbn; eauto 8]).
  - exists TBool, v.
    destruct (validate_bool_cases v) as [[b E] | (k & E & Hk & Hv)]; rewrite E in H;
      [discriminate|].
    rewrite (fail_In _ _ _ H Hi). split; [constructor|].
    destruct Hk as [->| ->]; cbn; auto.
  - exists TDatetime, v.
    destruct (validate_datetime_cases v) as [[b E] | (k & E & Hk & Hv)]; rewrite E in H;
      [discriminate|].
    rewrite (fail_In _ _ _ H Hi). split; [constructor|].
    destruct Hk as [->|[->| ->]]; cbn; auto.
  - cbn [validate_value] in H.
    destruct v; try discriminate;
      (destruct (IH _ _ _ H Hi) as (t' & v' & Hp & Hv); exists t', v';
       split; [apply at_some; [discriminate | exact Hp] | exact Hv]).
  - cbn [validate_value] in H.
    destruct v; try (exists (TList t); eexists; rewrite (fail_In _ _ _ H Hi);
                     split; [constructor | cbn; split; [eauto | exact I]]).
    destruct (validate_items (validate_value t) 0 l) as [l'|el] eqn:E; [discriminate|].
    injection H as <-.
    destruct (validate_items_error _ _ _ _ _ E Hi) as (i & x & ev & e0 & Hn & Hx & Hi0 & ->).
    destruct (IH _ _ _ Hx Hi0) as (t' & v' & Hp & Hv). exists t', v'.
    split; [cbn; apply at_item with (x := x); assumption | exact Hv].
  - cbn [validate_value] in H.
    destruct v; try (exists (TDict t); eexists; rewrite (fail_In _ _ _ H Hi);
                     split; [constructor | cbn; split; [eauto | exact I]]).
    destruct (validate_entries (validate_value t) kvs) as [l'|el] eqn:E; [discriminate|].
    injection H as <-.
    destruct (validate_entries_error _ _ _ _ E Hi) as (k & x & ev & e0 & Hn & Hx & Hi0 & ->).
    destruct (IH _ _ _ Hx Hi0) as (t' & v' & Hp & Hv). exists t', v'.
    split; [cbn; apply at_entry with (x := x); assumption | exact Hv].
  - exists TAnyDict, v. cbn [validate_value] in H.
    destruct v; try (rewrite (fail_In _ _ _ H Hi); split; [constructor|];
                     cbn; split; [right; reflexivity | exact I]).
    discriminate.
Qed.

Lemma validate_fields_reports m d es :
  validate_fields (fields m) d = ValidationError es ->
  forall e, In e es -> reports m d e.
Proof.
  intros H e He.
  destruct (validate_fields_errors _ _ _ H e He) as (f & es' & Hf & Hv & Hi).
  exists f. split; [exact Hf|]. unfold validate_field in Hv.
  destruct (dict_get (fname f) d) as [w|].
  - destruct (validate_value (ftyp f) w) as [|ev] eqn:Ev; [discriminate|].
    cbn in Hv. injection Hv as <-. apply in_map_iff in Hi as (e0 & <- & Hi0).
    destruct (validate_value_reports _ _ _ _ Ev Hi0) as (t' & v' & Hp & Hk).
    exists (loc e0), t', v'. cbn. auto.
  - destruct (fdefault f); try discriminate. injection Hv as <-.
    destruct Hi as [<-|[]]. split; reflexivity.
Qed.

Lemma model_all_or_nothing m d :
  email_normal L ->
  forallb (fun f => floats_bounded (ftyp f) && default_ok f) (fields m) = true ->
  all_or_nothing m d.
Proof.
  intros Hn Hd. unfold all_or_nothing, model_validate.
  destruct (validate_fields (fields m) d) as [r|es] eqn:E.
  - left. eexists; split; [reflexivity|]. unfold instance_ok; cbn [cls attrs].
    rewrite String.eqb_refl. cbn. eapply validate_fields_attrs_ok; eassumption.
  - right. exists es. split; [reflexivity|]. split.
    + eapply validate_fields_named; exact E.
    + apply validate_fields_reports, E.
Qed.

(** *** The round trip *)

Lemma find_field_self fs f :
  NoDup (map fname fs) -> In f fs ->
  find (fun g => String.eqb (fname f) (fname g)) fs = Some f.
Proof.
  induction fs as [|a fs IH]; cbn; intros Hnd Hin; [destruct Hin|].
  inversion Hnd as [|? ? Hnot Hnd']; subst.
  destruct (String.eqb_spec (fname f) (fname a)) as [E|E].
  - destruct Hin as [->|Hin]; [reflexivity|].
    exfalso. apply Hnot. rewrite <- E. apply in_map, Hin.
  - destruct Hin as [->|Hin]; [contradiction | apply IH; assumption].
Qed.

Lemma attr_of_field fs d r f v :
  NoDup (map fname fs) -> validate_fields fs d = Ok r -> In f fs ->
  validate_field d f = Ok v -> dict_get (fname f) r = Some v.
Proof.
  intros Hnd Hr Hf Hv. rewrite (dict_get_validated _ _ _ (fname f) Hr).
  rewrite (find_field_self _ _ Hnd Hf), Hv. reflexivity.
Qed.

Lemma field_given_valid d f :
  email_normal L -> field_given d f = true -> exists v, validate_field d f = Ok v.
Proof.
  intros Hn. unfold field_given, validate_field.
  destruct (dict_get (fname f) d) as [w|].
  - intros H. destruct (satisfies_validates _ Hn _ H) as (v & -> & _).
    eexists; reflexivity.
  - destruct (fdefault f); [discriminate | |]; intros _; eexists; reflexivity.
Qed.

Lemma field_round_trip d f v :
  email_normal L -> plain (ftyp f) = true -> default_stable f = true ->
  field_given d f = true -> validate_field d f = Ok v ->
  exists v2, validate_value (ftyp f) v = Ok v2 /\ py_eq v2 v = true.
Proof.
  intros Hn Hp Hs. unfold field_given, validate_field, default_stable, default_value in *.
  destruct (dict_get (fname f) d) as [w|].
  - intros Hg H. destruct (satisfies_validates _ Hn _ Hg) as (v' & Hv' & Hs').
    rewrite Hv' in H. cbn in H. injection H as <-.
    exists v'. split; [exact (validate_value_fix _ Hn _ _ Hv')|].
    exact (satisfies_py_eq _ Hp _ Hs').
  - intros _ H.
    destruct (fdefault f) as [|w|g]; [discriminate | |]; injection H as <-.
    + destruct (validate_value (ftyp f) w) as [v2|]; [eauto | discriminate].
    + destruct (validate_value (ftyp f) (call g)) as [v2|]; [eauto | discriminate].
Qed.

Lemma revalidate R fs r :
  Forall2 (fun f kv => fst kv = fname f
                       /\ exists v2, validate_field R f = Ok v2
                                     /\ py_eq v2 (snd kv) = true) fs r ->
  exists r2, validate_fields fs R = Ok r2 /\ fields_eq r2 r = true.
Proof.
  intros H. induction H as [|f [k v] fs r [Hk (v2 & Hv & He)] _ (r2 & Hr & Hq)].
  - exists []. split; reflexivity.
  - cbn in Hk, He. subst k. exists ((fname f, v2) :: r2). split.
    + cbn [validate_fields]. rewrite Hv, Hr. reflexivity.
    + cbn [fields_eq]. rewrite String.eqb_refl, He, Hq. reflexivity.
Qed.

(** A value given in the form an instance holds is equal to what
    validation yields. *)
Lemma held_py_eq t :
  plain t = true ->
  forall v w, satisfies t v = true -> held t v = true ->
              validate_value t v = Ok w -> py_eq w v = true.
Proof.
  induction t as [a b| | |cs|ge le| | |t IH|t IH|t IH|]; intros Hp v w Hs Hh H;
    cbn [plain] in Hp; try discriminate.
  - cbn [validate_value satisfies] in *. destruct v; try discriminate.
    apply check_length_Ok in H as [-> _]. apply String.eqb_refl.
  - cbn [validate_value satisfies held] in *. destruct v; try discriminate.
    destruct (validate_email s) as [s'|]; [|discriminate]. injection H as <-. exact Hh.
  - cbn [validate_value satisfies held] in *. destruct v; try discriminate.
    injection H as <-. apply String.eqb_refl.
  - cbn [validate_value satisfies] in *. destruct v; try discriminate.
    rewrite Hs in H. injection H as <-. apply String.eqb_refl.
  - cbn [validate_value satisfies held] in *.
    destruct (number_of v) as [x|] eqn:E; [|discriminate].
    rewrite (as_float_number _ _ E) in H.
    apply check_bounds_Ok in H as [-> _].
    destruct v; try discriminate; cbn in E.
    + unfold Float64.int_as_float in E. cbn [py_eq as_number].
      destruct (Float64.Z2SF z) eqn:Ez; try discriminate;
        injection E as <-; exact Hh.
    + destruct (Float64.is_nan f) eqn:En; [discriminate|]. injection E as <-.
      cbn. apply Float64Facts.SFeqb_refl. exact En.
  - cbn [validate_value satisfies] in *. destruct v; try discriminate.
    injection H as <-. cbn. apply Z.eqb_refl.
  - cbn [validate_value satisfies] in *. destruct v; try discriminate.
    injection H as <-. apply datetime_eqb_refl.
  - cbn [validate_value satisfies held] in *.
    destruct v; try (injection H as <-; reflexivity); eapply (IH Hp); eassumption.
  - cbn [validate_value satisfies held] in *. destruct v; try discriminate.
    destruct (validate_items (validate_value t) 0 l) as [l'|] eqn:E; [|discriminate].
    injection H as <-. apply validate_items_Ok in E. cbn [py_eq].
    induction E as [|x y l l' Hxy _ IHl]; [reflexivity|].
    cbn in Hs, Hh. apply andb_true_iff in Hs as [Hs1 Hs2].
    apply andb_true_iff in Hh as [Hh1 Hh2].
    rewrite (IH Hp _ _ Hs1 Hh1 Hxy). cbn. apply IHl; assumption.
  - cbn [validate_value satisfies held] in *. destruct v; try discriminate.
    destruct (validate_entries (validate_value t) kvs) as [l'|] eqn:E; [|discriminate].
    injection H as <-. apply validate_entries_Ok in E. cbn [py_eq].
    induction E as [|[k x] [k' y] l l' [Hk Hxy] _ IHl]; [reflexivity|].
    cbn in Hs, Hh, Hk, Hxy. subst k'. apply andb_true_iff in Hs as [Hs1 Hs2].
    apply andb_true_iff in Hh as [Hh1 Hh2].
    rewrite String.eqb_refl, (IH Hp _ _ Hs1 Hh1 Hxy). cbn. apply IHl; assumption.
Qed.

Lemma model_round_trip m d :
  email_normal L -> NoDup (map fname (fields m)) ->
  forallb (fun f => plain (ftyp f) && default_stable f) (fields m) = true ->
  document_ok m d = true -> round_trips m d.
Proof.
  intros Hn Hnd Hm Hd. unfold document_ok in Hd.
  rewrite forallb_forall in Hm, Hd.
  destruct (validate_fields_all_ok (fields m) d) as [r Hr].
  { intros f Hf. apply field_given_valid; auto. }
  exists (mk_instance (mname m) r). split; [unfold model_validate; rewrite Hr; reflexivity|].
  unfold model_dump; cbn [attrs]. split.
  - intros f v Hf Hv Hh. cbn [attrs].
    specialize (Hm f Hf). apply andb_true_iff in Hm as [Hp _].
    specialize (Hd f Hf). unfold field_given in Hd. rewrite Hv in Hd.
    destruct (satisfies_validates _ Hn _ Hd) as (w & Hw & _).
    exists w. split; [|exact (held_py_eq _ Hp _ _ Hd Hh Hw)].
    apply (attr_of_field _ d _ _ _ Hnd Hr Hf).
    unfold validate_field. rewrite Hv, Hw. reflexivity.
  - destruct (revalidate r (fields m) r) as (r2 & Hr2 & He).
    { eapply Forall2_impl_In; [apply validate_fields_Ok_inv, Hr|].
      intros f [k v] Hf [Hk Hv]. cbn in Hk, Hv. subst k. split; [reflexivity|]. cbn [snd].
      specialize (Hm f Hf). apply andb_true_iff in Hm as [Hp Hs].
      destruct (field_round_trip d f v Hn Hp Hs (Hd f Hf) Hv) as (v2 & Hv2 & He).
      exists v2. split; [|exact He].
      unfold validate_field. rewrite (dict_get_validated _ _ _ (fname f) Hr).
      rewrite (find_field_self _ _ Hnd Hf), Hv, Hv2. reflexivity. }
    exists (mk_instance (mname m) r2). split; [unfold model_validate; rewrite Hr2; reflexivity|].
    unfold instance_eq; cbn [cls attrs]. rewrite String.eqb_refl, He. reflexivity.
Qed.

End Models.

(** ** The store *)

Lemma val_closed_mono n n' v : (n <= n')%nat -> val_closed n v -> val_closed n' v.
Proof. destruct v; cbn; auto. lia. Qed.

Lemma obj_closed_mono n n' o : (n <= n')%nat -> obj_closed n o -> obj_closed n' o.
Proof.
  intros Hn. destruct o; cbn; apply Forall_impl; intros a; apply val_closed_mono, Hn.
Qed.

Lemma wf_alloc h o : wf_heap h -> obj_closed (List.length h) o -> wf_heap (h ++ [o]).
Proof.
  intros Hw Ho r o' Hr. rewrite length_app. cbn [List.length].
  destruct (Nat.lt_ge_cases r (List.length h)) as [Hlt|Hge].
  - rewrite nth_error_app1 in Hr by exact Hlt.
    eapply obj_closed_mono; [|exact (Hw _ _ Hr)]. lia.
  - rewrite nth_error_app2 in Hr by exact Hge.
    destruct (r - List.length h)%nat as [|k] eqn:E; cbn in Hr.
    + injection Hr as <-. eapply obj_closed_mono; [|exact Ho]. lia.
    + destruct k; discriminate.
Qed.

Lemma shallow_app h n v :
  val_closed (List.length h) v -> shallow (h ++ n) v = shallow h v.
Proof.
  destruct v; cbn; try reflexivity. intros Hr. rewrite nth_error_app1 by exact Hr.
  reflexivity.
Qed.

Lemma read_as_app t :
  forall h n v, wf_heap h -> val_closed (List.length h) v ->
                read_as t (h ++ n) v = read_as t h v.
Proof.
  induction t as [a b| | |cs|ge le| | |t IH|t IH|t IH|]; intros h n v Hw Hv;
    cbn [read_as]; try (apply shallow_app; exact Hv).
  - apply IH; assumption.
  - destruct v; try reflexivity. cbn in Hv. rewrite nth_error_app1 by exact Hv.
    destruct (nth_error h r) as [[l|kvs]|] eqn:E;
      try (change (shallow (h ++ n) (HRef r) = shallow h (HRef r));
           apply shallow_app; exact Hv).
    f_equal. apply map_ext_in. intros x Hx. apply IH; [exact Hw|].
    pose proof (Hw _ _ E) as Ho. cbn in Ho. rewrite Forall_forall in Ho. exact (Ho _ Hx).
  - destruct v; try reflexivity. cbn in Hv. rewrite nth_error_app1 by exact Hv.
    destruct (nth_error h r) as [[l|kvs]|] eqn:E;
      try (change (shallow (h ++ n) (HRef r) = shallow h (HRef r));
           apply shallow_app; exact Hv).
    f_equal. apply map_ext_in. intros x Hx. f_equal. apply IH; [exact Hw|].
    pose proof (Hw _ _ E) as Ho. cbn in Ho. rewrite Forall_forall in Ho. exact (Ho _ Hx).
  - destruct v; try reflexivity. cbn in Hv. rewrite nth_error_app1 by exact Hv.
    destruct (nth_error h r) as [[l|kvs]|] eqn:E;
      try (change (shallow (h ++ n) (HRef r) = shallow h (HRef r));
           apply shallow_app; exact Hv).
    f_equal. apply map_ext_in. intros x Hx. f_equal. apply shallow_app.
    pose proof (Hw _ _ E) as Ho. cbn in Ho. rewrite Forall_forall in Ho. exact (Ho _ Hx).
Qed.

(** A value that is no reference is read as it is. *)
Lemma read_as_data t h v : is_ref v = false -> read_as t h v = shallow h v.
Proof.
  intros Hv. induction t; cbn [read_as]; try reflexivity; try exact IHt;
    destruct v; try reflexivity; discriminate.
Qed.

(** A new, empty object is read as empty, whatever the declaration. *)
Lemma read_as_empty t h o :
  o = OList [] \/ o = ODict [] ->
  read_as t (h ++ [o]) (HRef (List.length h))
  = match o with OList _ => PList [] | ODict _ => PDict [] end.
Proof.
  intros Ho.
  assert (E : nth_error (h ++ [o]) (List.length h) = Some o).
  { rewrite nth_error_app2 by apply Nat.le_refl. rewrite Nat.sub_diag. reflexivity. }
  induction t; cbn [read_as shallow]; try exact IHt; rewrite E;
    destruct Ho as [-> | ->]; reflexivity.
Qed.

Lemma store_data h w :
  is_data w = true ->
  exists w', store h w = (h, w') /\ is_ref w' = false /\ forall h', shallow h' w' = w.
Proof.
  destruct w; try discriminate; intros _; eexists; (split; [reflexivity|]);
    split; reflexivity || (intros; reflexivity).
Qed.

Section StoreFacts.
Context {L : Library}.

(** A scalar validator yields data. *)
Lemma scalar_result t v w :
  is_scalar t = true -> validate_value t v = Ok w -> is_data w = true.
Proof.
  destruct t; try discriminate; intros _ H.
  - cbn [validate_value] in H. destruct v; try discriminate.
    apply check_length_Ok in H as [-> _]. reflexivity.
  - cbn [validate_value] in H. destruct v; try discriminate.
    destruct (validate_email s); [|discriminate]. injection H as <-. reflexivity.
  - cbn [validate_value] in H. destruct v; try discriminate.
    + destruct (http_url s); [|discriminate]. injection H as <-. reflexivity.
    + injection H as <-. reflexivity.
  - cbn [validate_value] in H. destruct v; try discriminate.
    destruct (existsb _ _); [|discriminate]. injection H as <-. reflexivity.
  - cbn [validate_value] in H. destruct (as_float v); [|discriminate].
    apply check_bounds_Ok in H as [-> _]. reflexivity.
  - destruct (validate_bool_cases v) as [[b E] | (k & E & _)]; rewrite E in H;
      [|discriminate]. injection H as <-. reflexivity.
  - destruct (validate_datetime_cases v) as [[b E] | (k & E & _)]; rewrite E in H;
      [|discriminate]. injection H as <-. reflexivity.
Qed.

Section Containers.
Variable vt : heap -> hval -> heap * result hval.
Variable pvt : pyval -> result pyval.
Variable rd : heap -> hval -> pyval.
Hypothesis Hvt : forall h v, wf_heap h -> val_closed (List.length h) v ->
                             refines vt pvt rd h v.
Hypothesis Hrd : forall h n v, wf_heap h -> val_closed (List.length h) v ->
                               rd (h ++ n) v = rd h v.

Lemma hvalidate_items_refines l :
  forall i h, wf_heap h -> Forall (val_closed (List.length h)) l ->
  exists n, fst (hvalidate_items vt i h l) = h ++ n /\ wf_heap (h ++ n)
    /\ match snd (hvalidate_items vt i h l) with
       | Ok l' => Forall (val_closed (List.length (h ++ n))) l'
                  /\ validate_items pvt i (map (rd h) l) = Ok (map (rd (h ++ n)) l')
       | ValidationError es =>
           validate_items pvt i (map (rd h) l) = ValidationError es
       end.
Proof.
  induction l as [|x l IH]; intros i h Hw Hl.
  - exists []. cbn. rewrite app_nil_r. repeat split; auto.
  - inversion Hl as [|? ? Hx Hl']; subst.
    destruct (Hvt h x Hw Hx) as (n1 & E1 & Hw1 & H1).
    cbn [hvalidate_items map validate_items].
    destruct (vt h x) as [h1 r1]. cbn [fst snd] in E1, H1. subst h1.
    assert (Hl1 : Forall (val_closed (List.length (h ++ n1))) l).
    { eapply Forall_impl; [|exact Hl']. intros a. apply val_closed_mono.
      rewrite length_app. lia. }
    destruct (IH (S i) (h ++ n1) Hw1 Hl1) as (n2 & E2 & Hw2 & H2).
    destruct (hvalidate_items vt (S i) (h ++ n1) l) as [h2 r2].
    cbn [fst snd] in E2, H2. subst h2.
    assert (Em : map (rd (h ++ n1)) l = map (rd h) l).
    { apply map_ext_in. intros a Ha. apply Hrd; [exact Hw|].
      rewrite Forall_forall in Hl'. exact (Hl' _ Ha). }
    rewrite Em in H2.
    exists (n1 ++ n2). rewrite app_assoc. cbn [fst snd].
    split; [reflexivity|]. split; [exact Hw2|].
    destruct r1 as [w|e1], r2 as [l'|e2]; cbn [both under].
    + destruct H1 as (Hc & _ & Hp). destruct H2 as (Hc2 & Hp2).
      rewrite Hp, Hp2. cbn. split.
      * constructor; [|exact Hc2]. eapply val_closed_mono; [|exact Hc].
        rewrite !length_app. lia.
      * rewrite (Hrd (h ++ n1) n2 w Hw1 Hc). reflexivity.
    + destruct H1 as (Hc & _ & Hp). rewrite Hp, H2. reflexivity.
    + destruct H2 as (Hc2 & Hp2). rewrite H1, Hp2. reflexivity.
    + rewrite H1, H2. reflexivity.
Qed.

Lemma hvalidate_entries_refines kvs :
  forall h, wf_heap h -> Forall (fun kv => val_closed (List.length h) (snd kv)) kvs ->
  exists n, fst (hvalidate_entries vt h kvs) = h ++ n /\ wf_heap (h ++ n)
    /\ match snd (hvalidate_entries vt h kvs) with
       | Ok l' =>
           Forall (fun kv => val_closed (List.length (h ++ n)) (snd kv)) l'
           /\ validate_entries pvt (map (fun kv => (fst kv, rd h (snd kv))) kvs)
              = Ok (map (fun kv => (fst kv, rd (h ++ n) (snd kv))) l')
       | ValidationError es =>
           validate_entries pvt (map (fun kv => (fst kv, rd h (snd kv))) kvs)
           = ValidationError es
       end.
Proof.
  induction kvs as [|[k x] l IH]; intros h Hw Hl.
  - exists []. cbn. rewrite app_nil_r. repeat split; auto.
  - inversion Hl as [|? ? Hx Hl']; subst. cbn [snd] in Hx.
    destruct (Hvt h x Hw Hx) as (n1 & E1 & Hw1 & H1).
    cbn [hvalidate_entries map validate_entries fst snd].
    destruct (vt h x) as [h1 r1]. cbn [fst snd] in E1, H1. subst h1.
    assert (Hl1 : Forall (fun kv => val_closed (List.length (h ++ n1)) (snd kv)) l).
    { eapply Forall_impl; [|exact Hl']. intros a. apply val_closed_mono.
      rewrite length_app. lia. }
    destruct (IH (h ++ n1) Hw1 Hl1) as (n2 & E2 & Hw2 & H2).
    destruct (hvalidate_entries vt (h ++ n1) l) as [h2 r2].
    cbn [fst snd] in E2, H2. subst h2.
    assert (Em : map (fun kv => (fst kv, rd (h ++ n1) (snd kv))) l
                 = map (fun kv => (fst kv, rd h (snd kv))) l).
    { apply map_ext_in. intros a Ha. f_equal. apply Hrd; [exact Hw|].
      rewrite Forall_forall in Hl'. exact (Hl' _ Ha). }
    rewrite Em in H2.
    exists (n1 ++ n2). rewrite app_assoc. cbn [fst snd].
    split; [reflexivity|]. split; [exact Hw2|].
    destruct r1 as [w|e1], r2 as [l'|e2]; cbn [both under rmap].
    + destruct H1 as (Hc & _ & Hp). destruct H2 as (Hc2 & Hp2).
      rewrite Hp, Hp2. cbn. split.
      * constructor; [|exact Hc2]. cbn. eapply val_closed_mono; [|exact Hc].
        rewrite !length_app. lia.
      * rewrite (Hrd (h ++ n1) n2 w Hw1 Hc). reflexivity.
    + destruct H1 as (Hc & _ & Hp). rewrite Hp, H2. reflexivity.
    + destruct H2 as (Hc2 & Hp2). rewrite H1, Hp2. reflexivity.
    + rewrite H1, H2. reflexivity.
Qed.

End Containers.

Lemma hval_none_dec v : v = HNone \/ v <> HNone.
Proof. destruct v; (left; reflexivity) || (right; discriminate). Qed.

(** A value other than [None] is not read as [None]. *)
Lemma read_as_some t h v :
  v <> HNone -> val_closed (List.length h) v -> read_as t h v <> PNone.
Proof.
  intros Hn Hv. destruct v; try contradiction;
    try (rewrite read_as_data by reflexivity; discriminate).
  cbn in Hv. apply nth_error_Some in Hv.
  induction t; cbn [read_as shallow]; try exact IHt;
    destruct (nth_error h r) as [[l|kvs]|]; try discriminate; contradiction.
Qed.

Lemma refines_data t h v :
  is_scalar t = true -> wf_heap h ->
  refines (hvalidate_value t) (validate_value t) (read_as t) h v.
Proof.
  intros Ht Hw.
  assert (Er : forall h', read_as t h' v = shallow h' v) by (destruct t; try discriminate; reflexivity).
  assert (Ev : hvalidate_value t h v =
               match validate_value t (shallow h v) with
               | Ok w => let '(h1, w') := store h w in (h1, Ok w')
               | ValidationError es => (h, ValidationError es)
               end) by (destruct t; try discriminate; reflexivity).
  exists []. rewrite app_nil_r, Ev, Er.
  destruct (validate_value t (shallow h v)) as [w|es] eqn:E.
  - destruct (store_data h w (scalar_result _ _ _ Ht E)) as (w' & -> & Hr & Hs).
    cbn [fst snd]. split; [reflexivity|]. split; [exact Hw|]. split; [|split].
    + destruct w'; try exact I; discriminate.
    + intros r ->. discriminate.
    + rewrite (read_as_data t h w' Hr), Hs. reflexivity.
  - cbn [fst snd]. auto.
Qed.

(** The validator on the store refines the validator on values. *)
Lemma hvalidate_value_refines t :
  forall h v, wf_heap h -> val_closed (List.length h) v ->
  refines (hvalidate_value t) (validate_value t) (read_as t) h v.
Proof.
  induction t as [a b| | |cs|ge le| | |t IH|t IH|t IH|]; intros h v Hw Hv;
    try (apply refines_data; [reflexivity | exact Hw]).
  - (* Optional *)
    destruct (hval_none_dec v) as [-> | Hn].
    + exists []. rewrite app_nil_r. cbn [hvalidate_value fst snd].
      split; [reflexivity|]. split; [exact Hw|]. split; [exact I|]. split; [intros r [=]|].
      cbn [read_as]. rewrite (read_as_data t h HNone eq_refl). reflexivity.
    + pose proof (IH h v Hw Hv) as H. unfold refines in *.
      replace (hvalidate_value (TOptional t) h v) with (hvalidate_value t h v)
        by (destruct v; try reflexivity; contradiction).
      cbn [read_as].
      replace (validate_value (TOptional t) (read_as t h v))
        with (validate_value t (read_as t h v)); [exact H|].
      pose proof (read_as_some t h v Hn Hv) as Hp. cbn [validate_value].
      destruct (read_as t h v); try reflexivity; contradiction.
  - (* List *)
    unfold refines. cbn [hvalidate_value read_as].
    destruct v;
      try (exists []; rewrite app_nil_r; cbn [fst snd];
           split; [reflexivity | split; [exact Hw | reflexivity]]).
    destruct (nth_error h r) as [[l|kvs]|] eqn:E;
      try (exists []; rewrite app_nil_r; cbn [fst snd shallow]; rewrite E;
           split; [reflexivity | split; [exact Hw | reflexivity]]).
    pose proof (Hw _ _ E) as Hl. cbn in Hl.
    destruct (hvalidate_items_refines _ _ _ IH (read_as_app t) l 0%nat h Hw Hl)
      as (n1 & E1 & Hw1 & H1).
    destruct (hvalidate_items (hvalidate_value t) 0 h l) as [h1 r1].
    cbn [fst snd] in E1, H1. subst h1.
    destruct r1 as [l'|es]; cbn [fst snd alloc].
    + destruct H1 as [Hc Hp]. exists (n1 ++ [OList l']). rewrite app_assoc.
      split; [reflexivity|]. split; [apply wf_alloc; assumption|].
      split; [|split].
      * cbn. rewrite !length_app. cbn. lia.
      * intros r0 [= <-]. rewrite length_app. lia.
      * cbn [validate_value]. rewrite Hp. cbn [rmap read_as].
        rewrite nth_error_app2 by apply Nat.le_refl. rewrite Nat.sub_diag. cbn.
        f_equal. f_equal. apply map_ext_in. intros x Hx. symmetry.
        apply read_as_app; [exact Hw1|]. rewrite Forall_forall in Hc. exact (Hc _ Hx).
    + exists n1. split; [reflexivity|]. split; [exact Hw1|].
      cbn [validate_value]. rewrite H1. reflexivity.
  - (* Dict *)
    unfold refines. cbn [hvalidate_value read_as].
    destruct v;
      try (exists []; rewrite app_nil_r; cbn [fst snd];
           split; [reflexivity | split; [exact Hw | reflexivity]]).
    destruct (nth_error h r) as [[l|kvs]|] eqn:E;
      try (exists []; rewrite app_nil_r; cbn [fst snd shallow]; rewrite E;
           split; [reflexivity | split; [exact Hw | reflexivity]]).
    pose proof (Hw _ _ E) as Hl. cbn in Hl.
    destruct (hvalidate_entries_refines _ _ _ IH (read_as_app t) kvs h Hw Hl)
      as (n1 & E1 & Hw1 & H1).
    destruct (hvalidate_entries (hvalidate_value t) h kvs) as [h1 r1].
    cbn [fst snd] in E1, H1. subst h1.
    destruct r1 as [l'|es]; cbn [fst snd alloc].
    + destruct H1 as [Hc Hp]. exists (n1 ++ [ODict l']). rewrite app_assoc.
      split; [reflexivity|]. split; [apply wf_alloc; assumption|].
      split; [|split].
      * cbn. rewrite !length_app. cbn. lia.
      * intros r0 [= <-]. rewrite length_app. lia.
      * cbn [validate_value]. rewrite Hp. cbn [rmap read_as].
        rewrite nth_error_app2 by apply Nat.le_refl. rewrite Nat.sub_diag. cbn.
        f_equal. f_equal. apply map_ext_in. intros x Hx. f_equal. symmetry.
        apply read_as_app; [exact Hw1|]. rewrite Forall_forall in Hc. exact (Hc _ Hx).
    + exists n1. split; [reflexivity|]. split; [exact Hw1|].
      cbn [validate_value]. rewrite H1. reflexivity.
  - (* bare dict *)
    unfold refines. cbn [hvalidate_value read_as].
    destruct v;
      try (exists []; rewrite app_nil_r; cbn [fst snd];
           split; [reflexivity | split; [exact Hw | reflexivity]]).
    destruct (nth_error h r) as [[l|kvs]|] eqn:E;
      try (exists []; rewrite app_nil_r; cbn [fst snd shallow]; rewrite E;
           split; [reflexivity | split; [exact Hw | reflexivity]]).
    pose proof (Hw _ _ E) as Hl. cbn in Hl.
    exists [ODict kvs]. cbn [fst snd alloc].
    split; [reflexivity|]. split; [apply wf_alloc; assumption|].
    split; [|split].
    + cbn. rewrite length_app. cbn. lia.
    + intros r0 [= <-]. apply Nat.le_refl.
    + cbn [validate_value].
      rewrite nth_error_app2 by apply Nat.le_refl. rewrite Nat.sub_diag. cbn.
      f_equal. f_equal. apply map_ext_in. intros x Hx. f_equal. symmetry.
      apply shallow_app. rewrite Forall_forall in Hl. exact (Hl _ Hx).
Qed.

Lemma hdict_get_closed h d k v :
  doc_closed h d -> hdict_get k d = Some v -> val_closed (List.length h) v.
Proof.
  intros Hd. induction Hd as [|[k' v'] d Hv _ IH]; cbn; [discriminate|].
  destruct (String.eqb k k'); [intros [= <-]; exact Hv | exact IH].
Qed.

Lemma doc_closed_app h n d : doc_closed h d -> doc_closed (h ++ n) d.
Proof.
  apply Forall_impl. intros a. apply val_closed_mono. rewrite length_app. lia.
Qed.

Lemma represents_app fs h n d pd :
  wf_heap h -> doc_closed h d -> represents fs h d pd -> represents fs (h ++ n) d pd.
Proof.
  intros Hw Hd H f Hf. rewrite (H f Hf).
  destruct (hdict_get (fname f) d) as [v|] eqn:E; [|reflexivity].
  cbn. f_equal. symmetry. apply read_as_app; [exact Hw|].
  exact (hdict_get_closed _ _ _ _ Hd E).
Qed.

Lemma hvalidate_field_refines h d pd f :
  wf_heap h -> doc_closed h d -> default_unshared f = true ->
  dict_get (fname f) pd = option_map (read_as (ftyp f) h) (hdict_get (fname f) d) ->
  exists n, fst (hvalidate_field h d f) = h ++ n /\ wf_heap (h ++ n)
    /\ match snd (hvalidate_field h d f) with
       | Ok w => val_closed (List.length (h ++ n)) w
                 /\ (forall r, w = HRef r -> (List.length h <= r)%nat)
                 /\ validate_field pd f = Ok (read_as (ftyp f) (h ++ n) w)
       | ValidationError es => validate_field pd f = ValidationError es
       end.
Proof.
  intros Hw Hd Hu Hg. unfold hvalidate_field, validate_field. rewrite Hg.
  destruct (hdict_get (fname f) d) as [v|] eqn:E; cbn [option_map].
  - destruct (hvalidate_value_refines (ftyp f) h v Hw (hdict_get_closed _ _ _ _ Hd E))
      as (n & E1 & Hw1 & H1).
    destruct (hvalidate_value (ftyp f) h v) as [h1 r1]. cbn [fst snd] in *. subst h1.
    exists n. split; [reflexivity|]. split; [exact Hw1|].
    destruct r1 as [w|es]; cbn [under].
    + destruct H1 as (Hc & Hf & Hp). rewrite Hp. cbn. auto.
    + rewrite H1. reflexivity.
  - unfold default_unshared in Hu. destruct (fdefault f) as [|v|g].
    + exists []. rewrite app_nil_r. cbn. auto.
    + assert (Hv : is_data v = true) by (destruct v; try discriminate; reflexivity).
      destruct (store_data h v Hv) as (w & -> & Hr & Hs).
      exists []. rewrite app_nil_r. cbn [fst snd].
      split; [reflexivity|]. split; [exact Hw|]. split; [|split].
      * destruct w; try exact I; discriminate.
      * intros r ->. discriminate.
      * rewrite (read_as_data _ h w Hr), Hs. reflexivity.
    + assert (Es : exists o, (o = OList [] \/ o = ODict [])
                   /\ store h (call g) = (h ++ [o], HRef (List.length h))
                   /\ call g = match o with OList _ => PList [] | ODict _ => PDict [] end).
      { destruct g; [exists (ODict []) | exists (OList [])]; auto. }
      destruct Es as (o & Ho & -> & Ec). exists [o]. cbn [fst snd].
      split; [reflexivity|]. split; [|split; [|split]].
      * apply wf_alloc; [exact Hw|]. destruct Ho as [-> | ->]; constructor.
      * cbn. rewrite length_app. cbn. lia.
      * intros r [= <-]. apply Nat.le_refl.
      * rewrite (read_as_empty _ h o Ho), Ec. reflexivity.
Qed.

Lemma hvalidate_fields_refines fs :
  forall h d pd, wf_heap h -> doc_closed h d ->
  forallb default_unshared fs = true -> represents fs h d pd ->
  exists n, fst (hvalidate_fields fs h d) = h ++ n /\ wf_heap (h ++ n)
    /\ match snd (hvalidate_fields fs h d) with
       | Ok r =>
           Forall (fun kv => val_closed (List.length (h ++ n)) (snd kv)) r
           /\ (forall k r0, In (k, HRef r0) r -> (List.length h <= r0)%nat)
           /\ validate_fields fs pd = Ok (read_attrs fs (h ++ n) r)
       | ValidationError es => validate_fields fs pd = ValidationError es
       end.
Proof.
  induction fs as [|f fs IH]; intros h d pd Hw Hd Hu Hr.
  - exists []. rewrite app_nil_r. cbn. repeat split; auto. intros k r0 [].
  - cbn in Hu. apply andb_true_iff in Hu as [Hf Hu].
    destruct (hvalidate_field_refines h d pd f Hw Hd Hf (Hr f (or_introl eq_refl)))
      as (n1 & E1 & Hw1 & H1).
    cbn [hvalidate_fields validate_fields].
    destruct (hvalidate_field h d f) as [h1 r1]. cbn [fst snd] in E1, H1. subst h1.
    assert (Hr1 : represents fs (h ++ n1) d pd).
    { apply represents_app; [exact Hw | exact Hd|].
      intros g Hg. apply Hr. right; exact Hg. }
    destruct (IH (h ++ n1) d pd Hw1 (doc_closed_app _ _ _ Hd) Hu Hr1)
      as (n2 & E2 & Hw2 & H2).
    destruct (hvalidate_fields fs (h ++ n1) d) as [h2 r2].
    cbn [fst snd] in E2, H2. subst h2.
    exists (n1 ++ n2). rewrite app_assoc. cbn [fst snd].
    split; [reflexivity|]. split; [exact Hw2|].
    destruct r1 as [w|e1], r2 as [r'|e2]; cbn [both rmap].
    + destruct H1 as (Hc & Hfr & Hp). destruct H2 as (Hc2 & Hfr2 & Hp2).
      rewrite Hp, Hp2. cbn [both rmap read_attrs]. split; [|split].
      * constructor; [|exact Hc2]. cbn. eapply val_closed_mono; [|exact Hc].
        rewrite !length_app. lia.
      * intros k r0 [[= _ ->]|Hin]; [apply Hfr; reflexivity|].
        specialize (Hfr2 _ _ Hin). rewrite length_app in Hfr2. lia.
      * rewrite (read_as_app (ftyp f) (h ++ n1) n2 w Hw1 Hc). reflexivity.
    + destruct H1 as (_ & _ & Hp). rewrite Hp, H2. reflexivity.
    + destruct H2 as (_ & _ & Hp2). rewrite H1, Hp2. reflexivity.
    + rewrite H1, H2. reflexivity.
Qed.

Lemma read_document_represents m h d :
  NoDup (map fname (fields m)) -> represents (fields m) h d (read_document m h d).
Proof.
  intros Hnd f Hf. unfold read_document.
  induction d as [|[k v] d IH]; cbn [map dict_get hdict_get fst snd]; [reflexivity|].
  destruct (String.eqb_spec (fname f) k) as [<-|Hk]; [|exact IH].
  unfold field_of. rewrite (find_field_self _ _ Hnd Hf). reflexivity.
Qed.

(** One validation, against [model_validate] on the document read. *)
Lemma hmodel_validate_refines m h d :
  NoDup (map fname (fields m)) -> forallb default_unshared (fields m) = true ->
  wf_heap h -> doc_closed h d ->
  exists n, fst (hmodel_validate m h d) = h ++ n /\ wf_heap (h ++ n)
    /\ rmap (read_instance m (h ++ n)) (snd (hmodel_validate m h d))
       = model_validate m (read_document m h d)
    /\ forall x, snd (hmodel_validate m h d) = Ok x -> made_from (List.length h) x.
Proof.
  intros Hnd Hu Hw Hd.
  destruct (hvalidate_fields_refines (fields m) h d (read_document m h d) Hw Hd Hu
              (read_document_represents m h d Hnd)) as (n & E & Hw' & H).
  unfold hmodel_validate, model_validate.
  destruct (hvalidate_fields (fields m) h d) as [h1 r]. cbn [fst snd] in *. subst h1.
  exists n. split; [reflexivity|]. split; [exact Hw'|].
  destruct r as [r|es]; cbn [rmap].
  - destruct H as (_ & Hfr & Hp). rewrite Hp. cbn [rmap]. split; [reflexivity|].
    intros x [= <-]. exact Hfr.
  - rewrite H. split; [reflexivity | discriminate].
Qed.

Lemma unique_SchemaInfo : NoDup (map fname (fields SchemaInfo)).
Proof. repeat constructor; cbn; intuition discriminate. Qed.

Lemma all_models_declared m :
  In m all_models ->
  NoDup (map fname (fields m)) /\ forallb default_unshared (fields m) = true.
Proof.
  intros Hm. cbn in Hm. destruct Hm as [<-|[<-|[<-|[<-|[<-|[]]]]]];
    (split; [|reflexivity]);
    auto using unique_SchemaInfo, unique_User, unique_Ebook, unique_Purchase,
      unique_LibraryItem.
Qed.

(** Validations add objects to the store and change none. *)
Lemma hvalidate_all_extends reqs :
  forall h, wf_heap h ->
  Forall (fun md => In (fst md) all_models /\ doc_closed h (snd md)) reqs ->
  exists n, fst (hvalidate_all h reqs) = h ++ n /\ wf_heap (h ++ n).
Proof.
  induction reqs as [|[m d] reqs IH]; intros h Hw Hr.
  - exists []. rewrite app_nil_r. auto.
  - inversion Hr as [|? ? [Hm Hd] Hr']; subst. cbn [fst snd] in Hm, Hd.
    destruct (all_models_declared m Hm) as [Hnd Hu].
    destruct (hmodel_validate_refines m h d Hnd Hu Hw Hd) as (n1 & E1 & Hw1 & _).
    cbn [hvalidate_all]. destruct (hmodel_validate m h d) as [h1 r].
    cbn [fst] in E1. subst h1.
    destruct (IH (h ++ n1) Hw1) as (n2 & E2 & Hw2).
    { eapply Forall_impl; [|exact Hr']. intros [m' d'] [H1 H2].
      split; [exact H1 | apply doc_closed_app, H2]. }
    destruct (hvalidate_all (h ++ n1) reqs) as [h2 rs]. cbn [fst] in *. subst h2.
    exists (n1 ++ n2). rewrite app_assoc. auto.
Qed.

Lemma read_document_app m h n d :
  wf_heap h -> doc_closed h d -> read_document m (h ++ n) d = read_document m h d.
Proof.
  intros Hw Hd. unfold read_document. apply map_ext_in. intros [k v] Hin.
  unfold doc_closed in Hd. rewrite Forall_forall in Hd. specialize (Hd _ Hin).
  cbn [fst snd] in *. f_equal.
  destruct (field_of m k); [apply read_as_app | apply shallow_app]; assumption.
Qed.

End StoreFacts.

(** * The claims *)

Section Claims.
Context {L : Library}.

(** ** Purchase.status *)

(** C2. With the other fields valid, each of the four tokens ["created"],
    ["paid"], ["failed"], ["refunded"] given as [status] yields a Purchase
    whose status is that token; any other string given as [status] is
    rejected, with a [literal_error] reported at [status]. *)
Theorem Purchase_status_tokens (d : pydict) (s : string) :
  (others_valid Purchase "status" d -> In s Sample.status_tokens ->
     accepted_with Purchase (dict_set "status" (PStr s) d) "status" (PStr s))
  /\ (~ In s Sample.status_tokens ->
     rejected_with Purchase (dict_set "status" (PStr s) d)
       (mk_error [LKey "status"] (literal_error Sample.status_tokens))).
Proof.
  split.
  - intros Ho Hin. eapply set_accepted; [auto with models | reflexivity | exact Ho |].
    apply validate_literal_in, Hin.
  - intros Hn. eapply set_rejected; [reflexivity|].
    apply validate_literal_notin, Hn.
Qed.

(** ** User.name *)

(** C4. With the other fields valid, a name of 2 to 120 characters is
    accepted as it is; a shorter one (length 1) is rejected with
    [string_too_short], a longer one (length 121) with [string_too_long]. *)
Theorem User_name_bounds (d : pydict) (s : string) :
  (others_valid User "name" d ->
     (2 <= String.length s <= 120)%nat ->
     accepted_with User (dict_set "name" (PStr s) d) "name" (PStr s))
  /\ ((String.length s < 2)%nat ->
     rejected_with User (dict_set "name" (PStr s) d)
       (mk_error [LKey "name"] (string_too_short 2)))
  /\ ((120 < String.length s)%nat ->
     rejected_with User (dict_set "name" (PStr s) d)
       (mk_error [LKey "name"] (string_too_long 120))).
Proof.
  split; [|split].
  - intros Ho [H1 H2]. eapply set_accepted; [auto with models | reflexivity | exact Ho |].
    apply (check_length_within (Some 2%nat) (Some 120%nat)).
    unfold length_within. apply andb_true_iff; split; apply Nat.leb_le; assumption.
  - intros H. eapply set_rejected; [reflexivity|].
    apply (check_length_short 2 (Some 120%nat)), H.
  - intros H. eapply set_rejected; [reflexivity|].
    apply (check_length_long 2 120); lia.
Qed.

(** ** Identifiers *)

(** C10. Every string, the empty one included, is accepted as it is for
    [Purchase.user_id], [Purchase.ebook_id], [LibraryItem.user_id],
    [LibraryItem.ebook_id] and [Ebook.created_by] when the other fields are
    valid.  What is not a string is rejected for the four
    required identifiers with [string_type], and leaving one out is
    reported as [missing]; [created_by] may be left out or be [None]. *)
Theorem identifiers_unconstrained (d : pydict) (s : string) :
  (others_valid Purchase "user_id" d ->
     accepted_with Purchase (dict_set "user_id" (PStr s) d) "user_id" (PStr s))
  /\ (others_valid Purchase "ebook_id" d ->
     accepted_with Purchase (dict_set "ebook_id" (PStr s) d) "ebook_id" (PStr s))
  /\ (others_valid LibraryItem "user_id" d ->
     accepted_with LibraryItem (dict_set "user_id" (PStr s) d) "user_id" (PStr s))
  /\ (others_valid LibraryItem "ebook_id" d ->
     accepted_with LibraryItem (dict_set "ebook_id" (PStr s) d) "ebook_id" (PStr s))
  /\ (others_valid Ebook "created_by" d ->
     accepted_with Ebook (dict_set "created_by" (PStr s) d) "created_by" (PStr s)
     /\ accepted_with Ebook (dict_set "created_by" PNone d) "created_by" PNone
     /\ accepted_with Ebook (dict_del "created_by" d) "created_by" PNone)
  /\ (forall m k, In (m, k) [(Purchase, "user_id"); (Purchase, "ebook_id");
                             (LibraryItem, "user_id"); (LibraryItem, "ebook_id")] ->
      (forall v, (forall t, v <> PStr t) ->
         rejected_with m (dict_set k v d) (mk_error [LKey k] string_type))
      /\ rejected_with m (dict_del k d) (mk_error [LKey k] missing)).
Proof.
  assert (Hset : forall m k f, NoDup (map fname (fields m)) -> field_of m k = Some f ->
                   validate_value (ftyp f) (PStr s) = Ok (PStr s) ->
                   others_valid m k d ->
                   accepted_with m (dict_set k (PStr s) d) k (PStr s)).
  { intros m k f Hnd Hf Hv Ho. eapply set_accepted; eassumption. }
  split; [|split; [|split; [|split; [|split]]]];
    try (eapply Hset; [auto with models | reflexivity | reflexivity]).
  - intros Ho. split; [|split].
    + eapply set_accepted; [auto with models | reflexivity | exact Ho | reflexivity].
    + eapply set_accepted; [auto with models | reflexivity | exact Ho | reflexivity].
    + eapply omitted_accepted;
        [auto with models | reflexivity | apply dict_get_del_eq | | reflexivity].
      intros f Hin Hn. rewrite (validate_field_agree (dict_del "created_by" d) d)
        by (apply dict_get_del_neq; exact Hn). apply Ho; assumption.
  - intros m k H. split.
    + intros v Hv. cbn in H.
      destruct H as [E|[E|[E|[E|[]]]]]; injection E as <- <-;
        (eapply set_rejected; [reflexivity|]);
        destruct v; try reflexivity; exfalso; eapply Hv; reflexivity.
    + cbn in H.
      destruct H as [E|[E|[E|[E|[]]]]]; injection E as <- <-;
      match goal with |- rejected_with ?m (dict_del ?k d) _ =>
        let f := eval cbv in (field_of m k) in
        match f with Some ?f' =>
          destruct (validate_fields_has_error (fields m) (dict_del k d) f'
                      [mk_error [LKey k] missing]) as (es & Hes & Hi);
          [cbn; tauto
          | unfold validate_field; cbn [fname]; rewrite dict_get_del_eq; reflexivity
          | exists es; split;
            [unfold model_validate; rewrite Hes; reflexivity
            | apply Hi; left; reflexivity]]
        end
      end.
Qed.

(** ** Defaults *)

(** C3. A field with a declared default that is left out does not make the
    construction fail: with the other fields valid the document is accepted
    and the field holds the default, [role = "user"], [is_active = True],
    [currency = "INR"], [published = True], [status = "created"],
    [progress = 0].  The document [{user_id: "u1", ebook_id: "e1",
    amount: 199.0}] yields the Purchase with [currency = "INR"],
    [status = "created"] and the three razorpay fields [None]. *)
Theorem defaults_populated (d : pydict) :
  (dict_get "role" d = None -> others_valid User "role" d ->
     accepted_with User d "role" (PStr "user"))
  /\ (dict_get "is_active" d = None -> others_valid User "is_active" d ->
     accepted_with User d "is_active" (PBool true))
  /\ (dict_get "currency" d = None -> others_valid Ebook "currency" d ->
     accepted_with Ebook d "currency" (PStr "INR"))
  /\ (dict_get "published" d = None -> others_valid Ebook "published" d ->
     accepted_with Ebook d "published" (PBool true))
  /\ (dict_get "currency" d = None -> others_valid Purchase "currency" d ->
     accepted_with Purchase d "currency" (PStr "INR"))
  /\ (dict_get "status" d = None -> others_valid Purchase "status" d ->
     accepted_with Purchase d "status" (PStr "created"))
  /\ (dict_get "progress" d = None -> others_valid LibraryItem "progress" d ->
     accepted_with LibraryItem d "progress" (PInt 0))
  /\ model_validate Purchase Sample.purchase =
       Ok (mk_instance "Purchase"
             [("user_id", PStr "u1"); ("ebook_id", PStr "e1");
              ("amount", PFloat (Float64.Z2SF 199));
              ("currency", PStr "INR"); ("status", PStr "created");
              ("razorpay_order_id", PNone); ("razorpay_payment_id", PNone);
              ("razorpay_signature", PNone)]).
Proof.
  repeat match goal with |- _ /\ _ => split end;
    try (intros Hd Ho; eapply omitted_accepted;
         [auto with models | reflexivity | exact Hd | exact Ho | reflexivity]).
  reflexivity.
Qed.

(** C9. An Ebook document without [file_urls] is accepted, the other fields
    being valid, and the instance has the empty dict as [file_urls]; without
    [categories], it has the empty list as [categories]. *)
Theorem Ebook_empty_collections (d : pydict) :
  (dict_get "file_urls" d = None -> others_valid Ebook "file_urls" d ->
     accepted_with Ebook d "file_urls" (PDict []))
  /\ (dict_get "categories" d = None -> others_valid Ebook "categories" d ->
     accepted_with Ebook d "categories" (PList [])).
Proof.
  split; intros Hd Ho; eapply omitted_accepted;
    [auto with models | reflexivity | exact Hd | exact Ho | reflexivity
    | auto with models | reflexivity | exact Hd | exact Ho | reflexivity].
Qed.

(** ** E-mail addresses and URLs *)

(** C6. A User document whose [email] is a text without [@] is rejected,
    with a [value_error] at [email].  A User document whose [avatar_url], or
    an Ebook document whose [cover_url], is a text that does not start with
    a scheme is rejected, with an error at that field: [url_parsing], or
    [url_too_long] when the text has more than 2083 bytes.  ["not-a-url"] is
    a text without [@] and without scheme. *)
Theorem malformed_email_and_url_rejected (d : pydict) (s : string) :
  (contains "@" s = false ->
     rejected_with User (dict_set "email" (PStr s) d)
       (mk_error [LKey "email"] value_error))
  /\ (has_scheme s = false ->
     let e := if (2083 <? utf8_length s)%nat then url_too_long 2083 else url_parsing in
     rejected_with User (dict_set "avatar_url" (PStr s) d)
       (mk_error [LKey "avatar_url"] e)
     /\ rejected_with Ebook (dict_set "cover_url" (PStr s) d)
       (mk_error [LKey "cover_url"] e))
  /\ contains "@" "not-a-url" = false /\ has_scheme "not-a-url" = false.
Proof.
  split; [|split; [|split; reflexivity]].
  - intros Hs. eapply set_rejected; [reflexivity|].
    cbn [ftyp validate_value]. unfold validate_email. rewrite Hs. reflexivity.
  - intros Hs e.
    assert (E : http_url s = fail e).
    { unfold http_url, parse_url, e. rewrite Hs.
      destruct (2083 <? utf8_length s)%nat; reflexivity. }
    split; (eapply set_rejected; [reflexivity|]);
      cbn [ftyp validate_value]; rewrite E; reflexivity.
Qed.

(** ** Validation as a function *)


(** ** Numeric bounds *)

Lemma set_rejected_at m k f v d :
  field_of m k = Some f ->
  (exists e, validate_value (ftyp f) v = fail e) ->
  rejected_at m (dict_set k v d) k.
Proof.
  intros Hf [e He]. apply rejected_with_at with (e := e).
  eapply set_rejected; eassumption.
Qed.

(** C5, amended.  Let [v] be a number: an int, or a float that is a
    binary64 datum and not a NaN.  If [0 <= v] (zero and the infinity
    included) and [v], when an int, is in the range of float, then [v] is
    accepted as [Ebook.price] and as [Purchase.amount], the other fields
    being valid; if [v < 0] it is rejected for both.  If [0 <= v <= 100] then
    [v] is accepted as [LibraryItem.progress]; if [v < 0] or [100 < v] it is
    rejected.  An accepted field holds the float that [v] is.  An int out of
    the range of float, whatever its sign, is rejected for the three fields,
    with [float_type]. *)
Theorem numeric_bounds (d : pydict) (v : pyval) :
  well_formed v = true ->
  (forall x, number_of v = Some x -> nonneg (num_cmpZ v 0) ->
     (others_valid Ebook "price" d ->
        accepted_with Ebook (dict_set "price" v d) "price" (PFloat x))
     /\ (others_valid Purchase "amount" d ->
        accepted_with Purchase (dict_set "amount" v d) "amount" (PFloat x)))
  /\ (num_cmpZ v 0 = Some Lt ->
     rejected_at Ebook (dict_set "price" v d) "price"
     /\ rejected_at Purchase (dict_set "amount" v d) "amount")
  /\ (nonneg (num_cmpZ v 0) -> at_most (num_cmpZ v 100) ->
     others_valid LibraryItem "progress" d ->
     exists x, number_of v = Some x
               /\ accepted_with LibraryItem (dict_set "progress" v d) "progress" (PFloat x))
  /\ (num_cmpZ v 0 = Some Lt \/ num_cmpZ v 100 = Some Gt ->
     rejected_at LibraryItem (dict_set "progress" v d) "progress")
  /\ (forall z, v = PInt z -> Float64.int_as_float z = None ->
     rejected_with Ebook (dict_set "price" v d) (mk_error [LKey "price"] float_type)
     /\ rejected_with Purchase (dict_set "amount" v d)
          (mk_error [LKey "amount"] float_type)
     /\ rejected_with LibraryItem (dict_set "progress" v d)
          (mk_error [LKey "progress"] float_type)).
Proof.
  intros Hw. split; [|split; [|split; [|split]]].
  - intros x Hn Hc. split; intros Ho;
      (eapply set_accepted; [auto with models | reflexivity | exact Ho |]);
      apply ge0_accept; assumption.
  - intros Hc. split; (eapply set_rejected_at; [reflexivity|]);
      apply ge0_reject; assumption.
  - intros H0 H100 Ho. destruct (range_accept v Hw H0 H100) as (x & Hn & Hv).
    exists x. split; [exact Hn|].
    eapply set_accepted; [auto with models | reflexivity | exact Ho | exact Hv].
  - intros [Hc|Hc]; (eapply set_rejected_at; [reflexivity|]).
    + apply ge0_reject; assumption.
    + apply le100_reject; assumption.
  - intros z -> Hz. split; [|split];
      (eapply set_rejected; [reflexivity | apply huge_int_reject, Hz]).
Qed.

(** ** All or nothing *)


(** ** Round trip *)

(** C1, amended.  If the normalized form of an e-mail address is an
    address already normalized, then for each of the four models and every
    document whose given fields meet their declarations and that leaves out
    no required field: the document is accepted; [model_dump] gives back,
    equal under [==], every field given in the form the instance holds it (a
    URL as a URL object, an address in normalized form, an int for a float
    when the float has its value); the dict that [model_dump] gives is
    accepted; and the instance it yields is equal to the first one, field
    for field. *)
Theorem serialize_validate_round_trip (m : model) (d : pydict) :
  In m models -> email_normal L -> document_ok m d = true -> round_trips m d.
Proof.
  intros Hm Hn Hd. apply model_round_trip; [exact Hn | | | exact Hd];
    cbn in Hm; destruct Hm as [<-|[<-|[<-|[<-|[]]]]];
    auto with models; reflexivity.
Qed.

End Claims.

(** * The plain library *)

Module PlainFacts.

Lemma normal : email_normal Plain.library.
Proof.
  intros s s'. unfold validate_email. cbn.
  destruct (contains "@" s) eqn:E; [|discriminate].
  intros [= <-]. rewrite E. reflexivity.
Qed.

End PlainFacts.

(** * The claims on sample documents *)

Ltac sample_valid :=
  apply others_validb_true; vm_compute; reflexivity.

Lemma serialize_validate_round_trip_witness :
  @round_trips Plain.library User Sample.user.
Proof.
  apply (@serialize_validate_round_trip Plain.library User Sample.user).
  - left; reflexivity.
  - exact PlainFacts.normal.
  - vm_compute; reflexivity.
Defined.

Lemma Purchase_status_tokens_witness :
  @accepted_with Plain.library Purchase
    (dict_set "status" (PStr "paid") Sample.purchase) "status" (PStr "paid")
  /\ @rejected_with Plain.library Purchase
       (dict_set "status" (PStr "lost") Sample.purchase)
       (mk_error [LKey "status"] (literal_error Sample.status_tokens)).
Proof.
  split.
  - apply (proj1 (@Purchase_status_tokens Plain.library Sample.purchase "paid")).
    + sample_valid.
    + right; left; reflexivity.
  - apply (proj2 (@Purchase_status_tokens Plain.library Sample.purchase "lost")).
    cbn. intuition discriminate.
Defined.

Lemma defaults_populated_witness :
  @accepted_with Plain.library User Sample.all "role" (PStr "user")
  /\ @accepted_with Plain.library LibraryItem Sample.all "progress" (PInt 0).
Proof.
  pose proof (@defaults_populated Plain.library Sample.all)
    as (Hrole & _ & _ & _ & _ & _ & Hprogress & _).
  split.
  - apply Hrole; [reflexivity | sample_valid].
  - apply Hprogress; [reflexivity | sample_valid].
Defined.

Lemma User_name_bounds_witness :
  @accepted_with Plain.library User (dict_set "name" (PStr "Al") Sample.user)
    "name" (PStr "Al")
  /\ @rejected_with Plain.library User (dict_set "name" (PStr "A") Sample.user)
       (mk_error [LKey "name"] (string_too_short 2)).
Proof.
  split.
  - apply (proj1 (@User_name_bounds Plain.library Sample.user "Al")).
    + sample_valid.
    + cbn; lia.
  - apply (proj1 (proj2 (@User_name_bounds Plain.library Sample.user "A"))).
    cbn; lia.
Defined.

Lemma numeric_bounds_witness :
  @accepted_with Plain.library Ebook (dict_set "price" (PInt 50) Sample.all)
    "price" (PFloat (Float64.Z2SF 50))
  /\ @accepted_with Plain.library Purchase
       (dict_set "amount" (PFloat (S754_zero true)) Sample.all)
       "amount" (PFloat (S754_zero true))
  /\ @rejected_at Plain.library Purchase
       (dict_set "amount" (PFloat (Float64.Z2SF (-3))) Sample.all) "amount"
  /\ @rejected_at Plain.library LibraryItem
       (dict_set "progress" (PInt 101) Sample.all) "progress"
  /\ @rejected_with Plain.library Purchase
       (dict_set "amount" (PInt (- 2 ^ 1024)) Sample.all)
       (mk_error [LKey "amount"] float_type).
Proof.
  split; [|split; [|split; [|split]]].
  - pose proof (@numeric_bounds Plain.library Sample.all (PInt 50) eq_refl) as (H & _).
    apply (H (Float64.Z2SF 50)).
    + reflexivity.
    + right; reflexivity.
    + sample_valid.
  - pose proof (@numeric_bounds Plain.library Sample.all (PFloat (S754_zero true)) eq_refl)
      as (H & _).
    apply (H (S754_zero true)).
    + reflexivity.
    + left; reflexivity.
    + sample_valid.
  - pose proof (@numeric_bounds Plain.library Sample.all
                  (PFloat (Float64.Z2SF (-3))) eq_refl) as (_ & H & _).
    apply H. reflexivity.
  - pose proof (@numeric_bounds Plain.library Sample.all (PInt 101) eq_refl)
      as (_ & _ & _ & H & _).
    apply H. right; reflexivity.
  - pose proof (@numeric_bounds Plain.library Sample.all (PInt (- 2 ^ 1024)) eq_refl)
      as (_ & _ & _ & _ & H).
    apply (H (- 2 ^ 1024)); [reflexivity | vm_compute; reflexivity].
Defined.

Lemma malformed_email_and_url_rejected_witness :
  @rejected_with Plain.library User (dict_set "email" (PStr "not-a-url") Sample.user)
    (mk_error [LKey "email"] value_error)
  /\ @rejected_with Plain.library Ebook (dict_set "cover_url" (PStr "not-a-url") Sample.ebook)
       (mk_error [LKey "cover_url"] url_parsing).
Proof.
  split.
  - apply (proj1 (@malformed_email_and_url_rejected Plain.library Sample.user "not-a-url")).
    reflexivity.
  - apply (proj1 (proj2 (@malformed_email_and_url_rejected Plain.library
                           Sample.ebook "not-a-url")) eq_refl).
Defined.



Lemma Ebook_empty_collections_witness :
  @accepted_with Plain.library Ebook Sample.ebook "file_urls" (PDict [])
  /\ @accepted_with Plain.library Ebook Sample.ebook "categories" (PList []).
Proof.
  split.
  - apply (proj1 (@Ebook_empty_collections Plain.library Sample.ebook));
      [reflexivity | sample_valid].
  - apply (proj2 (@Ebook_empty_collections Plain.library Sample.ebook));
      [reflexivity | sample_valid].
Defined.

Lemma identifiers_unconstrained_witness :
  @accepted_with Plain.library Purchase (dict_set "user_id" (PStr "") Sample.all)
    "user_id" (PStr "")
  /\ @accepted_with Plain.library Ebook (dict_set "created_by" (PStr "") Sample.all)
       "created_by" (PStr "")
  /\ @rejected_with Plain.library LibraryItem (dict_set "ebook_id" (PInt 7) Sample.all)
       (mk_error [LKey "ebook_id"] string_type).
Proof.
  pose proof (@identifiers_unconstrained Plain.library Sample.all "")
    as (Hu & _ & _ & _ & Hc & Hr).
  split; [|split].
  - apply Hu. sample_valid.
  - apply Hc. sample_valid.
  - apply (Hr LibraryItem "ebook_id").
    + right; right; right; left; reflexivity.
    + intros t; discriminate.
Defined.

(** A NaN meets no bound: as a price it fails [ge=0], as a progress it fails
    [le=100], the bound checked first. *)
Example NaN_rejected (L : Library) :
  model_validate Ebook Sample.nan_price
  = ValidationError [mk_error [LKey "price"] (greater_than_equal 0)]
  /\ model_validate LibraryItem (dict_set "progress" (PFloat S754_nan) Sample.library_item)
     = ValidationError [mk_error [LKey "progress"] (less_than_equal 100)].
Proof. split; reflexivity. Qed.

(** The lax conversion to bool reads 0 and 1; another int is a
    [bool_parsing] error, a list a [bool_type] error. *)
Example is_active_of_ints :
  @accepted_with Plain.library User (dict_set "is_active" (PInt 0) Sample.user)
    "is_active" (PBool false)
  /\ @rejected_with Plain.library User (dict_set "is_active" (PInt 2) Sample.user)
       (mk_error [LKey "is_active"] bool_parsing)
  /\ @rejected_with Plain.library User (dict_set "is_active" (PList []) Sample.user)
       (mk_error [LKey "is_active"] bool_type).
Proof.
  split; [|split].
  - eapply set_accepted; [auto with models | reflexivity | sample_valid | reflexivity].
  - eapply set_rejected; reflexivity.
  - eapply set_rejected; reflexivity.
Qed.

(** Two validations of one document, in one store: the two objects of the
    document are as they were; each instance holds a list and a dict of its
    own, made by its validation. *)
Example two_records_of_one_document :
  let out := @hvalidate_all Plain.library StoreSample.store
               [(Ebook, StoreSample.ebook); (Ebook, StoreSample.ebook)] in
  firstn 2 (fst out) = StoreSample.store
  /\ map (fun r => match r with
                   | Ok x => (hdict_get "categories" (hattrs x),
                              hdict_get "file_urls" (hattrs x))
                   | ValidationError _ => (None, None)
                   end) (snd out)
     = [(Some (HRef 3), Some (HRef 2)); (Some (HRef 5), Some (HRef 4))].
Proof. vm_compute. split; reflexivity. Qed.

(** The round trip is an equality of values, not of representations: the
    default [progress = 0] is an int, and comes back as the float [0.0]. *)
Example progress_default_round_trip (L : Library) :
  exists x y,
    model_validate LibraryItem Sample.library_item = Ok x
    /\ model_validate LibraryItem (model_dump x) = Ok y
    /\ getattr x "progress" = Some (PInt 0)
    /\ getattr y "progress" = Some (PFloat (S754_zero false))
    /\ instance_eq y x = true.
Proof. do 2 eexists. repeat split; reflexivity. Qed.

(** C5, as it is stated, fails on an int that float cannot hold: [2^1024]
    is a non-negative number, and it is rejected as a price. *)
Lemma huge_price_rejected :
  nonneg (num_cmpZ (PInt (2 ^ 1024)) 0)
  /\ @others_valid Plain.library Ebook "price" Sample.ebook
  /\ @rejected_with Plain.library Ebook
       (dict_set "price" (PInt (2 ^ 1024)) Sample.ebook)
       (mk_error [LKey "price"] float_type).
Proof.
  split; [right; reflexivity | split; [sample_valid|]].
  eexists. split; [vm_compute; reflexivity | left; reflexivity].
Qed.

(** C1, as it is stated, fails on a URL given as a text: the document meets
    the declarations and is accepted, and [model_dump] gives a URL object,
    which is not equal to the text. *)
Lemma url_text_not_given_back :
  @document_ok Plain.library User Sample.user_with_avatar = true
  /\ ~ @round_trips_identically Plain.library User Sample.user_with_avatar.
Proof.
  split; [vm_compute; reflexivity|].
  intros (x & Hx & Hg & _).
  destruct (Hg (mk_field "avatar_url" (TOptional THttpUrl) (Default PNone))
              (PStr "https://x.com/a.png")) as (w & Hw & He).
  - right; right; right; right; left; reflexivity.
  - reflexivity.
  - reflexivity.
  - vm_compute in Hx. injection Hx as <-. vm_compute in Hw. injection Hw as <-.
    vm_compute in He. discriminate.
Qed.


(** * Further properties of the models *)

Section Further.
Context {L : Library}.

(** ** Bounded strings *)

Lemma bounded_str_field m k f a b d s :
  NoDup (map fname (fields m)) -> field_of m k = Some f ->
  ftyp f = TStr (Some a) (Some b) -> (a <= b)%nat ->
  (others_valid m k d -> (a <= String.length s <= b)%nat ->
     accepted_with m (dict_set k (PStr s) d) k (PStr s))
  /\ ((String.length s < a)%nat ->
     rejected_with m (dict_set k (PStr s) d) (mk_error [LKey k] (string_too_short a)))
  /\ ((b < String.length s)%nat ->
     rejected_with m (dict_set k (PStr s) d) (mk_error [LKey k] (string_too_long b))).
Proof.
  intros Hnd Hf Ht Hab. split; [|split].
  - intros Ho [H1 H2]. eapply set_accepted; [exact Hnd | exact Hf | exact Ho |].
    rewrite Ht. cbn [validate_value]. apply check_length_within.
    unfold length_within. apply andb_true_iff; split; apply Nat.leb_le; assumption.
  - intros H. eapply set_rejected; [exact Hf|].
    rewrite Ht. cbn [validate_value]. apply check_length_short, H.
  - intros H. eapply set_rejected; [exact Hf|].
    rewrite Ht. cbn [validate_value]. apply check_length_long; lia.
Qed.

(** X1. With the other fields valid, a [hashed_password] of 60 to 200
    characters is accepted as it is; a shorter one is rejected with
    [string_too_short], a longer one with [string_too_long], at
    [hashed_password]. *)
Theorem User_hashed_password_bounds (d : pydict) (s : string) :
  (others_valid User "hashed_password" d ->
     (60 <= String.length s <= 200)%nat ->
     accepted_with User (dict_set "hashed_password" (PStr s) d)
       "hashed_password" (PStr s))
  /\ ((String.length s < 60)%nat ->
     rejected_with User (dict_set "hashed_password" (PStr s) d)
       (mk_error [LKey "hashed_password"] (string_too_short 60)))
  /\ ((200 < String.length s)%nat ->
     rejected_with User (dict_set "hashed_password" (PStr s) d)
       (mk_error [LKey "hashed_password"] (string_too_long 200))).
Proof.
  apply (bounded_str_field User "hashed_password"
           (mk_field "hashed_password" (TStr (Some 60%nat) (Some 200%nat)) Required));
    [auto with models | reflexivity | reflexivity | lia].
Qed.

(** X2. With the other fields valid, an Ebook [title] of 1 to 200 characters
    and an [author] of 1 to 120 characters are accepted as they are; the
    empty string is rejected for both with [string_too_short], a title of
    more than 200 characters and an author of more than 120 with
    [string_too_long]. *)
Theorem Ebook_title_author_bounds (d : pydict) (s : string) :
  ((others_valid Ebook "title" d -> (1 <= String.length s <= 200)%nat ->
      accepted_with Ebook (dict_set "title" (PStr s) d) "title" (PStr s))
   /\ ((String.length s < 1)%nat ->
      rejected_with Ebook (dict_set "title" (PStr s) d)
        (mk_error [LKey "title"] (string_too_short 1)))
   /\ ((200 < String.length s)%nat ->
      rejected_with Ebook (dict_set "title" (PStr s) d)
        (mk_error [LKey "title"] (string_too_long 200))))
  /\ ((others_valid Ebook "author" d -> (1 <= String.length s <= 120)%nat ->
      accepted_with Ebook (dict_set "author" (PStr s) d) "author" (PStr s))
   /\ ((String.length s < 1)%nat ->
      rejected_with Ebook (dict_set "author" (PStr s) d)
        (mk_error [LKey "author"] (string_too_short 1)))
   /\ ((120 < String.length s)%nat ->
      rejected_with Ebook (dict_set "author" (PStr s) d)
        (mk_error [LKey "author"] (string_too_long 120)))).
Proof.
  split.
  - apply (bounded_str_field Ebook "title"
             (mk_field "title" (TStr (Some 1%nat) (Some 200%nat)) Required));
      [auto with models | reflexivity | reflexivity | lia].
  - apply (bounded_str_field Ebook "author"
             (mk_field "author" (TStr (Some 1%nat) (Some 120%nat)) Required));
      [auto with models | reflexivity | reflexivity | lia].
Qed.

Lemma check_length_nomin_long b s :
  (b < String.length s)%nat -> check_length None (Some b) s = fail (string_too_long b).
Proof.
  intros H. unfold check_length.
  destruct (Nat.ltb_spec b (String.length s)); [reflexivity | lia].
Qed.

(** X3. An Ebook [description] may be left out or be [None], and is then
    [None]; with the other fields valid, a string of at most 5000 characters,
    the empty one included, is accepted as it is; a longer one is rejected
    with [string_too_long] at [description]. *)
Theorem Ebook_description_optional (d : pydict) (s : string) :
  (others_valid Ebook "description" d ->
     accepted_with Ebook (dict_del "description" d) "description" PNone
     /\ accepted_with Ebook (dict_set "description" PNone d) "description" PNone
     /\ ((String.length s <= 5000)%nat ->
         accepted_with Ebook (dict_set "description" (PStr s) d)
           "description" (PStr s)))
  /\ ((5000 < String.length s)%nat ->
     rejected_with Ebook (dict_set "description" (PStr s) d)
       (mk_error [LKey "description"] (string_too_long 5000))).
Proof.
  split.
  - intros Ho. split; [|split].
    + eapply omitted_accepted;
        [auto with models | reflexivity | apply dict_get_del_eq | | reflexivity].
      intros f Hin Hn. rewrite (validate_field_agree (dict_del "description" d) d)
        by (apply dict_get_del_neq; exact Hn). apply Ho; assumption.
    + eapply set_accepted; [auto with models | reflexivity | exact Ho | reflexivity].
    + intros H. eapply set_accepted; [auto with models | reflexivity | exact Ho |].
      cbn [ftyp validate_value]. apply check_length_within.
      unfold length_within. apply Nat.leb_le in H. rewrite H. reflexivity.
  - intros H. eapply set_rejected; [reflexivity|].
    cbn [ftyp validate_value]. apply check_length_nomin_long, H.
Qed.

(** ** Enumerations *)

Lemma literal2_accept a b v :
  v = PStr a \/ v = PStr b -> validate_value (TLiteral [a; b]) v = Ok v.
Proof.
  intros [->| ->]; apply validate_literal_in; cbn; auto.
Qed.

Lemma literal2_reject a b v :
  v <> PStr a -> v <> PStr b ->
  validate_value (TLiteral [a; b]) v = fail (literal_error [a; b]).
Proof.
  intros Ha Hb. destruct v; try reflexivity.
  apply validate_literal_notin. cbn. intros [<-|[<-|[]]]; congruence.
Qed.

(** X4. Whatever the value given ([None] and non-strings included): with the
    other fields valid, [User.role] accepts ["user"] and ["admin"] and keeps
    them, and [Ebook.currency] and [Purchase.currency] accept ["INR"] and
    ["USD"]; every other value is rejected with a [literal_error] at the
    field, and does not fall back to the default. *)
Theorem role_and_currency_tokens (d : pydict) (v : pyval) :
  ((others_valid User "role" d -> v = PStr "user" \/ v = PStr "admin" ->
      accepted_with User (dict_set "role" v d) "role" v)
   /\ (v <> PStr "user" -> v <> PStr "admin" ->
      rejected_with User (dict_set "role" v d)
        (mk_error [LKey "role"] (literal_error ["user"; "admin"]))))
  /\ ((others_valid Ebook "currency" d -> v = PStr "INR" \/ v = PStr "USD" ->
      accepted_with Ebook (dict_set "currency" v d) "currency" v)
   /\ (v <> PStr "INR" -> v <> PStr "USD" ->
      rejected_with Ebook (dict_set "currency" v d)
        (mk_error [LKey "currency"] (literal_error ["INR"; "USD"]))))
  /\ ((others_valid Purchase "currency" d -> v = PStr "INR" \/ v = PStr "USD" ->
      accepted_with Purchase (dict_set "currency" v d) "currency" v)
   /\ (v <> PStr "INR" -> v <> PStr "USD" ->
      rejected_with Purchase (dict_set "currency" v d)
        (mk_error [LKey "currency"] (literal_error ["INR"; "USD"])))).
Proof.
  repeat match goal with |- _ /\ _ => split end;
    try (intros Ho Hv; eapply set_accepted;
         [auto with models | reflexivity | exact Ho | apply literal2_accept, Hv]);
    intros Ha Hb; (eapply set_rejected; [reflexivity|]);
    apply literal2_reject; assumption.
Qed.

(** ** E-mail addresses and URLs, accepted *)

(** X5. With the other fields valid, an [email] the validator accepts is
    stored in its normalized form, the one the validator returns, not as it
    was given; an [email] the validator refuses is rejected with
    [value_error], and a value that is not a string with [string_type]. *)
Theorem User_email_normalized (d : pydict) (v : pyval) :
  (forall s s', others_valid User "email" d ->
     v = PStr s -> validate_email s = Some s' ->
     accepted_with User (dict_set "email" v d) "email" (PStr s'))
  /\ (forall s, v = PStr s -> validate_email s = None ->
     rejected_with User (dict_set "email" v d) (mk_error [LKey "email"] value_error))
  /\ (is_str v = false ->
     rejected_with User (dict_set "email" v d) (mk_error [LKey "email"] string_type)).
Proof.
  split; [|split].
  - intros s s' Ho -> E. eapply set_accepted; [auto with models | reflexivity | exact Ho |].
    cbn [ftyp validate_value]. rewrite E. reflexivity.
  - intros s -> E. eapply set_rejected; [reflexivity|].
    cbn [ftyp validate_value]. rewrite E. reflexivity.
  - intros Hv. eapply set_rejected; [reflexivity|].
    destruct v; try discriminate; reflexivity.
Qed.

Lemma optional_url_value v :
  validate_value (TOptional THttpUrl) v =
    match v with
    | PNone => Ok PNone
    | PUrl u => Ok (PUrl u)
    | PStr s => rmap PUrl (http_url s)
    | _ => fail url_type
    end.
Proof. destruct v; reflexivity. Qed.

(** X6. [User.avatar_url] and [Ebook.cover_url], with the other fields valid:
    an [HttpUrl] object is accepted as it is and [None] as [None]; a string
    the parser accepts is stored as the URL the parser builds.  A value that
    is neither [None], a string nor a URL object is rejected with [url_type]
    at the field. *)
Theorem url_fields_values (d : pydict) (v : pyval) :
  forall m k, In (m, k) [(User, "avatar_url"); (Ebook, "cover_url")] ->
  (others_valid m k d ->
     (forall u, v = PUrl u -> accepted_with m (dict_set k v d) k (PUrl u))
     /\ (v = PNone -> accepted_with m (dict_set k v d) k PNone)
     /\ (forall s u, v = PStr s -> parse_http_url s = Some u ->
         accepted_with m (dict_set k v d) k (PUrl u)))
  /\ (match v with PNone | PStr _ | PUrl _ => False | _ => True end ->
     rejected_with m (dict_set k v d) (mk_error [LKey k] url_type)).
Proof.
  intros m k Hin. cbn in Hin.
  destruct Hin as [E|[E|[]]]; injection E as <- <-.
  - split.
    + intros Ho. split; [|split].
      * intros u ->. eapply set_accepted; [auto with models | reflexivity | exact Ho | reflexivity].
      * intros ->. eapply set_accepted; [auto with models | reflexivity | exact Ho | reflexivity].
      * intros s u -> E. eapply set_accepted; [auto with models | reflexivity | exact Ho |].
        cbn [ftyp]. rewrite optional_url_value, (parse_http_url_Some _ _ E). reflexivity.
    + intros Hv. eapply set_rejected; [reflexivity|].
      cbn [ftyp]. rewrite optional_url_value. destruct v; try contradiction; reflexivity.
  - split.
    + intros Ho. split; [|split].
      * intros u ->. eapply set_accepted; [auto with models | reflexivity | exact Ho | reflexivity].
      * intros ->. eapply set_accepted; [auto with models | reflexivity | exact Ho | reflexivity].
      * intros s u -> E. eapply set_accepted; [auto with models | reflexivity | exact Ho |].
        cbn [ftyp]. rewrite optional_url_value, (parse_http_url_Some _ _ E). reflexivity.
    + intros Hv. eapply set_rejected; [reflexivity|].
      cbn [ftyp]. rewrite optional_url_value. destruct v; try contradiction; reflexivity.
Qed.

(** ** Collections *)

Lemma validate_items_error_at vt j l i v e :
  nth_error l i = Some v -> vt v = fail e ->
  exists es, validate_items vt j l = ValidationError es
             /\ In (mk_error [LIndex (j + i)] e) es.
Proof.
  revert j i. induction l as [|x l IH]; intros j i Hn Hv; [destruct i; discriminate|].
  cbn [validate_items]. destruct i as [|i]; cbn in Hn.
  - injection Hn as ->. rewrite Hv. cbn [fail under map at_loc loc kind].
    rewrite Nat.add_0_r.
    destruct (validate_items vt (S j) l) as [l'|es']; cbn;
      eexists; (split; [reflexivity | left; reflexivity]).
  - destruct (IH (S j) i Hn Hv) as (es & Hes & Hi). rewrite Hes.
    replace (j + S i)%nat with (S j + i)%nat by lia.
    destruct (under (LIndex j) (vt x)) as [y|ex]; cbn.
    + eexists; split; [reflexivity | exact Hi].
    + eexists; split; [reflexivity | apply in_or_app; right; exact Hi].
Qed.

Lemma validate_items_strings j l :
  forallb is_str l = true ->
  validate_items (validate_value (TStr None None)) j l = Ok l.
Proof.
  revert j. induction l as [|x l IH]; intros j H; [reflexivity|].
  cbn in H. apply andb_true_iff in H as [Hx Hl].
  cbn [validate_items]. rewrite (IH _ Hl).
  destruct x; try discriminate. reflexivity.
Qed.

Lemma validate_list_value t l :
  validate_value (TList t) (PList l)
  = rmap PList (validate_items (validate_value t) 0 l).
Proof. reflexivity. Qed.

Lemma validate_dict_value t kvs :
  validate_value (TDict t) (PDict kvs)
  = rmap PDict (validate_entries (validate_value t) kvs).
Proof. reflexivity. Qed.

(** X7. [Ebook.categories], with the other fields valid: a list of strings is
    accepted as it is, order and duplicates kept.  If the item at index [i]
    is not a string the document is rejected, with [string_type] reported at
    [categories, i]; a value that is not a list is rejected with
    [list_type]. *)
Theorem Ebook_categories_items (d : pydict) (l : list pyval) :
  (others_valid Ebook "categories" d -> forallb is_str l = true ->
     accepted_with Ebook (dict_set "categories" (PList l) d) "categories" (PList l))
  /\ (forall i v, nth_error l i = Some v -> is_str v = false ->
     rejected_with Ebook (dict_set "categories" (PList l) d)
       (mk_error [LKey "categories"; LIndex i] string_type))
  /\ (forall v, match v with PList _ => False | _ => True end ->
     rejected_with Ebook (dict_set "categories" v d)
       (mk_error [LKey "categories"] list_type)).
Proof.
  split; [|split].
  - intros Ho Hl. eapply set_accepted; [auto with models | reflexivity | exact Ho |].
    cbn [ftyp]. rewrite validate_list_value, (validate_items_strings 0 l Hl). reflexivity.
  - intros i v Hn Hv.
    destruct (validate_items_error_at (validate_value (TStr None None)) 0 l i v
                string_type Hn) as (es & Hes & Hi).
    { destruct v; try discriminate; reflexivity. }
    destruct (model_validate_set_Err Ebook "categories"
                (mk_field "categories" (TList (TStr None None)) (DefaultFactory factory_list))
                (PList l) es d eq_refl) as (es' & He & Hincl).
    { cbn [ftyp]. rewrite validate_list_value, Hes. reflexivity. }
    exists es'. split; [exact He|]. apply Hincl.
    apply in_map_iff. eexists; split; [|exact Hi]. reflexivity.
  - intros v Hv. eapply set_rejected; [reflexivity|].
    destruct v; try contradiction; reflexivity.
Qed.

Lemma validate_entries_error_at vt kvs k v e :
  In (k, v) kvs -> vt v = fail e ->
  exists es, validate_entries vt kvs = ValidationError es
             /\ In (mk_error [LKey k] e) es.
Proof.
  induction kvs as [|[k0 x] l IH]; intros Hin Hv; [destruct Hin|].
  cbn [validate_entries]. destruct Hin as [E|Hin].
  - injection E as -> ->. rewrite Hv. cbn [fail under rmap map at_loc loc kind].
    destruct (validate_entries vt l) as [l'|es']; cbn;
      eexists; (split; [reflexivity | left; reflexivity]).
  - destruct (IH Hin Hv) as (es & Hes & Hi). rewrite Hes.
    destruct (rmap (pair k0) (under (LKey k0) (vt x))) as [y|ex]; cbn.
    + eexists; split; [reflexivity | exact Hi].
    + eexists; split; [reflexivity | apply in_or_app; right; exact Hi].
Qed.

Lemma validate_entries_urls kvs :
  forallb (fun kv => is_url (snd kv)) kvs = true ->
  validate_entries (validate_value THttpUrl) kvs = Ok kvs.
Proof.
  induction kvs as [|[k x] l IH]; intros H; [reflexivity|].
  cbn in H. apply andb_true_iff in H as [Hx Hl].
  cbn [validate_entries]. rewrite (IH Hl).
  destruct x; try discriminate. reflexivity.
Qed.

Lemma http_url_refused s :
  ((2083 < utf8_length s)%nat -> http_url s = fail (url_too_long 2083))
  /\ ((utf8_length s <= 2083)%nat -> parse_url s = None -> http_url s = fail url_parsing)
  /\ (forall u, (utf8_length s <= 2083)%nat -> parse_url s = Some u ->
                scheme_of u <> "http" -> scheme_of u <> "https" ->
                http_url s = fail url_scheme).
Proof.
  unfold http_url. split; [|split].
  - intros H. destruct (Nat.ltb_spec 2083 (utf8_length s)); [reflexivity | lia].
  - intros H E. destruct (Nat.ltb_spec 2083 (utf8_length s)); [lia|].
    rewrite E. reflexivity.
  - intros u H E H1 H2. destruct (Nat.ltb_spec 2083 (utf8_length s)); [lia|].
    rewrite E. cbn [existsb].
    apply String.eqb_neq in H1, H2. rewrite H1, H2. reflexivity.
Qed.

(** X8. [Ebook.file_urls], with the other fields valid: a dict whose values
    are [HttpUrl] objects is accepted as it is, keys and order kept.  If the
    value under a key [k] is a string that is refused, the document is
    rejected with an error reported at [file_urls, k]: [url_too_long] when
    the string has more than 2083 bytes; if not, [url_parsing] when it is no
    URL, and [url_scheme] when it is a URL whose scheme is neither [http]
    nor [https].  If the value is neither a string nor a URL object, the
    error there is [url_type].  A value that is not a dict is rejected with
    [dict_type]. *)
Theorem Ebook_file_urls_entries (d : pydict) (kvs : list (string * pyval)) :
  (others_valid Ebook "file_urls" d ->
     forallb (fun kv => is_url (snd kv)) kvs = true ->
     accepted_with Ebook (dict_set "file_urls" (PDict kvs) d) "file_urls" (PDict kvs))
  /\ (forall k s, In (k, PStr s) kvs ->
     ((2083 < utf8_length s)%nat ->
        rejected_with Ebook (dict_set "file_urls" (PDict kvs) d)
          (mk_error [LKey "file_urls"; LKey k] (url_too_long 2083)))
     /\ ((utf8_length s <= 2083)%nat -> parse_url s = None ->
        rejected_with Ebook (dict_set "file_urls" (PDict kvs) d)
          (mk_error [LKey "file_urls"; LKey k] url_parsing))
     /\ (forall u, (utf8_length s <= 2083)%nat -> parse_url s = Some u ->
        scheme_of u <> "http" -> scheme_of u <> "https" ->
        rejected_with Ebook (dict_set "file_urls" (PDict kvs) d)
          (mk_error [LKey "file_urls"; LKey k] url_scheme)))
  /\ (forall k v, In (k, v) kvs ->
     match v with PStr _ | PUrl _ => False | _ => True end ->
     rejected_with Ebook (dict_set "file_urls" (PDict kvs) d)
       (mk_error [LKey "file_urls"; LKey k] url_type))
  /\ (forall v, match v with PDict _ => False | _ => True end ->
     rejected_with Ebook (dict_set "file_urls" v d)
       (mk_error [LKey "file_urls"] dict_type)).
Proof.
  assert (Hrej : forall k v e, In (k, v) kvs -> validate_value THttpUrl v = fail e ->
            rejected_with Ebook (dict_set "file_urls" (PDict kvs) d)
              (mk_error [LKey "file_urls"; LKey k] e)).
  { intros k v e Hin Hv.
    destruct (validate_entries_error_at (validate_value THttpUrl) kvs k v e Hin Hv)
      as (es & Hes & Hi).
    destruct (model_validate_set_Err Ebook "file_urls"
                (mk_field "file_urls" (TDict THttpUrl) (DefaultFactory factory_dict))
                (PDict kvs) es d eq_refl) as (es' & He & Hincl).
    { cbn [ftyp]. rewrite validate_dict_value, Hes. reflexivity. }
    exists es'. split; [exact He|]. apply Hincl.
    apply in_map_iff. eexists; split; [|exact Hi]. reflexivity. }
  split; [|split; [|split]].
  - intros Ho Hl. eapply set_accepted; [auto with models | reflexivity | exact Ho |].
    cbn [ftyp]. rewrite validate_dict_value, (validate_entries_urls kvs Hl). reflexivity.
  - intros k s Hin. destruct (http_url_refused s) as (H1 & H2 & H3).
    split; [|split].
    + intros Hl. apply (Hrej k (PStr s)); [exact Hin|].
      cbn [validate_value]. rewrite (H1 Hl). reflexivity.
    + intros Hl Hp. apply (Hrej k (PStr s)); [exact Hin|].
      cbn [validate_value]. rewrite (H2 Hl Hp). reflexivity.
    + intros u Hl Hp Hs1 Hs2. apply (Hrej k (PStr s)); [exact Hin|].
      cbn [validate_value]. rewrite (H3 u Hl Hp Hs1 Hs2). reflexivity.
  - intros k v Hin Hv. apply (Hrej k v); [exact Hin|].
    destruct v; try contradiction; reflexivity.
  - intros v Hv. eapply set_rejected; [reflexivity|].
    destruct v; try contradiction; reflexivity.
Qed.

(** ** Optional fields *)

(** X9. [Ebook.created_by] and each of the three razorpay fields of a
    Purchase, with the other fields valid, accept [None] and every string and
    keep it; any other value is rejected with [string_type] at the field.
    [LibraryItem.last_read_at] accepts [None] and every datetime object and
    keeps it. *)
Theorem optional_fields_values (d : pydict) (v : pyval) :
  (forall m k, In (m, k) optional_str_fields ->
     (others_valid m k d -> v = PNone \/ is_str v = true ->
        accepted_with m (dict_set k v d) k v)
     /\ (v <> PNone -> is_str v = false ->
        rejected_with m (dict_set k v d) (mk_error [LKey k] string_type)))
  /\ (others_valid LibraryItem "last_read_at" d ->
      (v = PNone \/ exists t, v = PDatetime t) ->
      accepted_with LibraryItem (dict_set "last_read_at" v d) "last_read_at" v).
Proof.
  split.
  - intros m k Hk. cbn in Hk.
    destruct Hk as [E|[E|[E|[E|[]]]]]; injection E as <- <-;
      (split;
       [ intros Ho Hv; eapply set_accepted;
         [auto with models | reflexivity | exact Ho |];
         destruct Hv as [->|Hv]; [reflexivity | destruct v; try discriminate; reflexivity]
       | intros Hn Hv; eapply set_rejected; [reflexivity|];
         destruct v; try discriminate; try reflexivity; contradiction ]).
  - intros Ho Hv. eapply set_accepted; [auto with models | reflexivity | exact Ho |].
    destruct Hv as [->|[t ->]]; reflexivity.
Qed.

(** ** SchemaInfo *)

(** X10. A document is accepted as a SchemaInfo exactly when its [name] is a
    string and its [schema] is a dict; the instance holds the two as they
    were given, whatever the dict contains. *)
Theorem SchemaInfo_accepts (d : pydict) (x : instance) :
  model_validate SchemaInfo d = Ok x <->
  exists s kvs,
    dict_get "name" d = Some (PStr s) /\ dict_get "schema" d = Some (PDict kvs)
    /\ x = mk_instance "SchemaInfo" [("name", PStr s); ("schema", PDict kvs)].
Proof.
  unfold model_validate, SchemaInfo. cbn [fields mname validate_fields].
  unfold validate_field. cbn [fname ftyp fdefault].
  split.
  - destruct (dict_get "name" d) as [[]|]; destruct (dict_get "schema" d) as [[]|];
      cbn; intros H; try discriminate.
    injection H as <-. eauto.
  - intros (s & kvs & -> & -> & ->). reflexivity.
Qed.

(** ** Missing fields *)

(** The errors of a value are never [missing]. *)
Lemma validate_value_not_missing t :
  forall v es e, validate_value t v = ValidationError es -> In e es ->
                 kind e <> missing.
Proof.
  intros v es e H Hi E.
  destruct (validate_value_reports _ _ _ _ H Hi) as (t' & v' & _ & Hv).
  rewrite E in Hv. exact Hv.
Qed.

(** X12. For every model and document, [missing] is reported at [k] exactly
    when [k] is a field without default that the document leaves out: a
    field with a default is never reported missing, and a required field
    that is given, even with a bad value, is not either.  The required
    fields are [name], [schema] (SchemaInfo); [name], [email],
    [hashed_password] (User); [title], [author], [price] (Ebook);
    [user_id], [ebook_id], [amount] (Purchase); [user_id], [ebook_id]
    (LibraryItem). *)
Theorem missing_reported (m : model) (d : pydict) (k : string) :
  (rejected_with m d (mk_error [LKey k] missing)
     <-> In k (required_fields m) /\ dict_get k d = None)
  /\ map required_fields all_models =
       [["name"; "schema"]; ["name"; "email"; "hashed_password"];
        ["title"; "author"; "price"]; ["user_id"; "ebook_id"; "amount"];
        ["user_id"; "ebook_id"]].
Proof.
  split; [|reflexivity]. split.
  - intros (es & H & Hi). unfold model_validate in H.
    destruct (validate_fields (fields m) d) as [|es0] eqn:Hr; [discriminate|].
    injection H as <-.
    destruct (validate_fields_errors _ _ _ Hr _ Hi) as (f & es' & Hf & Hv & Hie).
    unfold validate_field in Hv.
    destruct (dict_get (fname f) d) as [w|] eqn:Hd.
    + exfalso. destruct (validate_value (ftyp f) w) as [|ev] eqn:Ev; [discriminate|].
      cbn in Hv. injection Hv as <-.
      apply in_map_iff in Hie as (e0 & He0 & Hi0).
      apply (validate_value_not_missing _ _ _ _ Ev Hi0).
      apply (f_equal kind) in He0. destruct e0 as [l0 k0]. exact He0.
    + destruct (fdefault f) eqn:Ef; try discriminate. injection Hv as <-.
      destruct Hie as [E|[]]. injection E as E. rewrite <- E. split; [|exact Hd].
      unfold required_fields. apply in_map, filter_In. split; [exact Hf|].
      unfold is_required. rewrite Ef. reflexivity.
  - intros [Hk Hd]. unfold required_fields in Hk.
    apply in_map_iff in Hk as (f & <- & Hf). apply filter_In in Hf as [Hf Hreq].
    destruct (validate_fields_has_error (fields m) d f
                [mk_error [LKey (fname f)] missing] Hf) as (es & Hes & Hi).
    { unfold validate_field. rewrite Hd. unfold is_required in Hreq.
      destruct (fdefault f); try discriminate. reflexivity. }
    exists es. split; [unfold model_validate; rewrite Hes; reflexivity|].
    apply Hi. left. reflexivity.
Qed.

(** ** Validating again *)

Lemma validate_fields_of_Forall2 R fs r :
  Forall2 (fun f kv => fst kv = fname f /\ validate_field R f = Ok (snd kv)) fs r ->
  validate_fields fs R = Ok r.
Proof.
  intros H. induction H as [|f [k v] fs r [Hk Hv] _ IH]; [reflexivity|].
  cbn in Hk, Hv. subst k. cbn [validate_fields]. rewrite Hv, IH. reflexivity.
Qed.

Lemma field_settles d f v :
  email_normal L -> default_stable f = true ->
  validate_field d f = Ok v ->
  exists w, validate_value (ftyp f) v = Ok w /\ validate_value (ftyp f) w = Ok w.
Proof.
  intros Hn Hs. unfold validate_field, default_stable, default_value in *.
  destruct (dict_get (fname f) d) as [u|].
  - destruct (validate_value (ftyp f) u) as [v'|] eqn:E; cbn; [|discriminate].
    intros [= <-]. pose proof (validate_value_fix _ Hn _ _ E) as Hfix.
    exists v'. split; exact Hfix.
  - destruct (fdefault f) as [|u|g]; [discriminate | |]; intros [= <-].
    + destruct (validate_value (ftyp f) u) as [w|] eqn:E; [|discriminate].
      exists w. split; [reflexivity | exact (validate_value_fix _ Hn _ _ E)].
    + destruct (validate_value (ftyp f) (call g)) as [w|] eqn:E; [|discriminate].
      exists w. split; [reflexivity | exact (validate_value_fix _ Hn _ _ E)].
Qed.

Lemma model_settles m d x :
  email_normal L -> NoDup (map fname (fields m)) ->
  forallb default_stable (fields m) = true ->
  model_validate m d = Ok x ->
  exists y, model_validate m (model_dump x) = Ok y
            /\ model_validate m (model_dump y) = Ok y.
Proof.
  intros Hn Hnd Hs H. rewrite forallb_forall in Hs. unfold model_validate in *.
  destruct (validate_fields (fields m) d) as [r|] eqn:Hr; [|discriminate].
  injection H as <-. unfold model_dump; cbn [attrs].
  assert (H1 : forall f, In f (fields m) ->
             exists w, validate_field r f = Ok w /\ validate_value (ftyp f) w = Ok w).
  { intros f Hf. destruct (validate_fields_Ok_field _ _ _ _ Hr Hf) as [v Hv].
    destruct (field_settles d f v Hn (Hs f Hf) Hv) as (w & Hw & Hfix).
    exists w. split; [|exact Hfix].
    unfold validate_field. rewrite (attr_of_field _ _ _ _ _ Hnd Hr Hf Hv), Hw. reflexivity. }
  destruct (validate_fields_all_ok (fields m) r) as [r2 Hr2].
  { intros f Hf. destruct (H1 f Hf) as (w & Hw & _). eauto. }
  rewrite Hr2. eexists; split; [reflexivity|]. cbn [attrs].
  rewrite (validate_fields_of_Forall2 r2 (fields m) r2); [reflexivity|].
  eapply Forall2_impl_In; [apply validate_fields_Ok_inv, Hr2|].
  intros f [k w] Hf [Hk Hw]. cbn in Hk, Hw. subst k. split; [reflexivity|]. cbn [snd].
  destruct (H1 f Hf) as (w' & Hw' & Hfix). rewrite Hw in Hw'. injection Hw' as <-.
  unfold validate_field. rewrite (attr_of_field _ _ _ _ _ Hnd Hr2 Hf Hw), Hfix. reflexivity.
Qed.

(** X13. If the normalized form of an e-mail address is an address already
    normalized, then for each of the four models and every accepted document,
    however its values were given: what [model_dump] gives of the instance is
    accepted again, and the instance this yields is validated to itself.
    Validation settles after one round trip. *)
Theorem revalidation_settles (m : model) (d : pydict) (x : instance) :
  In m models -> email_normal L -> model_validate m d = Ok x ->
  exists y, model_validate m (model_dump x) = Ok y
            /\ model_validate m (model_dump y) = Ok y.
Proof.
  intros Hm Hn H. apply (model_settles m d x Hn); [| |exact H];
    cbn in Hm; destruct Hm as [<-|[<-|[<-|[<-|[]]]]];
    auto with models; reflexivity.
Qed.

(** ** A NaN under a bound *)

(** X17. A NaN meets no bound: given as [Ebook.price] or as
    [Purchase.amount] it is rejected with [greater_than_equal] (0) at the
    field, and given as [LibraryItem.progress] with [less_than_equal] (100),
    the bound that is checked first; whatever the other fields are. *)
Theorem NaN_fails_bounds (d : pydict) :
  rejected_with Ebook (dict_set "price" (PFloat S754_nan) d)
    (mk_error [LKey "price"] (greater_than_equal 0))
  /\ rejected_with Purchase (dict_set "amount" (PFloat S754_nan) d)
       (mk_error [LKey "amount"] (greater_than_equal 0))
  /\ rejected_with LibraryItem (dict_set "progress" (PFloat S754_nan) d)
       (mk_error [LKey "progress"] (less_than_equal 100)).
Proof.
  split; [|split]; (eapply set_rejected; reflexivity).
Qed.

(** ** Flags *)

(** X16. [User.is_active] and [Ebook.published], with the other fields
    valid, accept [True] and [False] and keep the value given. *)
Theorem flag_fields_keep_bool (d : pydict) (b : bool) :
  forall m k, In (m, k) [(User, "is_active"); (Ebook, "published")] ->
    others_valid m k d ->
    accepted_with m (dict_set k (PBool b) d) k (PBool b).
Proof.
  intros m k [E|[E|[]]] Ho; injection E as <- <-;
    (eapply set_accepted; [auto with models | reflexivity | exact Ho | reflexivity]).
Qed.

End Further.

(** * The further properties on sample documents *)

Lemma User_hashed_password_bounds_witness :
  @accepted_with Plain.library User
    (dict_set "hashed_password" (PStr Sample.hash) Sample.user)
    "hashed_password" (PStr Sample.hash)
  /\ @rejected_with Plain.library User
       (dict_set "hashed_password" (PStr "secret") Sample.user)
       (mk_error [LKey "hashed_password"] (string_too_short 60)).
Proof.
  split.
  - apply (proj1 (@User_hashed_password_bounds Plain.library Sample.user Sample.hash)).
    + sample_valid.
    + cbn; lia.
  - apply (proj1 (proj2 (@User_hashed_password_bounds Plain.library Sample.user "secret"))).
    cbn; lia.
Defined.

Lemma Ebook_title_author_bounds_witness :
  @accepted_with Plain.library Ebook (dict_set "title" (PStr "N") Sample.ebook)
    "title" (PStr "N")
  /\ @rejected_with Plain.library Ebook (dict_set "author" (PStr "") Sample.ebook)
       (mk_error [LKey "author"] (string_too_short 1)).
Proof.
  split.
  - apply (proj1 (proj1 (@Ebook_title_author_bounds Plain.library Sample.ebook "N"))).
    + sample_valid.
    + cbn; lia.
  - apply (proj1 (proj2 (proj2 (@Ebook_title_author_bounds Plain.library Sample.ebook "")))).
    cbn; lia.
Defined.

Lemma Ebook_description_optional_witness :
  @accepted_with Plain.library Ebook (dict_del "description" Sample.ebook)
    "description" PNone
  /\ @accepted_with Plain.library Ebook
       (dict_set "description" (PStr "A notebook.") Sample.ebook)
       "description" (PStr "A notebook.").
Proof.
  assert (H : @others_valid Plain.library Ebook "description" Sample.ebook)
    by sample_valid.
  pose proof (proj1 (@Ebook_description_optional Plain.library Sample.ebook "A notebook.") H)
    as (H1 & _ & H3).
  split; [exact H1 | apply H3; cbn; lia].
Defined.

Lemma role_and_currency_tokens_witness :
  @accepted_with Plain.library User (dict_set "role" (PStr "admin") Sample.user)
    "role" (PStr "admin")
  /\ @rejected_with Plain.library Purchase
       (dict_set "currency" (PStr "EUR") Sample.purchase)
       (mk_error [LKey "currency"] (literal_error ["INR"; "USD"])).
Proof.
  split.
  - apply (proj1 (proj1 (@role_and_currency_tokens Plain.library Sample.user (PStr "admin")))).
    + sample_valid.
    + right; reflexivity.
  - apply (proj2 (proj2 (proj2 (@role_and_currency_tokens Plain.library
                                  Sample.purchase (PStr "EUR")))));
      discriminate.
Defined.

Lemma User_email_normalized_witness :
  @accepted_with Plain.library User (dict_set "email" (PStr "bob@y.org") Sample.user)
    "email" (PStr "bob@y.org")
  /\ @rejected_with Plain.library User (dict_set "email" (PInt 7) Sample.user)
       (mk_error [LKey "email"] string_type).
Proof.
  split.
  - apply (proj1 (@User_email_normalized Plain.library Sample.user (PStr "bob@y.org"))
             "bob@y.org" "bob@y.org").
    + sample_valid.
    + reflexivity.
    + reflexivity.
  - apply (proj2 (proj2 (@User_email_normalized Plain.library Sample.user (PInt 7)))).
    reflexivity.
Defined.

Lemma url_fields_values_witness :
  @accepted_with Plain.library User
    (dict_set "avatar_url" (PStr "https://x.com/a.png") Sample.user)
    "avatar_url" (PUrl "https://x.com/a.png")
  /\ @rejected_with Plain.library Ebook (dict_set "cover_url" (PInt 3) Sample.ebook)
       (mk_error [LKey "cover_url"] url_type).
Proof.
  split.
  - assert (H : @others_valid Plain.library User "avatar_url" Sample.user)
      by sample_valid.
    destruct (proj1 (@url_fields_values Plain.library Sample.user
                       (PStr "https://x.com/a.png") User "avatar_url"
                       (or_introl eq_refl)) H) as (_ & _ & H3).
    apply (H3 "https://x.com/a.png" "https://x.com/a.png"); reflexivity.
  - apply (proj2 (@url_fields_values Plain.library Sample.ebook (PInt 3)
                    Ebook "cover_url" (or_intror (or_introl eq_refl)))).
    exact I.
Defined.

Lemma Ebook_categories_items_witness :
  @accepted_with Plain.library Ebook
    (dict_set "categories" (PList [PStr "maths"; PStr "notes"]) Sample.ebook)
    "categories" (PList [PStr "maths"; PStr "notes"])
  /\ @rejected_with Plain.library Ebook
       (dict_set "categories" (PList [PStr "maths"; PInt 4]) Sample.ebook)
       (mk_error [LKey "categories"; LIndex 1] string_type).
Proof.
  split.
  - apply (proj1 (@Ebook_categories_items Plain.library Sample.ebook
                    [PStr "maths"; PStr "notes"])).
    + sample_valid.
    + reflexivity.
  - apply (proj1 (proj2 (@Ebook_categories_items Plain.library Sample.ebook
                           [PStr "maths"; PInt 4])) 1%nat (PInt 4)).
    + reflexivity.
    + reflexivity.
Defined.

Lemma Ebook_file_urls_entries_witness :
  @accepted_with Plain.library Ebook
    (dict_set "file_urls" (PDict [("pdf", PUrl "https://x.com/n.pdf")]) Sample.ebook)
    "file_urls" (PDict [("pdf", PUrl "https://x.com/n.pdf")])
  /\ @rejected_with Plain.library Ebook
       (dict_set "file_urls" (PDict [("pdf", PStr "n.pdf")]) Sample.ebook)
       (mk_error [LKey "file_urls"; LKey "pdf"] url_parsing)
  /\ @rejected_with Plain.library Ebook
       (dict_set "file_urls" (PDict [("pdf", PStr "ftp://x.com/n.pdf")]) Sample.ebook)
       (mk_error [LKey "file_urls"; LKey "pdf"] url_scheme).
Proof.
  split; [|split].
  - apply (proj1 (@Ebook_file_urls_entries Plain.library Sample.ebook
                    [("pdf", PUrl "https://x.com/n.pdf")])).
    + sample_valid.
    + reflexivity.
  - apply (proj1 (proj2 (proj1 (proj2 (@Ebook_file_urls_entries Plain.library
                                         Sample.ebook [("pdf", PStr "n.pdf")]))
                           "pdf" "n.pdf" (or_introl eq_refl)))).
    + apply Nat.leb_le; vm_compute; reflexivity.
    + reflexivity.
  - apply (proj2 (proj2 (proj1 (proj2 (@Ebook_file_urls_entries Plain.library
                                         Sample.ebook [("pdf", PStr "ftp://x.com/n.pdf")]))
                           "pdf" "ftp://x.com/n.pdf" (or_introl eq_refl)))
             "ftp://x.com/n.pdf").
    + apply Nat.leb_le; vm_compute; reflexivity.
    + reflexivity.
    + cbn; discriminate.
    + cbn; discriminate.
Defined.

Lemma optional_fields_values_witness :
  @accepted_with Plain.library Purchase
    (dict_set "razorpay_order_id" (PStr "order_1") Sample.purchase)
    "razorpay_order_id" (PStr "order_1")
  /\ @rejected_with Plain.library Ebook
       (dict_set "created_by" (PInt 5) Sample.ebook)
       (mk_error [LKey "created_by"] string_type)
  /\ @accepted_with Plain.library LibraryItem
       (dict_set "last_read_at" PNone Sample.library_item) "last_read_at" PNone.
Proof.
  split; [|split].
  - apply (proj1 (proj1 (@optional_fields_values Plain.library Sample.purchase
                           (PStr "order_1"))
                    Purchase "razorpay_order_id" (or_intror (or_introl eq_refl)))).
    + sample_valid.
    + right; reflexivity.
  - apply (proj2 (proj1 (@optional_fields_values Plain.library Sample.ebook (PInt 5))
                    Ebook "created_by" (or_introl eq_refl))).
    + discriminate.
    + reflexivity.
  - apply (proj2 (@optional_fields_values Plain.library Sample.library_item PNone)).
    + sample_valid.
    + left; reflexivity.
Defined.

Lemma SchemaInfo_accepts_witness :
  @model_validate Plain.library SchemaInfo
    [("name", PStr "user"); ("schema", PDict [("title", PStr "User")])]
  = Ok (mk_instance "SchemaInfo"
          [("name", PStr "user"); ("schema", PDict [("title", PStr "User")])]).
Proof.
  apply (proj2 (@SchemaInfo_accepts Plain.library
                  [("name", PStr "user"); ("schema", PDict [("title", PStr "User")])]
                  _)).
  exists "user", [("title", PStr "User")].
  split; [reflexivity | split; reflexivity].
Defined.

Lemma missing_reported_witness :
  @rejected_with Plain.library Ebook (dict_del "price" Sample.ebook)
    (mk_error [LKey "price"] missing).
Proof.
  apply (proj2 (proj1 (@missing_reported Plain.library Ebook
                         (dict_del "price" Sample.ebook) "price"))).
  split; [right; right; left; reflexivity | reflexivity].
Defined.

Lemma revalidation_settles_witness :
  exists y,
    @model_validate Plain.library LibraryItem
      (model_dump (mk_instance "LibraryItem"
                     [("user_id", PStr "u1"); ("ebook_id", PStr "e1");
                      ("last_read_at", PNone); ("progress", PInt 0)]))
    = Ok y
    /\ @model_validate Plain.library LibraryItem (model_dump y) = Ok y.
Proof.
  apply (@revalidation_settles Plain.library LibraryItem Sample.library_item).
  - right; right; right; left; reflexivity.
  - exact PlainFacts.normal.
  - vm_compute; reflexivity.
Defined.

Lemma flag_fields_keep_bool_witness :
  @accepted_with Plain.library User (dict_set "is_active" (PBool false) Sample.user)
    "is_active" (PBool false).
Proof.
  apply (@flag_fields_keep_bool Plain.library Sample.user false User "is_active").
  - left; reflexivity.
  - sample_valid.
Defined.
